(** * PDF Redactor: a shallow embedding of [redactor.py]

    The development follows the classes of the program:
    - [RedactionRect] and [RedactionModel]: the pending redaction marks, kept
      in a Python [dict] from page index to a list of marks;
    - [PDFRenderer]: the page-image cache, an [OrderedDict] used as an LRU;
    - [CanvasController]: pixel/point conversion and the drag handlers;
    - [RedactorApp]: the handlers that catch failures and show dialogs.

    Python objects are modelled as follows.
    - A [dict] (and an [OrderedDict]) is an association list in insertion
      order; Python keeps the keys of a dict pairwise distinct, which is the
      predicate [wf] below, preserved by every dict operation.
    - A [float] is a rational number, and every floating-point operation
      rounds its exact result with the operator [rnd] of the class [Float64];
      infinities and NaN are outside of this model.
    - The PDF engine (PyMuPDF), PIL and the windowing toolkit are not part of
      the program: the engine is the interface [Engine], whose calls may raise,
      and what the toolkit reports (pointer coordinates, widget width, the
      answers given in dialogs) is an argument of the handler that uses it.
    - A method that can raise is a computation in the state-and-exception
      monad [M]; the state survives a raise, as a Python object does. *)

From Stdlib Require Import List ZArith QArith Qabs Qround String Bool Lia Lqa.
From Stdlib Require Import Permutation Sorted Mergesort Orders.
Import ListNotations.

Open Scope string_scope.
Open Scope list_scope.
Open Scope Z_scope.

(* ------------------------------------------------------------------ *)
(** ** Constants *)

Definition RENDER_DPI : Z := 150.
Definition MIN_RECT_SIZE : Z := 5.
Definition CACHE_LIMIT : nat := 5.

(* ------------------------------------------------------------------ *)
(** ** Python dictionaries *)

Module PyDict.
Section Dict.
Context {K V : Type}.
Variable eqb : K -> K -> bool.

(** Items in insertion order. *)
Definition dict := list (K * V).

Definition keys (d : dict) : list K := map fst d.
Definition values (d : dict) : list V := map snd d.
Definition items (d : dict) : list (K * V) := d.

(** [d.get(k)] *)
Fixpoint get (k : K) (d : dict) : option V :=
  match d with
  | [] => None
  | (k', v) :: d' => if eqb k k' then Some v else get k d'
  end.

(** [k in d] *)
Definition contains (k : K) (d : dict) : bool :=
  match get k d with Some _ => true | None => false end.

(** [d.get(k, default)] *)
Definition get_default (k : K) (default : V) (d : dict) : V :=
  match get k d with Some v => v | None => default end.

(** [d[k] = v]: an existing key keeps its position, a new key goes last. *)
Fixpoint set (k : K) (v : V) (d : dict) : dict :=
  match d with
  | [] => [(k, v)]
  | (k', v') :: d' =>
      if eqb k k' then (k, v) :: d' else (k', v') :: set k v d'
  end.

(** [d.setdefault(k, default)]: the value found or inserted, and the dict. *)
Definition setdefault (k : K) (default : V) (d : dict) : V * dict :=
  match get k d with
  | Some v => (v, d)
  | None => (default, set k default d)
  end.

(** [d.pop(k, None)] and [del d[k]] on a present key. *)
Fixpoint pop (k : K) (d : dict) : dict :=
  match d with
  | [] => []
  | (k', v) :: d' => if eqb k k' then d' else (k', v) :: pop k d'
  end.

(** [d.clear()] *)
Definition clear (d : dict) : dict := [].

(** [OrderedDict.move_to_end(k)] on a present key. *)
Definition move_to_end (k : K) (d : dict) : dict :=
  match get k d with
  | Some v => pop k d ++ [(k, v)]
  | None => d
  end.

(** [OrderedDict.popitem(last=False)] on a non-empty dict. *)
Definition popitem_first (d : dict) : dict := tl d.

(** The keys of a Python dict are pairwise distinct. *)
Definition wf (d : dict) : Prop := NoDup (keys d).
End Dict.
Arguments dict : clear implicits.
End PyDict.

(** Dicts keyed by page numbers and item ids, and dicts keyed by strings. *)
Abbreviation zget := (PyDict.get Z.eqb).
Abbreviation zset := (PyDict.set Z.eqb).
Abbreviation zpop := (PyDict.pop Z.eqb).
Abbreviation zsetdefault := (PyDict.setdefault Z.eqb).
Abbreviation zcontains := (PyDict.contains Z.eqb).
Abbreviation sget := (PyDict.get String.eqb).
Abbreviation sset := (PyDict.set String.eqb).
Abbreviation spop := (PyDict.pop String.eqb).

(* ------------------------------------------------------------------ *)
(** ** Floating-point numbers *)

(** [rnd] rounds an exact result to the float that Python stores. *)
Class Float64 := { rnd : Q -> Q }.

(** The exact arithmetic, which rounds nothing. *)
Definition exact_arith : Float64 := {| rnd := fun x => x |}.

(** A coarse arithmetic: every result is one part in 1024 too large. *)
Definition coarse_arith : Float64 := {| rnd := fun x => (x * (1025 # 1024))%Q |}.

(** The standard model of rounding: relative error at most [eps]. *)
Definition rounds_within (F : Float64) (eps : Q) : Prop :=
  forall x : Q, (Qabs (@rnd F x - x) <= eps * Qabs x)%Q.

(** Python's [min(a, b)] and [max(a, b)]: the first argument unless the second
    is smaller (larger). *)
Definition py_min (a b : Q) : Q := if Qlt_le_dec b a then b else a.
Definition py_max (a b : Q) : Q := if Qlt_le_dec a b then b else a.

(** [a < b] *)
Definition Qltb (a b : Q) : bool := if Qlt_le_dec a b then true else false.

(* ------------------------------------------------------------------ *)
(** ** RedactionRect *)

(** [(x0, y0, x1, y1)] in PDF points. *)
Definition Rect : Type := Q * Q * Q * Q.

Record RedactionRect : Type := mkRedactionRect {
  id : string;
  page_num : Z;
  pdf_rect : Rect;
  source : string;
  search_term : string;
}.

(** [RedactionRect.create]; [uid] is the value of [uuid.uuid4().hex[:8]]. *)
Definition create (uid : string) (page_num : Z) (pdf_rect : Rect)
    (source : string) (search_term : string) : RedactionRect :=
  mkRedactionRect uid page_num pdf_rect source search_term.

Definition Rect_eqb (a b : Rect) : bool :=
  let '(a0, a1, a2, a3) := a in
  let '(b0, b1, b2, b3) := b in
  Qeq_bool a0 b0 && Qeq_bool a1 b1 && Qeq_bool a2 b2 && Qeq_bool a3 b3.

(** The [__eq__] that [@dataclass] generates: the tuples of fields are equal. *)
Definition RedactionRect_eqb (x y : RedactionRect) : bool :=
  String.eqb (id x) (id y) && (page_num x =? page_num y)
  && Rect_eqb (pdf_rect x) (pdf_rect y)
  && String.eqb (source x) (source y)
  && String.eqb (search_term x) (search_term y).

(** [l.remove(r)]: drops the first element that is [r] or compares equal to
    it. *)
Fixpoint list_remove (r : RedactionRect) (l : list RedactionRect)
    : list RedactionRect :=
  match l with
  | [] => []
  | x :: l' => if RedactionRect_eqb x r then l' else x :: list_remove r l'
  end.

(** The first mark of a list with the given id. *)
Fixpoint find_id (rid : string) (rects : list RedactionRect)
    : option RedactionRect :=
  match rects with
  | [] => None
  | r :: rects' => if String.eqb (id r) rid then Some r else find_id rid rects'
  end.

(* ------------------------------------------------------------------ *)
(** ** Exceptions and the monad of methods *)

Inductive Exception : Type :=
| TypeError (msg : string)
| AttributeError (msg : string)
| KeyError (msg : string)
| ZeroDivisionError (msg : string)
| TclError (msg : string)
| EngineError (msg : string).

(** [str(e)] *)
Definition str (e : Exception) : string :=
  match e with
  | TypeError msg | AttributeError msg | KeyError msg | ZeroDivisionError msg
  | TclError msg
  | EngineError msg => msg
  end.

Inductive Result (A : Type) : Type :=
| Ok (a : A)
| Raised (e : Exception).
Arguments Ok {A} a.
Arguments Raised {A} e.

(** A method on an object of state [S]: the new state, and a value or an
    exception. *)
Definition M (S A : Type) : Type := S -> S * Result A.

Definition ret {S A} (a : A) : M S A := fun s => (s, Ok a).
Definition raise {S A} (e : Exception) : M S A := fun s => (s, Raised e).
Definition bind {S A B} (c : M S A) (k : A -> M S B) : M S B :=
  fun s => match c s with
           | (s', Ok a) => k a s'
           | (s', Raised e) => (s', Raised e)
           end.
Definition gets {S A} (f : S -> A) : M S A := fun s => (s, Ok (f s)).
Definition modify {S} (f : S -> S) : M S unit := fun s => (f s, Ok tt).

(** [try: c  except Exception as e: h e] *)
Definition try_except {S A} (c : M S A) (h : Exception -> M S A) : M S A :=
  fun s => match c s with
           | (s', Ok a) => (s', Ok a)
           | (s', Raised e) => h e s'
           end.

(** Runs a method of a component object stored in a field of [S]. *)
Definition zoom {S T A} (get : S -> T) (put : T -> S -> S) (c : M T A)
    : M S A :=
  fun s => let (t', r) := c (get s) in (put t' s, r).

Declare Scope monad_scope.
Delimit Scope monad_scope with monad.
Notation "x <- c ;; k" := (bind c (fun x => k))
  (at level 61, c at next level, right associativity) : monad_scope.
Notation "c ;; k" := (bind c (fun _ => k))
  (at level 61, right associativity) : monad_scope.

Local Open Scope monad_scope.

(** [for x in l: acc = body acc x], stopping at the first exception. *)
Fixpoint foldM {S A B} (body : B -> A -> M S B) (l : list A) (acc : B)
    : M S B :=
  match l with
  | [] => ret acc
  | x :: l' => acc' <- body acc x ;; foldM body l' acc'
  end.

(* ------------------------------------------------------------------ *)
(** ** The PDF engine *)

(** What the program asks of PyMuPDF and PIL.  A [Document] is the state of an
    opened file; methods of a document or of one of its pages are methods on
    that state, and any of them may raise. *)
Class Engine := {
  Document : Type;
  Image : Type;
  (** [fitz.open(path)] *)
  fitz_open : string -> Result Document;
  (** [bool(doc)] and [len(doc)] *)
  doc_bool : Document -> bool;
  doc_len : Document -> Z;
  (** [doc[page_num]]: raises when the document has no such page *)
  doc_getitem : Z -> M Document unit;
  (** [page.add_redact_annot(fitz.Rect(rect), fill=...)] on page [page_num] *)
  add_redact_annot : Z -> Rect -> M Document unit;
  (** [page.apply_redactions(images=..., graphics=...)] on page [page_num] *)
  page_apply_redactions : Z -> M Document unit;
  (** [doc.scrub()] and [doc.save(path, garbage=3, deflate=True)] *)
  doc_scrub : M Document unit;
  doc_save : string -> M Document unit;
  (** [page.get_pixmap(dpi=RENDER_DPI)] of page [page_num], as a PIL image *)
  get_pixmap : Document -> Z -> Result Image;
  (** [img.width], [img.height], and [img.resize((w, h), Image.LANCZOS)]
      wrapped in [ImageTk.PhotoImage] *)
  image_width : Image -> Z;
  image_height : Image -> Z;
  image_resize : Image -> Z -> Z -> Result Image;
  (** [page.search_for(text, quads=True)], as bounding rectangles *)
  search_for : Z -> string -> M Document (list Rect);
}.

(* ------------------------------------------------------------------ *)
(** ** Sorting page numbers *)

(** [sorted(...)] on integers, by the library's merge sort. *)
Module ZOrder <: TotalLeBool.
Definition t := Z.
Definition leb (x y : Z) : bool := x <=? y.
Theorem leb_total : forall x y : Z, leb x y = true \/ leb y x = true.
Proof. intros x y; unfold leb; lia. Qed.
End ZOrder.

Module ZSort := Sort ZOrder.

Definition sorted (l : list Z) : list Z := ZSort.sort l.

(* ------------------------------------------------------------------ *)
(** ** RedactionModel *)

Section Model.
Context {E : Engine}.

Record RedactionModel : Type := mkRedactionModel {
  doc : option Document;
  file_path : option string;
  current_page : Z;
  pending : PyDict.dict Z (list RedactionRect);
  is_applied : bool;
}.

(** [RedactionModel.__init__] *)
Definition RedactionModel_init : RedactionModel :=
  mkRedactionModel None None 0 [] false.

Definition set_doc (d : option Document) (m : RedactionModel) :=
  mkRedactionModel d (file_path m) (current_page m) (pending m) (is_applied m).
Definition set_current_page (p : Z) (m : RedactionModel) :=
  mkRedactionModel (doc m) (file_path m) p (pending m) (is_applied m).
Definition set_pending (d : PyDict.dict Z (list RedactionRect))
    (m : RedactionModel) :=
  mkRedactionModel (doc m) (file_path m) (current_page m) d (is_applied m).
Definition set_is_applied (b : bool) (m : RedactionModel) :=
  mkRedactionModel (doc m) (file_path m) (current_page m) (pending m) b.

(** Work on [self.doc]; when it is [None], Python raises instead. *)
Definition on_doc {A} (on_none : Exception) (c : M Document A)
    : M RedactionModel A :=
  fun m => match doc m with
           | None => (m, Raised on_none)
           | Some d => let (d', r) := c d in (set_doc (Some d') m, r)
           end.

(** [self.doc[page_num]], and any work on the page obtained *)
Definition with_doc {A} (c : M Document A) : M RedactionModel A :=
  on_doc (TypeError "'NoneType' object is not subscriptable") c.

(** [self.doc.method(...)] *)
Definition with_doc_method {A} (c : M Document A) : M RedactionModel A :=
  on_doc (AttributeError "'NoneType' object has no such attribute") c.

(** [if self.doc] *)
Definition doc_truthy (m : RedactionModel) : bool :=
  match doc m with Some d => doc_bool d | None => false end.

(** *** Document lifecycle *)

(** [close_document]; closing the engine's handle leaves no mark in the
    model. *)
Definition close_document : M RedactionModel unit :=
  modify (fun _ => mkRedactionModel None None 0 [] false).

Definition open_document (path : string) : M RedactionModel unit :=
  close_document ;;
  d <- (fun m => (m, fitz_open path)) ;;
  modify (fun _ => mkRedactionModel (Some d) (Some path) 0 [] false).

Definition page_count (m : RedactionModel) : Z :=
  match doc m with
  | Some d => if doc_bool d then doc_len d else 0
  | None => 0
  end.

(** A page object: the document it belongs to and its number. *)
Definition Page : Type := Document * Z.

Definition get_page (page_num : Z) : M RedactionModel Page :=
  with_doc (doc_getitem page_num ;; gets (fun d => (d, page_num))).

(** *** Redaction management *)

Definition add_redaction (redaction : RedactionRect) (m : RedactionModel)
    : RedactionModel :=
  let (page_list, d) := zsetdefault (page_num redaction) [] (pending m) in
  (* [page_list] is the list stored in the dict: appending updates it there *)
  set_pending (zset (page_num redaction) (page_list ++ [redaction]) d) m.

(** The loop of [remove_redaction] over [self.pending.items()]. *)
Fixpoint remove_scan (redaction_id : string)
    (items : list (Z * list RedactionRect))
    (d : PyDict.dict Z (list RedactionRect))
    : option RedactionRect * PyDict.dict Z (list RedactionRect) :=
  match items with
  | [] => (None, d)
  | (page_num, rects) :: items' =>
      match find_id redaction_id rects with
      | Some r =>
          let rects' := list_remove r rects in
          (Some r,
           match rects' with
           | [] => zpop page_num d
           | _ :: _ => zset page_num rects' d
           end)
      | None => remove_scan redaction_id items' d
      end
  end.

Definition remove_redaction (redaction_id : string) (m : RedactionModel)
    : option RedactionRect * RedactionModel :=
  let (r, d) := remove_scan redaction_id (PyDict.items (pending m)) (pending m) in
  (r, set_pending d m).

Definition get_page_redactions (page_num : Z) (m : RedactionModel)
    : list RedactionRect :=
  PyDict.get_default Z.eqb page_num [] (pending m).

Definition all_redactions (m : RedactionModel) : list RedactionRect :=
  flat_map (fun page_num => PyDict.get_default Z.eqb page_num [] (pending m))
           (sorted (PyDict.keys (pending m))).

Definition redaction_count (m : RedactionModel) : Z :=
  fold_right Z.add 0
    (map (fun v => Z.of_nat (List.length v)) (PyDict.values (pending m))).

Definition has_pending (m : RedactionModel) : bool :=
  0 <? redaction_count m.

Definition clear_page_redactions (page_num : Z) (m : RedactionModel)
    : Z * RedactionModel :=
  let removed :=
    Z.of_nat (List.length (PyDict.get_default Z.eqb page_num [] (pending m))) in
  (removed, set_pending (zpop page_num (pending m)) m).

Definition clear_all_redactions (m : RedactionModel) : Z * RedactionModel :=
  let count := redaction_count m in
  (count, set_pending (PyDict.clear (pending m)) m).

(** *** Search *)

(** [range(n)] as page numbers *)
Definition range (n : Z) : list Z := map Z.of_nat (seq 0 (Z.to_nat n)).

Definition search_text (text : string)
    : M RedactionModel (PyDict.dict Z (list Rect)) :=
  n <- gets page_count ;;
  foldM (fun results i =>
           hits <- with_doc (doc_getitem i ;; search_for i text) ;;
           ret (match hits with
                | [] => results
                | _ :: _ => zset i hits results
                end))
        (range n) [].

(** *** Apply and save *)

(** The inner loop of [apply_redactions]: one annotation per mark. *)
Definition annotate (page_num : Z) (count : Z) (r : RedactionRect)
    : M RedactionModel Z :=
  with_doc (add_redact_annot page_num (pdf_rect r)) ;;
  ret (count + 1).

(** The body of its outer loop: one page of the pending set. *)
Definition redact_page (count : Z) (item : Z * list RedactionRect)
    : M RedactionModel Z :=
  let '(page_num, rects) := item in
  with_doc (doc_getitem page_num) ;;
  count <- foldM (annotate page_num) rects count ;;
  with_doc (page_apply_redactions page_num) ;;
  ret count.

Definition apply_redactions : M RedactionModel Z :=
  items <- gets (fun m => PyDict.items (pending m)) ;;
  count <- foldM redact_page items 0 ;;
  modify (fun m => set_pending (PyDict.clear (pending m)) m) ;;
  modify (set_is_applied true) ;;
  ret count.

Definition save_document (path : string) : M RedactionModel unit :=
  with_doc_method doc_scrub ;;
  with_doc_method (doc_save path).
End Model.

(* ------------------------------------------------------------------ *)
(** ** PDFRenderer *)

Section Renderer.
Context {E : Engine} {F : Float64}.

Record PDFRenderer : Type := mkPDFRenderer {
  _cache : PyDict.dict Z Image;
}.

(** [PDFRenderer.__init__] *)
Definition PDFRenderer_init : PDFRenderer := mkPDFRenderer [].

(** [self._cache[page_num]] *)
Definition cache_getitem (page_num : Z) : M PDFRenderer Image :=
  fun r => match zget page_num (_cache r) with
           | Some img => (r, Ok img)
           | None => (r, Raised (KeyError "page_num"))
           end.

Definition render_page (page : Page) (page_num : Z) : M PDFRenderer Image :=
  hit <- gets (fun r => zcontains page_num (_cache r)) ;;
  if hit : bool then
    modify (fun r => mkPDFRenderer (PyDict.move_to_end Z.eqb page_num (_cache r))) ;;
    cache_getitem page_num
  else
    img <- (fun r => (r, get_pixmap (fst page) (snd page))) ;;
    modify (fun r => mkPDFRenderer (zset page_num img (_cache r))) ;;
    modify (fun r =>
              if (CACHE_LIMIT <? List.length (_cache r))%nat
              then mkPDFRenderer (PyDict.popitem_first (_cache r))
              else r) ;;
    ret img.

Definition invalidate (page_num : option Z) (r : PDFRenderer) : PDFRenderer :=
  match page_num with
  | Some p => mkPDFRenderer (zpop p (_cache r))
  | None => mkPDFRenderer (PyDict.clear (_cache r))
  end.

(** [RENDER_DPI / 72.0] *)
Definition render_scale : Q := rnd (inject_Z RENDER_DPI / 72)%Q.
End Renderer.

(* ------------------------------------------------------------------ *)
(** ** The canvas widget *)

(** The items of a [tk.Canvas]: ids are handed out in increasing order. *)
Record CanvasItem : Type := mkCanvasItem {
  item_coords : list Q;
  item_tags : list string;
}.

Record Canvas : Type := mkCanvas {
  next_item : Z;
  canvas_items : PyDict.dict Z CanvasItem;
}.

Definition Canvas_init : Canvas := mkCanvas 1 [].

(** [canvas.create_rectangle(...)] and [canvas.create_image(...)] *)
Definition canvas_create (coords : list Q) (tags : list string) (c : Canvas)
    : Z * Canvas :=
  (next_item c,
   mkCanvas (next_item c + 1)
            (zset (next_item c) (mkCanvasItem coords tags) (canvas_items c))).

(** [canvas.delete(item_id)] *)
Definition canvas_delete (item_id : Z) (c : Canvas) : Canvas :=
  mkCanvas (next_item c) (zpop item_id (canvas_items c)).

(** [canvas.delete(tag)]; the tag ["all"] names every item. *)
Definition canvas_delete_tag (tag : string) (c : Canvas) : Canvas :=
  mkCanvas (next_item c)
    (if String.eqb tag "all" then []
     else filter (fun it => negb (existsb (String.eqb tag) (item_tags (snd it))))
                 (canvas_items c)).

(** [canvas.coords(item_id, x0, y0, x1, y1)] *)
Definition canvas_coords (item_id : Z) (coords : list Q) (c : Canvas) : Canvas :=
  match zget item_id (canvas_items c) with
  | Some it =>
      mkCanvas (next_item c)
               (zset item_id (mkCanvasItem coords (item_tags it)) (canvas_items c))
  | None => c
  end.

(* ------------------------------------------------------------------ *)
(** ** The objects of the application *)

(** What the window shows to the user and what its handlers ask of the model,
    in order. *)
Inductive Event : Type :=
| call_open_document (path : string)
| call_save_document (path : string)
| call_apply_redactions
| showerror (title message : string)
| showinfo (title message : string).

Section Objects.
Context {E : Engine}.

(** The fields of a [CanvasController] other than the objects it shares with
    the application. *)
Record CanvasController : Type := mkCanvasController {
  _total_scale : Q;
  _drawing : bool;
  _draw_start : option (Q * Q);
  _temp_rect_id : option Z;
  _photo : option Image;
  _pil_image : option Image;
  _canvas_to_rid : PyDict.dict Z string;
  _rid_to_canvas : PyDict.dict string Z;
  _selected_rid : option string;
}.

(** [CanvasController.__init__] *)
Definition CanvasController_init : CanvasController :=
  mkCanvasController 1 false None None None None [] [] None.

(** The application.  Its model, renderer and canvas are the very objects
    that the controller works on, so they are stored once, here.  Of the
    widgets only the rows of the tree view are kept, by their ids; labels,
    button states and the window title are written and never read. *)
Record RedactorApp : Type := mkRedactorApp {
  model : RedactionModel;
  renderer : PDFRenderer;
  canvas : Canvas;
  controller : CanvasController;
  tree : list string;
  events : list Event;
}.

(** [RedactorApp.__init__] *)
Definition RedactorApp_init : RedactorApp :=
  mkRedactorApp RedactionModel_init PDFRenderer_init Canvas_init
                CanvasController_init [] [].

Definition set_model (m : RedactionModel) (a : RedactorApp) :=
  mkRedactorApp m (renderer a) (canvas a) (controller a) (tree a) (events a).
Definition set_renderer (r : PDFRenderer) (a : RedactorApp) :=
  mkRedactorApp (model a) r (canvas a) (controller a) (tree a) (events a).
Definition set_canvas (c : Canvas) (a : RedactorApp) :=
  mkRedactorApp (model a) (renderer a) c (controller a) (tree a) (events a).
Definition set_controller (c : CanvasController) (a : RedactorApp) :=
  mkRedactorApp (model a) (renderer a) (canvas a) c (tree a) (events a).
Definition set_tree (t : list string) (a : RedactorApp) :=
  mkRedactorApp (model a) (renderer a) (canvas a) (controller a) t (events a).
Definition log (ev : Event) (a : RedactorApp) :=
  mkRedactorApp (model a) (renderer a) (canvas a) (controller a) (tree a)
                (events a ++ [ev]).

Definition set_total_scale (s : Q) (c : CanvasController) :=
  mkCanvasController s (_drawing c) (_draw_start c) (_temp_rect_id c)
    (_photo c) (_pil_image c) (_canvas_to_rid c) (_rid_to_canvas c)
    (_selected_rid c).
Definition set_drawing (b : bool) (c : CanvasController) :=
  mkCanvasController (_total_scale c) b (_draw_start c) (_temp_rect_id c)
    (_photo c) (_pil_image c) (_canvas_to_rid c) (_rid_to_canvas c)
    (_selected_rid c).
Definition set_draw_start (p : option (Q * Q)) (c : CanvasController) :=
  mkCanvasController (_total_scale c) (_drawing c) p (_temp_rect_id c)
    (_photo c) (_pil_image c) (_canvas_to_rid c) (_rid_to_canvas c)
    (_selected_rid c).
Definition set_temp_rect_id (i : option Z) (c : CanvasController) :=
  mkCanvasController (_total_scale c) (_drawing c) (_draw_start c) i
    (_photo c) (_pil_image c) (_canvas_to_rid c) (_rid_to_canvas c)
    (_selected_rid c).
Definition set_photo (i : option Image) (c : CanvasController) :=
  mkCanvasController (_total_scale c) (_drawing c) (_draw_start c)
    (_temp_rect_id c) i (_pil_image c) (_canvas_to_rid c) (_rid_to_canvas c)
    (_selected_rid c).
Definition set_pil_image (i : option Image) (c : CanvasController) :=
  mkCanvasController (_total_scale c) (_drawing c) (_draw_start c)
    (_temp_rect_id c) (_photo c) i (_canvas_to_rid c) (_rid_to_canvas c)
    (_selected_rid c).
Definition set_rid_maps (c2r : PyDict.dict Z string)
    (r2c : PyDict.dict string Z) (c : CanvasController) :=
  mkCanvasController (_total_scale c) (_drawing c) (_draw_start c)
    (_temp_rect_id c) (_photo c) (_pil_image c) c2r r2c (_selected_rid c).
Definition set_selected_rid (r : option string) (c : CanvasController) :=
  mkCanvasController (_total_scale c) (_drawing c) (_draw_start c)
    (_temp_rect_id c) (_photo c) (_pil_image c) (_canvas_to_rid c)
    (_rid_to_canvas c) r.

(** A step on one of the application's objects. *)
Definition on_model (f : RedactionModel -> RedactionModel) : M RedactorApp unit :=
  modify (fun a => set_model (f (model a)) a).
Definition on_renderer (f : PDFRenderer -> PDFRenderer) : M RedactorApp unit :=
  modify (fun a => set_renderer (f (renderer a)) a).
Definition on_canvas (f : Canvas -> Canvas) : M RedactorApp unit :=
  modify (fun a => set_canvas (f (canvas a)) a).
Definition on_controller (f : CanvasController -> CanvasController)
    : M RedactorApp unit :=
  modify (fun a => set_controller (f (controller a)) a).
End Objects.

(* ------------------------------------------------------------------ *)
(** ** CanvasController *)

(** [int(x)] on a float: truncation towards zero. *)
Definition py_int (x : Q) : Z :=
  if Qlt_le_dec x 0 then Qceiling x else Qfloor x.

Section Controller.
Context {E : Engine} {F : Float64}.

(** The callback given to the controller when it is built. *)
Variable on_change : M RedactorApp unit.

(** *** Coordinate helpers *)

Definition canvas_to_pdf (c : CanvasController) (cx cy : Q) : Q * Q :=
  if Qeq_bool (_total_scale c) 0 then (0, 0)%Q
  else (rnd (cx / _total_scale c), rnd (cy / _total_scale c))%Q.

Definition pdf_to_canvas (c : CanvasController) (px py : Q) : Q * Q :=
  (rnd (px * _total_scale c), rnd (py * _total_scale c))%Q.

(** *** Drawing events *)

(** [canvas.create_rectangle] and [canvas.create_image] on the shared canvas *)
Definition create_item (coords : list Q) (tags : list string)
    : M RedactorApp Z :=
  fun a => let (item, c) := canvas_create coords tags (canvas a) in
           (set_canvas c a, Ok item).

(** [x0, y0 = self._draw_start] *)
Definition unpack_draw_start : M RedactorApp (Q * Q) :=
  fun a => match _draw_start (controller a) with
           | Some p => (a, Ok p)
           | None => (a, Raised (TypeError "cannot unpack NoneType"))
           end.

(** The pointer position [(cx, cy)] is what [_event_coords] returns. *)
Definition _on_press (cx cy : Q) : M RedactorApp unit :=
  on_controller (set_drawing true) ;;
  on_controller (set_draw_start (Some (cx, cy))) ;;
  item <- create_item [cx; cy; cx; cy] ["temp_drawing"] ;;
  on_controller (set_temp_rect_id (Some item)).

Definition _on_drag (cx cy : Q) : M RedactorApp unit :=
  c <- gets controller ;;
  match _drawing c, _temp_rect_id c with
  | true, Some temp =>
      p <- unpack_draw_start ;;
      on_canvas (canvas_coords temp [fst p; snd p; cx; cy])
  | _, _ => ret tt
  end.

Definition _draw_overlay (redaction : RedactionRect) : M RedactorApp Z :=
  c <- gets controller ;;
  let '(r0, r1, r2, r3) := pdf_rect redaction in
  let '(x0, y0) := pdf_to_canvas c r0 r1 in
  let '(x1, y1) := pdf_to_canvas c r2 r3 in
  item_id <- create_item [x0; y0; x1; y1]
               ["redaction"; ("rid_" ++ id redaction)%string] ;;
  on_controller (fun c =>
    set_rid_maps (zset item_id (id redaction) (_canvas_to_rid c))
                 (sset (id redaction) item_id (_rid_to_canvas c)) c) ;;
  ret item_id.

(** [uid] is the identifier drawn for the new mark. *)
Definition _on_release (uid : string) (cx cy : Q) : M RedactorApp unit :=
  drawing <- gets (fun a => _drawing (controller a)) ;;
  if negb drawing then ret tt else
  on_controller (set_drawing false) ;;
  p <- unpack_draw_start ;;
  let '(x0, y0) := p in
  temp <- gets (fun a => _temp_rect_id (controller a)) ;;
  match temp with
  | Some item => on_canvas (canvas_delete item) ;;
                 on_controller (set_temp_rect_id None)
  | None => ret tt
  end ;;
  let rx0 := py_min x0 cx in let rx1 := py_max x0 cx in
  let ry0 := py_min y0 cy in let ry1 := py_max y0 cy in
  if Qltb (rnd (rx1 - rx0)) (inject_Z MIN_RECT_SIZE)
     || Qltb (rnd (ry1 - ry0)) (inject_Z MIN_RECT_SIZE)
  then ret tt else
  c <- gets controller ;;
  let '(pdf_x0, pdf_y0) := canvas_to_pdf c rx0 ry0 in
  let '(pdf_x1, pdf_y1) := canvas_to_pdf c rx1 ry1 in
  page <- gets (fun a => current_page (model a)) ;;
  let redaction := create uid page (pdf_x0, pdf_y0, pdf_x1, pdf_y1) "manual" "" in
  on_model (add_redaction redaction) ;;
  _draw_overlay redaction ;;
  on_change.

Definition _remove_overlay (redaction_id : string) : M RedactorApp unit :=
  c <- gets controller ;;
  match sget redaction_id (_rid_to_canvas c) with
  | Some item_id =>
      on_controller (fun c =>
        set_rid_maps (zpop item_id (_canvas_to_rid c))
                     (spop redaction_id (_rid_to_canvas c)) c) ;;
      on_canvas (canvas_delete item_id)
  | None => ret tt
  end.

(** [items] is what [canvas.find_overlapping] reports around the pointer. *)
Fixpoint _on_right_click (items : list Z) : M RedactorApp unit :=
  match items with
  | [] => ret tt
  | item :: items' =>
      c <- gets controller ;;
      match zget item (_canvas_to_rid c) with
      | Some rid =>
          _remove_overlay rid ;;
          on_model (fun m => snd (remove_redaction rid m)) ;;
          on_change
      | None => _on_right_click items'
      end
  end.

(** *** Overlays *)

Definition draw_all_overlays (page_num : Z) : M RedactorApp unit :=
  rects <- gets (fun a => get_page_redactions page_num (model a)) ;;
  foldM (fun _ r => _draw_overlay r ;; ret tt) rects tt.

Definition clear_overlays : M RedactorApp unit :=
  on_canvas (canvas_delete_tag "redaction") ;;
  on_controller (set_rid_maps [] []) ;;
  on_controller (set_selected_rid None).

Definition deselect_all : M RedactorApp unit :=
  on_controller (set_selected_rid None).

Definition select_redaction (redaction_id : string) : M RedactorApp unit :=
  deselect_all ;;
  c <- gets controller ;;
  match sget redaction_id (_rid_to_canvas c) with
  | Some item_id =>
      if item_id =? 0 then ret tt
      else on_controller (set_selected_rid (Some redaction_id))
  | None => ret tt
  end.

(** *** Page display *)

(** [a / b] on integers *)
Definition true_div (a b : Z) : M RedactorApp Q :=
  if b =? 0 then raise (ZeroDivisionError "division by zero")
  else ret (rnd (inject_Z a / inject_Z b))%Q.

(** [winfo_width] is the width that the canvas widget reports.  The scroll
    region of the canvas is set and never read. *)
Definition display_page (page_num : Z) (fit_width : option Z)
    (winfo_width : Z) : M RedactorApp unit :=
  has_doc <- gets (fun a => doc_truthy (model a)) ;;
  if negb has_doc then ret tt else
  page <- zoom model set_model (get_page page_num) ;;
  pil_image <- zoom renderer set_renderer (render_page page page_num) ;;
  on_controller (set_pil_image (Some pil_image)) ;;
  let fit_width := match fit_width with
                   | Some w => w
                   | None => Z.max (winfo_width - 20) 400
                   end in
  display_scale <- true_div fit_width (image_width pil_image) ;;
  on_controller (set_total_scale (rnd (render_scale * display_scale))) ;;
  let new_w := py_int (rnd (inject_Z (image_width pil_image) * display_scale)) in
  let new_h := py_int (rnd (inject_Z (image_height pil_image) * display_scale)) in
  display_img <- (fun a => (a, image_resize pil_image new_w new_h)) ;;
  on_controller (set_photo (Some display_img)) ;;
  on_canvas (canvas_delete_tag "all") ;;
  on_controller (set_rid_maps [] []) ;;
  on_controller (set_selected_rid None) ;;
  create_item [0%Q; 0%Q] ["page_image"] ;;
  draw_all_overlays page_num.
End Controller.

(* ------------------------------------------------------------------ *)
(** ** RedactorApp *)

Definition nl : string := String (Ascii.ascii_of_nat 10) EmptyString.

Section App.
Context {E : Engine} {F : Float64}.

(** [self.tree.insert("", "end", iid=iid, ...)]: the toolkit refuses an id
    that a row already has. *)
Definition tree_insert (iid : string) : M RedactorApp unit :=
  fun a => if existsb (String.eqb iid) (tree a)
           then (a, Raised (TclError ("Item " ++ iid ++ " already exists")%string))
           else (set_tree (tree a ++ [iid]) a, Ok tt).

Definition _update_redaction_list : M RedactorApp unit :=
  modify (set_tree []) ;;
  rects <- gets (fun a => all_redactions (model a)) ;;
  foldM (fun _ r => tree_insert (id r)) rects tt.

Definition _on_redaction_change : M RedactorApp unit :=
  _update_redaction_list.

(** [_update_ui_state], which ends this method and the previous one, only
    configures widgets. *)
Definition _refresh_page (winfo_width : Z) : M RedactorApp unit :=
  has_doc <- gets (fun a => doc_truthy (model a)) ;;
  if negb has_doc then ret tt else
  page <- gets (fun a => current_page (model a)) ;;
  display_page page None winfo_width.

(** *** File operations *)

(** [path] is the answer of the file dialog, empty when it was dismissed. *)
Definition _on_open (path : string) (winfo_width : Z) : M RedactorApp unit :=
  if String.eqb path "" then ret tt else
  try_except
    (modify (log (call_open_document path)) ;;
     zoom model set_model (open_document path) ;;
     on_renderer (invalidate None) ;;
     _update_redaction_list ;;
     _refresh_page winfo_width)
    (fun e =>
       modify (log (showerror "Error"
                      ("Could not open PDF:" ++ nl ++ str e)%string))).

Definition _do_apply (winfo_width : Z) : M RedactorApp unit :=
  try_except
    (modify (log call_apply_redactions) ;;
     zoom model set_model apply_redactions ;;
     on_renderer (invalidate None) ;;
     _refresh_page winfo_width ;;
     _update_redaction_list)
    (fun e =>
       modify (log (showerror "Error"
                      ("Failed to apply redactions:" ++ nl ++ str e)%string))).

(** [answer] is the answer to "Apply them before saving?", asked when marks
    are pending; [path] is the answer of the save dialog. *)
Definition _on_save (answer : option bool) (path : string) (winfo_width : Z)
    : M RedactorApp unit :=
  let save : M RedactorApp unit :=
    if String.eqb path "" then ret tt else
    try_except
      (modify (log (call_save_document path)) ;;
       zoom model set_model (save_document path) ;;
       modify (log (showinfo "Saved"
                      ("Redacted PDF saved to:" ++ nl ++ path)%string)))
      (fun e =>
         modify (log (showerror "Error"
                        ("Could not save PDF:" ++ nl ++ str e)%string))) in
  has_doc <- gets (fun a => doc_truthy (model a)) ;;
  if negb has_doc then ret tt else
  pending <- gets (fun a => has_pending (model a)) ;;
  if pending : bool then
    match answer with
    | None => ret tt
    | Some true => _do_apply winfo_width ;; save
    | Some false => save
    end
  else save.

(** [answer] is the answer to the confirmation dialog. *)
Definition _on_apply (answer : bool) (winfo_width : Z) : M RedactorApp unit :=
  pending <- gets (fun a => has_pending (model a)) ;;
  if negb pending then
    modify (log (showinfo "Nothing to Apply" "No pending redactions to apply."))
  else if negb answer then ret tt
  else _do_apply winfo_width.
End App.

(* ------------------------------------------------------------------ *)
(** ** RedactorApp: navigation, search and the edit commands *)

(** The warnings of [_on_page_jump]; the second carries the page count that
    its text quotes. *)
Inductive Warning : Type :=
| invalid_input
| invalid_page (page_count : Z).

(** [min(keys)] on a non-empty list of page numbers *)
Definition py_min_list (first : Z) (others : list Z) : Z :=
  fold_left (fun acc k => if k <? acc then k else acc) others first.

Section Commands.
Context {E : Engine} {F : Float64}.

(** Which exceptions an [except ValueError] clause catches. *)
Variable is_ValueError : Exception -> bool.

(** [answer] is the answer to "Discard pending redactions?", asked when marks
    are pending. *)
Definition _on_close_doc (answer : bool) : M RedactorApp unit :=
  pending <- gets (fun a => has_pending (model a)) ;;
  if pending && negb answer then ret tt else
  zoom model set_model close_document ;;
  on_renderer (invalidate None) ;;
  on_canvas (canvas_delete_tag "all") ;;
  clear_overlays ;;
  _update_redaction_list.

(** *** Page navigation *)

Definition _prev_page (winfo_width : Z) : M RedactorApp unit :=
  page <- gets (fun a => current_page (model a)) ;;
  if 0 <? page then
    on_model (set_current_page (page - 1)) ;;
    _refresh_page winfo_width
  else ret tt.

Definition _next_page (winfo_width : Z) : M RedactorApp unit :=
  page <- gets (fun a => current_page (model a)) ;;
  count <- gets (fun a => page_count (model a)) ;;
  if page <? count - 1 then
    on_model (set_current_page (page + 1)) ;;
    _refresh_page winfo_width
  else ret tt.

(** [entry] is the value of [int(self.page_entry.get())], and [None] when the
    conversion raises [ValueError].  The value returned is the warning shown,
    if one is. *)
Definition _on_page_jump (entry : option Z) (winfo_width : Z)
    : M RedactorApp (option Warning) :=
  match entry with
  | None => ret (Some invalid_input)
  | Some n =>
      let page := n - 1 in
      fun a =>
        match
          (count <- gets (fun a => page_count (model a)) ;;
           if (0 <=? page) && (page <? count) then
             on_model (set_current_page page) ;;
             _refresh_page winfo_width ;;
             ret None
           else ret (Some (invalid_page count))) a
        with
        | (a', Raised e) =>
            if is_ValueError e then (a', Ok (Some invalid_input))
            else (a', Raised e)
        | (a', Ok shown) => (a', Ok shown)
        end
  end.

(** [_do_resize], which runs when the canvas has kept its new size for 200
    milliseconds. *)
Definition _do_resize (winfo_width : Z) : M RedactorApp unit :=
  has_doc <- gets (fun a => doc_truthy (model a)) ;;
  if has_doc : bool then _refresh_page winfo_width else ret tt.

(** *** Search *)

(** The marks that [_on_search] makes of the hits of one page; [k] counts the
    identifiers drawn so far. *)
Definition mark_hits (text : string) (fresh : nat -> string) (k : nat)
    (item : Z * list Rect) : M RedactorApp nat :=
  let '(page_num, quads) := item in
  foldM (fun k rect =>
           on_model (add_redaction
                       (create (fresh k) page_num rect "search" text)) ;;
           ret (S k))
        quads k.

(** [text] is the content of the search entry, stripped; [fresh k] is the
    identifier drawn for the mark created after [k] others. *)
Definition _on_search (text : string) (fresh : nat -> string)
    (winfo_width : Z) : M RedactorApp unit :=
  has_doc <- gets (fun a => doc_truthy (model a)) ;;
  if negb has_doc then ret tt else
  if String.eqb text "" then ret tt else
  results <- zoom model set_model (search_text text) ;;
  match results with
  | [] => ret tt
  | (first, _) :: others =>
      foldM (mark_hits text fresh) results 0%nat ;;
      on_model (set_current_page (py_min_list first (PyDict.keys others))) ;;
      _update_redaction_list ;;
      _refresh_page winfo_width
  end.

(** *** Redaction management *)

(** [selection] is the first row selected in the tree view, if any. *)
Definition _on_tree_select (selection : option string) (winfo_width : Z)
    : M RedactorApp unit :=
  match selection with
  | None => ret tt
  | Some rid =>
      rects <- gets (fun a => all_redactions (model a)) ;;
      match find_id rid rects with
      | Some r =>
          page <- gets (fun a => current_page (model a)) ;;
          (if page_num r =? page then ret tt
           else on_model (set_current_page (page_num r)) ;;
                _refresh_page winfo_width) ;;
          select_redaction rid
      | None => ret tt
      end
  end.

Definition _on_remove_selected (selection : option string)
    : M RedactorApp unit :=
  match selection with
  | None => ret tt
  | Some rid =>
      on_model (fun m => snd (remove_redaction rid m)) ;;
      _remove_overlay rid ;;
      _on_redaction_change
  end.

Definition _on_clear_page (winfo_width : Z) : M RedactorApp unit :=
  page <- gets (fun a => current_page (model a)) ;;
  removed <- gets (fun a => fst (clear_page_redactions page (model a))) ;;
  on_model (fun m => snd (clear_page_redactions page m)) ;;
  if removed =? 0 then ret tt
  else _refresh_page winfo_width ;; _on_redaction_change.

(** [answer] is the answer to "Remove all pending redactions?". *)
Definition _on_clear_all (answer : bool) (winfo_width : Z)
    : M RedactorApp unit :=
  pending <- gets (fun a => has_pending (model a)) ;;
  if negb pending then ret tt else
  if negb answer then ret tt else
  on_model (fun m => snd (clear_all_redactions m)) ;;
  _refresh_page winfo_width ;;
  _on_redaction_change.
End Commands.

(* ------------------------------------------------------------------ *)
(** ** Notions used in the statements *)

(** The pending marks in the order in which the dict is traversed. *)
Definition marks_of (d : PyDict.dict Z (list RedactionRect)) : list RedactionRect :=
  List.concat (PyDict.values d).

(** Every key of the pending set has at least one mark. *)
Definition lists_nonempty (d : PyDict.dict Z (list RedactionRect)) : Prop :=
  forall p l, zget p d = Some l -> l <> [].

(** Every mark is filed under its own page number. *)
Definition filed_by_page (d : PyDict.dict Z (list RedactionRect)) : Prop :=
  forall p l r, zget p d = Some l -> In r l -> page_num r = p.

(** The three invariants of the pending set. *)
Definition pending_inv (d : PyDict.dict Z (list RedactionRect)) : Prop :=
  PyDict.wf d /\ lists_nonempty d /\ filed_by_page d.

(** Two model states that differ at most in the state of the document. *)
Definition same_but_doc {E : Engine} (m m' : RedactionModel) : Prop :=
  file_path m' = file_path m /\ current_page m' = current_page m
  /\ pending m' = pending m /\ is_applied m' = is_applied m.

(** The engine carries out the redaction of page [p], whatever the state of
    the document. *)
Definition engine_accepts {E : Engine} (p : Z) : Prop :=
  forall d : Document,
    (exists d', doc_getitem p d = (d', Ok tt))
    /\ (forall rect, exists d', add_redact_annot p rect d = (d', Ok tt))
    /\ (exists d', page_apply_redactions p d = (d', Ok tt)).

(** Claim C1 as the specification words it, for one model state. *)
Definition apply_empties_pending {E : Engine} (m : RedactionModel) : Prop :=
  let (m', res) := apply_redactions m in
  pending m' = [] /\ is_applied m' = true /\ res = Ok (redaction_count m).

(** A call of a method of the renderer. *)
Inductive RendererCall {E : Engine} : Type :=
| call_render_page (page : Page) (page_num : Z)
| call_invalidate (page_num : option Z).

Definition renderer_step {E : Engine} (c : RendererCall) (r : PDFRenderer)
    : PDFRenderer :=
  match c with
  | call_render_page page p => fst (render_page page p r)
  | call_invalidate p => invalidate p r
  end.

(** The renderer after a sequence of calls, the earliest call first. *)
Definition renderer_after {E : Engine} (calls : list RendererCall) : PDFRenderer :=
  fold_left (fun r c => renderer_step c r) calls PDFRenderer_init.

(** [c] is a request for page [p]. *)
Definition requests {E : Engine} (p : Z) (c : RendererCall) : bool :=
  match c with
  | call_render_page _ q => q =? p
  | call_invalidate _ => false
  end.

(** The position of the last request for page [p], positions counted from [i]. *)
Fixpoint last_request {E : Engine} (i : nat) (p : Z) (calls : list RendererCall)
    : option nat :=
  match calls with
  | [] => None
  | c :: calls' =>
      match last_request (S i) p calls' with
      | Some j => Some j
      | None => if requests p c then Some i else None
      end
  end.

(** Page [a] was last requested before page [b] was last requested. *)
Definition older {E : Engine} (calls : list RendererCall) (a b : Z) : Prop :=
  match last_request 0 a calls, last_request 0 b calls with
  | Some i, Some j => (i < j)%nat
  | _, _ => False
  end.

(** The invariant of the cache after [calls]: distinct keys, at most
    [CACHE_LIMIT] of them, each of them requested, in the order of their last
    request. *)
Definition cache_inv {E : Engine} (calls : list RendererCall)
    (d : PyDict.dict Z Image) : Prop :=
  PyDict.wf d
  /\ (List.length d <= CACHE_LIMIT)%nat
  /\ (forall k, In k (PyDict.keys d) -> last_request 0 k calls <> None)
  /\ StronglySorted (older calls) (PyDict.keys d).

(** From canvas pixels to PDF points and back. *)
Definition round_trip {F : Float64} {E : Engine} (c : CanvasController)
    (cx cy : Q) : Q * Q :=
  let '(px, py) := canvas_to_pdf c cx cy in pdf_to_canvas c px py.

(** [x] is [y] up to the relative tolerance [tol]. *)
Definition within (tol x y : Q) : Prop := (Qabs (x - y) <= tol * Qabs y)%Q.

(** Claim C3 for one scale, kept by the controller [c], and one point. *)
Definition round_trip_within {F : Float64} {E : Engine} (tol : Q)
    (c : CanvasController) (cx cy : Q) : Prop :=
  within tol (fst (round_trip c cx cy)) cx
  /\ within tol (snd (round_trip c cx cy)) cy.

(** A method that leaves the part [proj] of the state as it is, whether it
    returns or raises. *)
Definition keeps {S X A} (proj : S -> X) (c : M S A) : Prop :=
  forall s, proj (fst (c s)) = proj s.

(** The pending set of the application's model, and its marks. *)
Definition app_pending {E : Engine} (a : RedactorApp)
    : PyDict.dict Z (list RedactionRect) :=
  pending (model a).

Definition app_marks {E : Engine} (a : RedactorApp) : list RedactionRect :=
  marks_of (pending (model a)).

(** A method after which every pending mark is one of the marks that were
    pending before. *)
Definition no_new_marks {E : Engine} {A} (c : M RedactorApp A) : Prop :=
  forall a r, In r (app_marks (fst (c a))) -> In r (app_marks a).

(** The operations of the model and of the canvas controller. *)
Inductive Operation : Type :=
| op_open_document (path : string)
| op_close_document
| op_add_redaction (redaction : RedactionRect)
| op_remove_redaction (redaction_id : string)
| op_clear_page_redactions (page_num : Z)
| op_clear_all_redactions
| op_search_text (text : string)
| op_apply_redactions
| op_save_document (path : string)
| op_on_press (cx cy : Q)
| op_on_drag (cx cy : Q)
| op_on_release (uid : string) (cx cy : Q)
| op_on_right_click (items : list Z)
| op_draw_all_overlays (page_num : Z)
| op_clear_overlays
| op_select_redaction (redaction_id : string)
| op_deselect_all
| op_display_page (page_num : Z) (fit_width : option Z) (winfo_width : Z).

Definition perform {E : Engine} {F : Float64} (op : Operation)
    : M RedactorApp unit :=
  match op with
  | op_open_document path => zoom model set_model (open_document path)
  | op_close_document => zoom model set_model close_document
  | op_add_redaction r => on_model (add_redaction r)
  | op_remove_redaction rid => on_model (fun m => snd (remove_redaction rid m))
  | op_clear_page_redactions p =>
      on_model (fun m => snd (clear_page_redactions p m))
  | op_clear_all_redactions => on_model (fun m => snd (clear_all_redactions m))
  | op_search_text text => zoom model set_model (search_text text) ;; ret tt
  | op_apply_redactions => zoom model set_model apply_redactions ;; ret tt
  | op_save_document path => zoom model set_model (save_document path)
  | op_on_press cx cy => _on_press cx cy
  | op_on_drag cx cy => _on_drag cx cy
  | op_on_release uid cx cy => _on_release _on_redaction_change uid cx cy
  | op_on_right_click items => _on_right_click _on_redaction_change items
  | op_draw_all_overlays p => draw_all_overlays p
  | op_clear_overlays => clear_overlays
  | op_select_redaction rid => select_redaction rid
  | op_deselect_all => deselect_all
  | op_display_page p fit_width winfo_width =>
      display_page p fit_width winfo_width
  end.

(** The application after a sequence of operations, the earliest first. *)
Definition app_after {E : Engine} {F : Float64} (ops : list Operation)
    : RedactorApp :=
  fold_left (fun a op => fst (perform op a)) ops RedactorApp_init.

(** The mark that an operation creates, if it creates one. *)
Definition introduces {E : Engine} (op : Operation) (a : RedactorApp)
    (r : RedactionRect) : Prop :=
  match op with
  | op_add_redaction r' => r = r'
  | op_on_release uid _ _ =>
      exists rect, r = create uid (current_page (model a)) rect "manual" ""
  | _ => False
  end.

(* ------------------------------------------------------------------ *)
(** ** Notions used in the further statements *)

(** The body of the loop of [search_text]. *)
Definition search_page {E : Engine} (text : string)
    (results : PyDict.dict Z (list Rect)) (i : Z)
    : M RedactionModel (PyDict.dict Z (list Rect)) :=
  hits <- with_doc (doc_getitem i ;; search_for i text) ;;
  ret (match hits with
       | [] => results
       | _ :: _ => zset i hits results
       end).

(** What the loop of [search_text] keeps true of the results so far, when the
    pages below [bound] have been searched. *)
Definition search_inv (bound : Z) (results : PyDict.dict Z (list Rect)) : Prop :=
  StronglySorted Z.lt (PyDict.keys results)
  /\ forall k hits, zget k results = Some hits -> 0 <= k < bound /\ hits <> [].

(** Rounding never reverses the order of two numbers. *)
Definition rounds_monotone (F : Float64) : Prop :=
  forall x y : Q, (x <= y)%Q -> (@rnd F x <= @rnd F y)%Q.

(** The rectangle of a mark has its corners in order. *)
Definition normalized (r : RedactionRect) : Prop :=
  let '(x0, y0, x1, y1) := pdf_rect r in (x0 <= x1 /\ y0 <= y1)%Q.

(** The application after [_draw_overlay]. *)
Definition overlay_drawn {E : Engine} {F : Float64} (r : RedactionRect)
    (a : RedactorApp) : RedactorApp :=
  let item := next_item (canvas a) in
  let c := controller a in
  let '(r0, r1, r2, r3) := pdf_rect r in
  let '(x0, y0) := pdf_to_canvas c r0 r1 in
  let '(x1, y1) := pdf_to_canvas c r2 r3 in
  set_controller
    (set_rid_maps (zset item (id r) (_canvas_to_rid c))
                  (sset (id r) item (_rid_to_canvas c)) c)
    (set_canvas
       (snd (canvas_create [x0; y0; x1; y1]
               ["redaction"; ("rid_" ++ id r)%string] (canvas a)))
       a).

(** The application when [display_page] is about to draw the overlays: the
    model and renderer as [get_page] and [render_page] leave them, the new
    image, scale and photo kept, the canvas holding the page image alone. *)
Definition page_shown {E : Engine} (m1 : RedactionModel) (r1 : PDFRenderer)
    (pil_image display_img : Image) (scale : Q) (a : RedactorApp)
    : RedactorApp :=
  let a := set_renderer r1 (set_model m1 a) in
  let a := set_controller (set_pil_image (Some pil_image) (controller a)) a in
  let a := set_controller (set_total_scale scale (controller a)) a in
  let a := set_controller (set_photo (Some display_img) (controller a)) a in
  let a := set_canvas (canvas_delete_tag "all" (canvas a)) a in
  let a := set_controller (set_rid_maps [] [] (controller a)) a in
  let a := set_controller (set_selected_rid None (controller a)) a in
  set_canvas (snd (canvas_create [0%Q; 0%Q] ["page_image"] (canvas a))) a.

(** The fields of a model other than the state of its document, and the same
    for the model of the application. *)
Definition model_rest {E : Engine} (m : RedactionModel)
    : option string * Z * PyDict.dict Z (list RedactionRect) * bool :=
  (file_path m, current_page m, pending m, is_applied m).

Definition app_rest {E : Engine} (a : RedactorApp)
    : option string * Z * PyDict.dict Z (list RedactionRect) * bool :=
  model_rest (model a).

(** The hits of a search, each with the number of its page. *)
Definition hits_of (results : PyDict.dict Z (list Rect)) : list (Z * Rect) :=
  flat_map (fun item => map (pair (fst item)) (snd item)) results.

(** The model [m'] is [m] with one more mark for each of [hits], each made by
    a search for [text]: the marks of [m] are kept, there is a new one on
    every hit and no other, and the other fields are those of [m]. *)
Definition marked_hits {E : Engine} (text : string) (hits : list (Z * Rect))
    (m m' : RedactionModel) : Prop :=
  doc m' = doc m /\ file_path m' = file_path m
  /\ current_page m' = current_page m /\ is_applied m' = is_applied m
  /\ redaction_count m' = redaction_count m + Z.of_nat (List.length hits)
  /\ (forall r, In r (marks_of (pending m)) -> In r (marks_of (pending m')))
  /\ (forall r, In r (marks_of (pending m')) ->
        In r (marks_of (pending m))
        \/ (source r = "search" /\ search_term r = text
            /\ In (page_num r, pdf_rect r) hits))
  /\ (forall p rect, In (p, rect) hits ->
        exists r, In r (marks_of (pending m'))
                  /\ page_num r = p /\ pdf_rect r = rect
                  /\ source r = "search" /\ search_term r = text).

(** The model and the renderer of the application: what drawing on the
    canvas and filling the list leave alone. *)
Definition app_data {E : Engine} (a : RedactorApp)
    : RedactionModel * PDFRenderer :=
  (model a, renderer a).

(** Every image in the cache shows the current page, rendered from the
    document in its present state. *)
Definition cache_is_current {E : Engine} (a : RedactorApp) : Prop :=
  forall p img,
    In (p, img) (_cache (renderer a)) ->
    p = current_page (model a)
    /\ exists d, doc (model a) = Some d /\ get_pixmap d p = Ok img.

(** The two maps of the controller agree: no mark id is registered twice,
    the item registered for a mark id is an item registered for that mark,
    and every item registered is one that the canvas has handed out. *)
Definition overlays_inv {E : Engine} (a : RedactorApp) : Prop :=
  PyDict.wf (_rid_to_canvas (controller a))
  /\ (forall rid item,
        sget rid (_rid_to_canvas (controller a)) = Some item ->
        zget item (_canvas_to_rid (controller a)) = Some rid)
  /\ (forall item,
        In item (PyDict.keys (_canvas_to_rid (controller a))) ->
        item < next_item (canvas a)).

(** A method that keeps true what holds of the state before it, whether it
    returns or raises. *)
Definition preserves {S A} (P : S -> Prop) (c : M S A) : Prop :=
  forall s, P s -> P (fst (c s)).

(** What the user can do at the window: the commands of the menus, buttons
    and entries, each with the answers of its dialogs, and the events of the
    canvas, which go to the controller. *)
Inductive Command : Type :=
| cmd_operation (op : Operation)
| cmd_open (path : string) (winfo_width : Z)
| cmd_save (answer : option bool) (path : string) (winfo_width : Z)
| cmd_close_doc (answer : bool)
| cmd_prev_page (winfo_width : Z)
| cmd_next_page (winfo_width : Z)
| cmd_page_jump (entry : option Z) (winfo_width : Z)
| cmd_resize (winfo_width : Z)
| cmd_search (text : string) (fresh : nat -> string) (winfo_width : Z)
| cmd_tree_select (selection : option string) (winfo_width : Z)
| cmd_remove_selected (selection : option string)
| cmd_clear_page (winfo_width : Z)
| cmd_clear_all (answer : bool) (winfo_width : Z)
| cmd_apply (answer : bool) (winfo_width : Z).

(** The application after a command, whether its handler returns or
    raises. *)
Definition run {E : Engine} {F : Float64} (is_ValueError : Exception -> bool)
    (cmd : Command) (a : RedactorApp) : RedactorApp :=
  match cmd with
  | cmd_operation op => fst (perform op a)
  | cmd_open path w => fst (_on_open path w a)
  | cmd_save answer path w => fst (_on_save answer path w a)
  | cmd_close_doc answer => fst (_on_close_doc answer a)
  | cmd_prev_page w => fst (_prev_page w a)
  | cmd_next_page w => fst (_next_page w a)
  | cmd_page_jump entry w => fst (_on_page_jump is_ValueError entry w a)
  | cmd_resize w => fst (_do_resize w a)
  | cmd_search text fresh w => fst (_on_search text fresh w a)
  | cmd_tree_select selection w => fst (_on_tree_select selection w a)
  | cmd_remove_selected selection => fst (_on_remove_selected selection a)
  | cmd_clear_page w => fst (_on_clear_page w a)
  | cmd_clear_all answer w => fst (_on_clear_all answer w a)
  | cmd_apply answer w => fst (_on_apply answer w a)
  end.

(** The application after a sequence of commands, the earliest first. *)
Definition app_after_commands {E : Engine} {F : Float64}
    (is_ValueError : Exception -> bool) (cmds : list Command) : RedactorApp :=
  fold_left (fun a cmd => run is_ValueError cmd a) cmds RedactorApp_init.

(** The pending set of the application has its three invariants. *)
Definition pending_ok {E : Engine} (a : RedactorApp) : Prop :=
  pending_inv (app_pending a).

(** The application [a] while a rectangle is drawn from [(x0, y0)], the
    press having come in the state [a0]: the controller has recorded the
    start, and the temporary rectangle is the last item of the canvas, on top
    of the items that [a0] had. *)
Definition drawing_from {E : Engine} (x0 y0 : Q) (a0 a : RedactorApp) : Prop :=
  model a = model a0
  /\ controller a
     = set_temp_rect_id (Some (next_item (canvas a0)))
         (set_draw_start (Some (x0, y0)) (set_drawing true (controller a0)))
  /\ next_item (canvas a) = next_item (canvas a0) + 1
  /\ exists it,
       canvas_items (canvas a)
       = canvas_items (canvas a0) ++ [(next_item (canvas a0), it)].

(** The canvas and the controller of the application. *)
Definition app_view {E : Engine} (a : RedactorApp) : Canvas * CanvasController :=
  (canvas a, controller a).

(* ------------------------------------------------------------------ *)
(** ** Engines and states used as examples *)

(** An engine whose documents have one page.  Only ["good.pdf"] opens; the
    state of a document is the number of redaction annotations made so far,
    and a page renders to an image that shows this number; saving fails. *)
Definition toy_engine : Engine := {|
  Document := Z;
  Image := Z;
  fitz_open := fun path =>
    if String.eqb path "good.pdf" then Ok 0
    else Raised (EngineError "no such file");
  doc_bool := fun _ => true;
  doc_len := fun _ => 1;
  doc_getitem := fun p d =>
    if p =? 0 then (d, Ok tt)
    else (d, Raised (EngineError "page not in document"));
  add_redact_annot := fun _ _ d => (d + 1, Ok tt);
  page_apply_redactions := fun _ d => (d, Ok tt);
  doc_scrub := fun d => (d, Ok tt);
  doc_save := fun _ d => (d, Raised (EngineError "cannot write"));
  get_pixmap := fun d _ => Ok d;
  image_width := fun _ => 100;
  image_height := fun _ => 100;
  image_resize := fun i _ _ => Ok i;
  search_for := fun _ _ d => (d, Ok []);
|}.

Definition mark_a : RedactionRect := create "aaaaaaaa" 0 (10, 10, 50, 20)%Q "manual" "".
Definition mark_b : RedactionRect := create "bbbbbbbb" 0 (10, 30, 50, 40)%Q "manual" "".
Definition mark_c : RedactionRect := create "cccccccc" 2 (0, 0, 5, 5)%Q "search" "secret".

(** Three marks pending and no document. *)
Definition model_marked : @RedactionModel toy_engine :=
  add_redaction mark_c
    (add_redaction mark_b (add_redaction mark_a RedactionModel_init)).

(** ["good.pdf"] open, with two marks pending on its page. *)
Definition model_open : @RedactionModel toy_engine :=
  add_redaction mark_b
    (add_redaction mark_a (fst (open_document "good.pdf" RedactionModel_init))).

(** The application after opening ["good.pdf"] in a canvas 800 wide, and
    then with a pending mark on a page that the document does not have. *)
Definition app_open : @RedactorApp toy_engine :=
  fst (@_on_open toy_engine exact_arith "good.pdf" 800 RedactorApp_init).

Definition app_marked : @RedactorApp toy_engine :=
  set_model (add_redaction mark_c (model app_open)) app_open.

(** Page [p] of a document of the example engine in state [d], and the
    image of a page of a document in state [d]. *)
Definition toy_page (d p : Z) : @Page toy_engine := (d, p).
Definition toy_image (d : Z) : @Image toy_engine := d.

(** Seven requests for six pages, then one page dropped. *)
Definition calls_example : list (@RendererCall toy_engine) :=
  [call_render_page (toy_page 0 0) 0; call_render_page (toy_page 0 1) 1;
   call_render_page (toy_page 0 2) 2; call_render_page (toy_page 0 3) 3;
   call_render_page (toy_page 0 0) 0; call_render_page (toy_page 0 4) 4;
   call_render_page (toy_page 0 5) 5; call_invalidate (Some 3)].

(** A mark with an id of its own, and two marks with the same id. *)
Definition mark_d : RedactionRect := create "dddddddd" 2 (1, 1, 9, 9)%Q "manual" "".

Definition model_twins : @RedactionModel toy_engine :=
  add_redaction mark_a (add_redaction mark_a RedactionModel_init).

(** The example application showing its page, with the two marks of the page
    drawn as items 3 and 4 of the canvas, and a third mark pending on a page
    that the document does not have. *)
Definition app_shown : @RedactorApp toy_engine :=
  fst (@display_page toy_engine exact_arith 0 None 800
         (set_model (add_redaction mark_c model_open) app_open)).

(** A second engine, whose documents have three pages.  Every file opens and
    can be written; the word ["secret"] is found twice on page 0 and once on
    page 2; the state of a document is the number of redaction annotations
    made so far, and a page renders to an image that shows this number and
    the number of the page. *)
Definition hit_a : Rect := (72, 100, 130, 112)%Q.
Definition hit_b : Rect := (200, 340, 258, 352)%Q.
Definition hit_c : Rect := (72, 500, 130, 512)%Q.

Definition book_engine : Engine := {|
  Document := Z;
  Image := Z * Z;
  fitz_open := fun _ => Ok 0;
  doc_bool := fun _ => true;
  doc_len := fun _ => 3;
  doc_getitem := fun p d =>
    if (0 <=? p) && (p <? 3) then (d, Ok tt)
    else (d, Raised (EngineError "page not in document"));
  add_redact_annot := fun _ _ d => (d + 1, Ok tt);
  page_apply_redactions := fun _ d => (d, Ok tt);
  doc_scrub := fun d => (d, Ok tt);
  doc_save := fun _ d => (d, Ok tt);
  get_pixmap := fun d p =>
    if (0 <=? p) && (p <? 3) then Ok (d, p)
    else Raised (EngineError "page not in document");
  image_width := fun _ => 612;
  image_height := fun _ => 792;
  image_resize := fun i _ _ => Ok i;
  search_for := fun p text d =>
    (d, Ok (if String.eqb text "secret"
            then if p =? 0 then [hit_a; hit_b]
                 else if p =? 2 then [hit_c] else []
            else []));
|}.

(** The identifiers drawn for the marks of a search. *)
Definition fresh_ids (k : nat) : string :=
  String (Ascii.ascii_of_nat (97 + k)) "0000000".

(** The second application after opening a file in a canvas 800 wide, and
    then after a search for ["secret"]. *)
Definition book_open : @RedactorApp book_engine :=
  fst (@_on_open book_engine exact_arith "book.pdf" 800 RedactorApp_init).

Definition book_searched : @RedactorApp book_engine :=
  fst (@_on_search book_engine exact_arith "secret" fresh_ids 800 book_open).

(* ================================================================== *)
(** * Properties of the monad *)

Lemma bind_run {S A B} (c : M S A) (k : A -> M S B) (s : S) :
  bind c k s = match c s with
               | (s', Ok a) => k a s'
               | (s', Raised e) => (s', Raised e)
               end.
Proof. reflexivity. Qed.

(* ================================================================== *)
(** * Properties of dictionaries *)

Section DictFacts.
Context {V : Type}.
Implicit Types (d : PyDict.dict Z V) (k : Z) (v : V).

Lemma zget_split k v d :
  zget k d = Some v ->
  exists d1 d2, d = d1 ++ (k, v) :: d2 /\ ~ In k (PyDict.keys d1).
Proof.
  induction d as [|[k' v'] d IH]; simpl; [discriminate|].
  destruct (Z.eqb_spec k k') as [->|Hne]; intros H.
  - injection H as ->. exists [], d. simpl. tauto.
  - destruct (IH H) as (d1 & d2 & -> & Hn).
    exists ((k', v') :: d1), d2. simpl. split; [reflexivity|].
    intros [Heq|Hin]; [congruence|tauto].
Qed.

Lemma zget_app_notin k d1 d2 :
  ~ In k (PyDict.keys d1) -> zget k (d1 ++ d2) = zget k d2.
Proof.
  induction d1 as [|[k' v'] d1 IH]; simpl; [reflexivity|].
  intros Hn. destruct (Z.eqb_spec k k') as [->|Hne]; [tauto|].
  apply IH. tauto.
Qed.

Lemma zset_app_notin k v d1 d2 :
  ~ In k (PyDict.keys d1) -> zset k v (d1 ++ d2) = d1 ++ zset k v d2.
Proof.
  induction d1 as [|[k' v'] d1 IH]; simpl; [reflexivity|].
  intros Hn. destruct (Z.eqb_spec k k') as [->|Hne]; [tauto|].
  f_equal. apply IH. tauto.
Qed.

Lemma zpop_app_notin k d1 d2 :
  ~ In k (PyDict.keys d1) -> zpop k (d1 ++ d2) = d1 ++ zpop k d2.
Proof.
  induction d1 as [|[k' v'] d1 IH]; simpl; [reflexivity|].
  intros Hn. destruct (Z.eqb_spec k k') as [->|Hne]; [tauto|].
  f_equal. apply IH. tauto.
Qed.

Lemma zget_None_notin k d :
  zget k d = None <-> ~ In k (PyDict.keys d).
Proof.
  induction d as [|[k' v'] d IH]; simpl; [tauto|].
  destruct (Z.eqb_spec k k') as [->|Hne].
  - split; [discriminate|tauto].
  - rewrite IH. split; [intros H [Heq|Hin]; [congruence|tauto]|tauto].
Qed.

Lemma zget_Some_in k v d : zget k d = Some v -> In k (PyDict.keys d).
Proof.
  intros H. destruct (in_dec Z.eq_dec k (PyDict.keys d)) as [Hin|Hn]; [exact Hin|].
  apply zget_None_notin in Hn. congruence.
Qed.

Lemma zset_absent k v d : zget k d = None -> zset k v d = d ++ [(k, v)].
Proof.
  induction d as [|[k' v'] d IH]; simpl; [reflexivity|].
  destruct (Z.eqb_spec k k') as [->|Hne]; [discriminate|].
  intros H. f_equal. exact (IH H).
Qed.

Lemma zpop_absent k d : zget k d = None -> zpop k d = d.
Proof.
  induction d as [|[k' v'] d IH]; simpl; [reflexivity|].
  destruct (Z.eqb_spec k k') as [->|Hne]; [discriminate|].
  intros H. f_equal. exact (IH H).
Qed.

Lemma zset_here k v v' d : zset k v' ((k, v) :: d) = (k, v') :: d.
Proof. simpl. now rewrite Z.eqb_refl. Qed.

Lemma zpop_here k v d : zpop k ((k, v) :: d) = d.
Proof. simpl. now rewrite Z.eqb_refl. Qed.

Lemma zget_here k v d : zget k ((k, v) :: d) = Some v.
Proof. simpl. now rewrite Z.eqb_refl. Qed.

Lemma keys_app d1 d2 :
  PyDict.keys (d1 ++ d2) = PyDict.keys d1 ++ PyDict.keys d2.
Proof. apply map_app. Qed.

Lemma wf_app_inv d1 k v d2 :
  PyDict.wf (d1 ++ (k, v) :: d2) ->
  PyDict.wf (d1 ++ d2) /\ ~ In k (PyDict.keys d1) /\ ~ In k (PyDict.keys d2).
Proof.
  unfold PyDict.wf. rewrite !keys_app. simpl. intros H.
  split; [exact (NoDup_remove_1 _ _ _ H)|].
  apply NoDup_remove_2 in H. rewrite in_app_iff in H. tauto.
Qed.

Lemma wf_set k v d : PyDict.wf d -> PyDict.wf (zset k v d).
Proof.
  intros Hwf. destruct (zget k d) as [v0|] eqn:Hg.
  - destruct (zget_split _ _ _ Hg) as (d1 & d2 & -> & Hn).
    rewrite zset_app_notin, zset_here by exact Hn.
    unfold PyDict.wf in *. rewrite keys_app in *. exact Hwf.
  - rewrite zset_absent by exact Hg.
    unfold PyDict.wf in *. rewrite keys_app. simpl.
    apply NoDup_app; [exact Hwf|repeat constructor; simpl; tauto|].
    intros x Hx [<-|[]]. apply zget_None_notin in Hg. tauto.
Qed.

Lemma wf_pop k d : PyDict.wf d -> PyDict.wf (zpop k d).
Proof.
  intros Hwf. destruct (zget k d) as [v0|] eqn:Hg.
  - destruct (zget_split _ _ _ Hg) as (d1 & d2 & -> & Hn).
    rewrite zpop_app_notin, zpop_here by exact Hn.
    now apply wf_app_inv in Hwf.
  - now rewrite zpop_absent.
Qed.

Lemma zget_pop_same k d : PyDict.wf d -> zget k (zpop k d) = None.
Proof.
  intros Hwf. destruct (zget k d) as [v0|] eqn:Hg.
  - destruct (zget_split _ _ _ Hg) as (d1 & d2 & -> & Hn).
    rewrite zpop_app_notin, zpop_here by exact Hn.
    apply wf_app_inv in Hwf. apply zget_None_notin.
    rewrite keys_app, in_app_iff. tauto.
  - now rewrite zpop_absent.
Qed.

Lemma zget_pop_other k k' d : k <> k' -> zget k' (zpop k d) = zget k' d.
Proof.
  intros Hne. induction d as [|[k0 v0] d IH]; simpl; [reflexivity|].
  destruct (Z.eqb_spec k k0) as [->|Hk].
  - destruct (Z.eqb_spec k' k0); [congruence|reflexivity].
  - simpl. now rewrite IH.
Qed.

Lemma zget_set_same k v d : zget k (zset k v d) = Some v.
Proof.
  induction d as [|[k0 v0] d IH]; simpl.
  - now rewrite Z.eqb_refl.
  - destruct (Z.eqb_spec k k0) as [->|Hk]; simpl.
    + now rewrite Z.eqb_refl.
    + destruct (Z.eqb_spec k k0); [congruence|exact IH].
Qed.

Lemma zget_set_other k k' v d : k <> k' -> zget k' (zset k v d) = zget k' d.
Proof.
  intros Hne. induction d as [|[k0 v0] d IH]; simpl.
  - destruct (Z.eqb_spec k' k); [congruence|reflexivity].
  - destruct (Z.eqb_spec k k0) as [->|Hk]; simpl.
    + destruct (Z.eqb_spec k' k0); [congruence|reflexivity].
    + now rewrite IH.
Qed.

Lemma In_zget k v d : PyDict.wf d -> In (k, v) d -> zget k d = Some v.
Proof.
  intros Hwf Hin. apply in_split in Hin. destruct Hin as (d1 & d2 & ->).
  apply wf_app_inv in Hwf. rewrite zget_app_notin by tauto. apply zget_here.
Qed.
End DictFacts.

(* ================================================================== *)
(** * Properties of lists of marks *)

Lemma Rect_eqb_refl (a : Rect) : Rect_eqb a a = true.
Proof.
  destruct a as [[[a0 a1] a2] a3]. simpl. now rewrite !Qeq_bool_refl.
Qed.

Lemma RedactionRect_eqb_refl (r : RedactionRect) : RedactionRect_eqb r r = true.
Proof.
  unfold RedactionRect_eqb.
  now rewrite !String.eqb_refl, Z.eqb_refl, Rect_eqb_refl.
Qed.

Lemma RedactionRect_eqb_id (x y : RedactionRect) :
  RedactionRect_eqb x y = true -> id x = id y.
Proof.
  unfold RedactionRect_eqb. rewrite !andb_true_iff.
  intros [[[[H _] _] _] _]. now apply String.eqb_eq.
Qed.

Lemma find_id_None rid l : find_id rid l = None <-> ~ In rid (map id l).
Proof.
  induction l as [|x l IH]; simpl; [tauto|].
  destruct (String.eqb_spec (id x) rid) as [Heq|Hne].
  - split; [discriminate|tauto].
  - rewrite IH. tauto.
Qed.

(** The mark found by its id is the one that [list.remove] drops. *)
Lemma find_id_Some rid l r :
  find_id rid l = Some r ->
  exists l1 l2,
    l = l1 ++ r :: l2 /\ id r = rid /\ ~ In rid (map id l1)
    /\ list_remove r l = l1 ++ l2.
Proof.
  induction l as [|x l IH]; simpl; [discriminate|].
  destruct (String.eqb_spec (id x) rid) as [Heq|Hne]; intros H.
  - injection H as ->. exists [], l. simpl.
    rewrite RedactionRect_eqb_refl. tauto.
  - destruct (IH H) as (l1 & l2 & -> & Hid & Hn & Hrem).
    exists (x :: l1), l2. simpl. repeat split; try assumption.
    + tauto.
    + destruct (RedactionRect_eqb x r) eqn:Hx.
      * apply RedactionRect_eqb_id in Hx. congruence.
      * now rewrite Hrem.
Qed.

Lemma marks_of_app d1 d2 : marks_of (d1 ++ d2) = marks_of d1 ++ marks_of d2.
Proof. unfold marks_of, PyDict.values. now rewrite map_app, concat_app. Qed.

Lemma marks_of_cons p l d : marks_of ((p, l) :: d) = l ++ marks_of d.
Proof. reflexivity. Qed.

Lemma In_marks_of r d :
  In r (marks_of d) <-> exists p l, In (p, l) d /\ In r l.
Proof.
  induction d as [|[p l] d IH].
  - simpl. split; [tauto|]. now intros (p & l & [] & _).
  - rewrite marks_of_cons, in_app_iff, IH. split.
    + intros [H|(q & l' & H1 & H2)].
      * exists p, l. simpl. tauto.
      * exists q, l'. simpl. tauto.
    + intros (q & l' & [Heq|Hin] & H2).
      * injection Heq as -> ->. tauto.
      * right. now exists q, l'.
Qed.

(* ================================================================== *)
(** * Properties of the model *)

Section ModelFacts.
Context {E : Engine}.
Implicit Types (m : RedactionModel) (r : RedactionRect).

Lemma set_pending_same m : set_pending (pending m) m = m.
Proof. now destruct m. Qed.

Lemma redaction_count_marks m :
  redaction_count m = Z.of_nat (List.length (marks_of (pending m))).
Proof.
  unfold redaction_count. induction (pending m) as [|[p l] d IH].
  - reflexivity.
  - rewrite marks_of_cons, length_app. simpl. rewrite IH. lia.
Qed.

(** *** add_redaction *)

Lemma pending_add r m :
  pending (add_redaction r m) =
  match zget (page_num r) (pending m) with
  | Some l => zset (page_num r) (l ++ [r]) (pending m)
  | None => pending m ++ [(page_num r, [r])]
  end.
Proof.
  unfold add_redaction, PyDict.setdefault.
  destruct (zget (page_num r) (pending m)) as [l|] eqn:Hg; simpl.
  - reflexivity.
  - rewrite (zset_absent _ _ _ Hg). apply zget_None_notin in Hg.
    rewrite zset_app_notin by exact Hg. now rewrite zset_here.
Qed.

Lemma add_other_fields r m :
  doc (add_redaction r m) = doc m
  /\ file_path (add_redaction r m) = file_path m
  /\ current_page (add_redaction r m) = current_page m
  /\ is_applied (add_redaction r m) = is_applied m.
Proof.
  unfold add_redaction.
  destruct (zsetdefault (page_num r) [] (pending m)). simpl. tauto.
Qed.

Lemma wf_add r m : PyDict.wf (pending m) -> PyDict.wf (pending (add_redaction r m)).
Proof.
  intros Hwf. rewrite pending_add.
  destruct (zget (page_num r) (pending m)) as [l|] eqn:Hg.
  - now apply wf_set.
  - rewrite <- (zset_absent _ _ _ Hg). now apply wf_set.
Qed.

(** The page's list gains the mark at its end; other pages are untouched. *)
Lemma get_page_redactions_add r m p :
  get_page_redactions p (add_redaction r m) =
  if p =? page_num r then get_page_redactions p m ++ [r]
  else get_page_redactions p m.
Proof.
  unfold get_page_redactions, PyDict.get_default. rewrite pending_add.
  destruct (Z.eqb_spec p (page_num r)) as [->|Hne].
  - destruct (zget (page_num r) (pending m)) as [l|] eqn:Hg.
    + now rewrite zget_set_same.
    + apply zget_None_notin in Hg.
      rewrite zget_app_notin by exact Hg. now rewrite zget_here.
  - destruct (zget (page_num r) (pending m)) as [l|] eqn:Hg.
    + rewrite zget_set_other by congruence. reflexivity.
    + replace (zget p (pending m ++ [(page_num r, [r])])) with (zget p (pending m));
        [reflexivity|].
      rewrite <- (zset_absent _ _ _ Hg). rewrite zget_set_other by congruence.
      reflexivity.
Qed.

Lemma marks_add r m :
  exists before after,
    marks_of (pending m) = before ++ after
    /\ marks_of (pending (add_redaction r m)) = before ++ r :: after.
Proof.
  rewrite pending_add.
  destruct (zget (page_num r) (pending m)) as [l|] eqn:Hg.
  - destruct (zget_split _ _ _ Hg) as (d1 & d2 & Hd & Hn). rewrite Hd.
    rewrite zset_app_notin, zset_here by exact Hn.
    rewrite !marks_of_app, !marks_of_cons.
    exists (marks_of d1 ++ l), (marks_of d2).
    now rewrite <- !app_assoc.
  - exists (marks_of (pending m)), [].
    split; [now rewrite app_nil_r|now rewrite marks_of_app].
Qed.

(** *** remove_redaction *)

Lemma remove_scan_spec rid items :
  forall pre,
    PyDict.wf (pre ++ items) ->
    (remove_scan rid items (pre ++ items) = (None, pre ++ items)
     /\ forall q l, In (q, l) items -> find_id rid l = None)
    \/ exists i1 p l i2 r,
        items = i1 ++ (p, l) :: i2
        /\ (forall q l', In (q, l') i1 -> find_id rid l' = None)
        /\ find_id rid l = Some r
        /\ remove_scan rid items (pre ++ items) =
           (Some r,
            pre ++ i1 ++ match list_remove r l with
                         | [] => []
                         | _ :: _ => [(p, list_remove r l)]
                         end ++ i2).
Proof.
  induction items as [|[p l] items IH]; intros pre Hwf.
  - left. simpl. split; [reflexivity|tauto].
  - simpl. destruct (find_id rid l) as [r|] eqn:Hf.
    + right. exists [], p, l, items, r. simpl.
      repeat split; try tauto.
      destruct (wf_app_inv _ _ _ _ Hwf) as (_ & Hn & _).
      destruct (list_remove r l) as [|x l'].
      * rewrite zpop_app_notin, zpop_here by exact Hn. reflexivity.
      * rewrite zset_app_notin, zset_here by exact Hn. reflexivity.
    + replace (pre ++ (p, l) :: items) with ((pre ++ [(p, l)]) ++ items) in *
        by now rewrite <- app_assoc.
      destruct (IH _ Hwf) as [[Hr Hnone]|(i1 & q & l' & i2 & r & Hi & Hnone & Hfind & Hr)].
      * left. split; [exact Hr|].
        intros q l0 [Heq|Hin]; [congruence|eauto].
      * right. exists ((p, l) :: i1), q, l', i2, r.
        repeat split.
        -- now rewrite Hi.
        -- intros q0 l0 [Heq|Hin]; [congruence|eauto].
        -- exact Hfind.
        -- rewrite Hr. now rewrite <- app_assoc.
Qed.

Lemma marks_no_id rid (items : PyDict.dict Z (list RedactionRect)) :
  (forall q l, In (q, l) items -> find_id rid l = None) <->
  ~ In rid (map id (marks_of items)).
Proof.
  rewrite in_map_iff. split.
  - intros H (r & Hid & Hin). apply In_marks_of in Hin.
    destruct Hin as (p & l & Hpl & Hr).
    specialize (H _ _ Hpl). apply find_id_None in H.
    apply H, in_map_iff. eauto.
  - intros H q l Hin. apply find_id_None. rewrite in_map_iff.
    intros (r & Hid & Hr). apply H. exists r. split; [exact Hid|].
    apply In_marks_of. eauto.
Qed.

Lemma marks_of_opt p (l : list RedactionRect) :
  marks_of match l with [] => [] | _ :: _ => [(p, l)] end = l.
Proof. destruct l; [reflexivity|]. unfold marks_of. simpl. now rewrite app_nil_r. Qed.

(** What [remove_redaction] does when it finds the id: the page [p] that
    holds the first mark with this id loses that mark, and loses its key when
    the mark was its last. *)
Lemma remove_redaction_found rid m :
  PyDict.wf (pending m) ->
  In rid (map id (marks_of (pending m))) ->
  exists i1 p l1 r l2 i2,
    pending m = i1 ++ (p, l1 ++ r :: l2) :: i2
    /\ id r = rid
    /\ ~ In rid (map id (marks_of i1 ++ l1))
    /\ remove_redaction rid m =
       (Some r,
        set_pending (i1 ++ match l1 ++ l2 with
                           | [] => []
                           | _ :: _ => [(p, l1 ++ l2)]
                           end ++ i2) m).
Proof.
  intros Hwf Hin. unfold remove_redaction, PyDict.items.
  destruct (remove_scan_spec rid (pending m) [] Hwf)
    as [[_ Hnone]|(i1 & p & l & i2 & r & Hi & Hnone & Hfind & Hr)].
  - apply marks_no_id in Hnone. contradiction.
  - simpl in Hr. rewrite Hr.
    destruct (find_id_Some _ _ _ Hfind) as (l1 & l2 & -> & Hid & Hn & Hrem).
    exists i1, p, l1, r, l2, i2. rewrite Hrem in *.
    repeat split; try assumption.
    rewrite map_app, in_app_iff. apply marks_no_id in Hnone. tauto.
Qed.

Lemma remove_redaction_absent rid m :
  PyDict.wf (pending m) ->
  ~ In rid (map id (marks_of (pending m))) ->
  remove_redaction rid m = (None, m).
Proof.
  intros Hwf Hn. unfold remove_redaction, PyDict.items.
  destruct (remove_scan_spec rid (pending m) [] Hwf)
    as [[Hr _]|(i1 & p & l & i2 & r & Hi & Hnone & Hfind & Hr)].
  - simpl in Hr. rewrite Hr. now rewrite set_pending_same.
  - exfalso. apply Hn. destruct (find_id_Some _ _ _ Hfind) as (l1 & l2 & -> & Hid & _).
    rewrite Hi, marks_of_app, marks_of_cons, !map_app, !in_app_iff. simpl. tauto.
Qed.

(** *** clear_page_redactions *)

Lemma clear_page_spec p m :
  PyDict.wf (pending m) ->
  (zget p (pending m) = None /\ clear_page_redactions p m = (0, m))
  \/ exists d1 l d2,
       pending m = d1 ++ (p, l) :: d2
       /\ clear_page_redactions p m =
          (Z.of_nat (List.length l), set_pending (d1 ++ d2) m).
Proof.
  intros Hwf. unfold clear_page_redactions, PyDict.get_default.
  destruct (zget p (pending m)) as [l|] eqn:Hg.
  - right. destruct (zget_split _ _ _ Hg) as (d1 & d2 & Hd & Hn).
    exists d1, l, d2. split; [exact Hd|].
    rewrite Hd at 1. now rewrite zpop_app_notin, zpop_here.
  - left. rewrite (zpop_absent _ _ Hg), set_pending_same. tauto.
Qed.
End ModelFacts.

(* ================================================================== *)
(** * The pending set: counts, keys and order *)

Section Bookkeeping.
Context {E : Engine}.
Implicit Types (m : RedactionModel) (r : RedactionRect).

(** C4.  Bookkeeping counts of the pending set.  [add_redaction] raises
    [redaction_count] by exactly one.  [remove_redaction] of an id that a
    pending mark carries removes exactly one mark, the first one with this
    id, returns it, and lowers the count by one; of an id that no pending
    mark carries it returns [None] and leaves the model as it was.
    [clear_page_redactions p] returns the number of marks of page [p] and
    removes exactly those: [p] is no longer a key, every other page keeps
    its list.  [clear_all_redactions] returns the count there was and leaves
    the pending set empty. *)
Theorem pending_bookkeeping_counts m :
  PyDict.wf (pending m) ->
  (forall r, redaction_count (add_redaction r m) = redaction_count m + 1)
  /\ (forall rid,
        In rid (map id (marks_of (pending m))) ->
        exists r before after,
          marks_of (pending m) = before ++ r :: after
          /\ id r = rid
          /\ ~ In rid (map id before)
          /\ fst (remove_redaction rid m) = Some r
          /\ marks_of (pending (snd (remove_redaction rid m))) = before ++ after
          /\ redaction_count (snd (remove_redaction rid m))
             = redaction_count m - 1)
  /\ (forall rid,
        ~ In rid (map id (marks_of (pending m))) ->
        remove_redaction rid m = (None, m))
  /\ (forall p,
        fst (clear_page_redactions p m)
        = Z.of_nat (List.length (get_page_redactions p m))
        /\ ~ In p (PyDict.keys (pending (snd (clear_page_redactions p m))))
        /\ (forall q, q <> p ->
              zget q (pending (snd (clear_page_redactions p m)))
              = zget q (pending m))
        /\ redaction_count (snd (clear_page_redactions p m))
           = redaction_count m - fst (clear_page_redactions p m))
  /\ fst (clear_all_redactions m) = redaction_count m
  /\ pending (snd (clear_all_redactions m)) = [].
Proof.
  intros Hwf. repeat apply conj.
  - intros r. rewrite !redaction_count_marks.
    destruct (marks_add r m) as (b & a & -> & ->).
    rewrite !length_app. simpl. lia.
  - intros rid Hin.
    destruct (remove_redaction_found rid m Hwf Hin)
      as (i1 & p & l1 & r & l2 & i2 & Hd & Hid & Hn & Hr).
    exists r, (marks_of i1 ++ l1), (l2 ++ marks_of i2).
    rewrite Hr. simpl. rewrite !redaction_count_marks. simpl.
    rewrite Hd, !marks_of_app, marks_of_cons, marks_of_opt.
    rewrite <- !app_assoc. simpl. repeat split; try assumption.
    rewrite !length_app. simpl. rewrite !length_app. lia.
  - intros rid Hn. now apply remove_redaction_absent.
  - intros p.
    destruct (clear_page_spec p m Hwf) as [[Hg ->]|(d1 & l & d2 & Hd & ->)]; simpl.
    + unfold get_page_redactions, PyDict.get_default. rewrite Hg. simpl.
      repeat split; try lia. now apply zget_None_notin.
    + unfold get_page_redactions, PyDict.get_default.
      rewrite !redaction_count_marks. simpl.
      rewrite Hd in Hwf |- *. destruct (wf_app_inv _ _ _ _ Hwf) as (_ & Hn1 & Hn2).
      rewrite zget_app_notin, zget_here by exact Hn1.
      repeat split.
      * rewrite keys_app, in_app_iff. tauto.
      * intros q Hq.
        rewrite <- (zget_pop_other p q (d1 ++ (p, l) :: d2)) by congruence.
        now rewrite zpop_app_notin, zpop_here.
      * rewrite !marks_of_app, marks_of_cons, !length_app. lia.
  - reflexivity.
  - reflexivity.
Qed.
End Bookkeeping.

(* ================================================================== *)
(** * Applying, opening and closing *)

Section Lifecycle.
Context {E : Engine}.
Implicit Types (m : RedactionModel) (r : RedactionRect).

Lemma same_but_doc_refl m : same_but_doc m m.
Proof. unfold same_but_doc. tauto. Qed.

Lemma same_but_doc_trans m1 m2 m3 :
  same_but_doc m1 m2 -> same_but_doc m2 m3 -> same_but_doc m1 m3.
Proof. unfold same_but_doc. intuition congruence. Qed.

Lemma with_doc_frame {A} on_none (c : M Document A) m m' res :
  on_doc on_none c m = (m', res) -> same_but_doc m m'.
Proof.
  unfold on_doc. destruct (doc m) as [d|].
  - destruct (c d) as [d' res']. intros H. injection H as <- _.
    unfold same_but_doc. simpl. tauto.
  - intros H. injection H as <- _. apply same_but_doc_refl.
Qed.

Lemma annotate_loop page_num rects :
  forall count m m' res,
    foldM (annotate page_num) rects count m = (m', res) ->
    same_but_doc m m'
    /\ forall c, res = Ok c -> c = count + Z.of_nat (List.length rects).
Proof.
  induction rects as [|r rects IH]; intros count m m' res.
  - simpl. intros H. injection H as <- <-. split; [apply same_but_doc_refl|].
    intros c H. injection H as <-. lia.
  - cbn [foldM]. rewrite bind_run. unfold annotate at 1. rewrite bind_run.
    destruct (with_doc (add_redact_annot page_num (pdf_rect r)) m)
      as [m1 [[]|e]] eqn:H1; apply with_doc_frame in H1.
    + unfold ret at 1. intros H. destruct (IH _ _ _ _ H) as [Hs Hc]. split.
      * eapply same_but_doc_trans; eassumption.
      * intros c Hres. rewrite (Hc c Hres). cbn [List.length]. lia.
    + intros H. injection H as <- <-. split; [exact H1|discriminate].
Qed.

Lemma redact_page_step count item m m' res :
  redact_page count item m = (m', res) ->
  same_but_doc m m'
  /\ forall c, res = Ok c -> c = count + Z.of_nat (List.length (snd item)).
Proof.
  destruct item as [page_num rects]. unfold redact_page. rewrite bind_run.
  destruct (with_doc (doc_getitem page_num) m) as [m1 [[]|e]] eqn:H1;
    apply with_doc_frame in H1;
    [|intros H; injection H as <- <-; split; [exact H1|discriminate]].
  rewrite bind_run.
  destruct (foldM (annotate page_num) rects count m1) as [m2 [c2|e]] eqn:H2;
    apply annotate_loop in H2; destruct H2 as [H2 Hc];
    [|intros H; injection H as <- <-;
      split; [eapply same_but_doc_trans; eassumption|discriminate]].
  rewrite bind_run.
  destruct (with_doc (page_apply_redactions page_num) m2) as [m3 [[]|e]] eqn:H3;
    apply with_doc_frame in H3; intros H; injection H as <- <-.
  - split; [eauto using same_but_doc_trans|].
    intros c H. injection H as <-. now apply Hc.
  - split; [eauto using same_but_doc_trans|discriminate].
Qed.

Lemma redact_pages_loop items :
  forall count m m' res,
    foldM redact_page items count m = (m', res) ->
    same_but_doc m m'
    /\ forall c, res = Ok c ->
                 c = count + Z.of_nat (List.length (marks_of items)).
Proof.
  induction items as [|item items IH]; intros count m m' res.
  - simpl. intros H. injection H as <- <-. split; [apply same_but_doc_refl|].
    intros c H. injection H as <-. lia.
  - cbn [foldM]. rewrite bind_run.
    destruct (redact_page count item m) as [m1 [c1|e]] eqn:H1;
      apply redact_page_step in H1; destruct H1 as [H1 Hc1].
    + intros H. destruct (IH _ _ _ _ H) as [H2 Hc2]. split.
      * eapply same_but_doc_trans; eassumption.
      * intros c Hres. rewrite (Hc2 c Hres), (Hc1 c1 eq_refl).
        destruct item as [p l]. rewrite marks_of_cons, length_app. simpl. lia.
    + intros H. injection H as <- <-. split; [exact H1|discriminate].
Qed.

(** Both outcomes of [apply_redactions]. *)
Lemma apply_redactions_outcome m :
  match apply_redactions m with
  | (m', Ok count) =>
      pending m' = [] /\ is_applied m' = true /\ count = redaction_count m
  | (m', Raised e) =>
      pending m' = pending m /\ is_applied m' = is_applied m
  end.
Proof.
  unfold apply_redactions. rewrite bind_run. unfold gets at 1.
  rewrite bind_run. unfold PyDict.items.
  destruct (foldM redact_page (pending m) 0 m) as [m1 [c|e]] eqn:H1;
    apply redact_pages_loop in H1; destruct H1 as [Hs Hc].
  - simpl. repeat split. rewrite (Hc c eq_refl), redaction_count_marks. lia.
  - unfold same_but_doc in Hs. tauto.
Qed.

Lemma with_doc_ok {A} (c : M Document A) m d d' a :
  doc m = Some d -> c d = (d', Ok a) ->
  with_doc c m = (set_doc (Some d') m, Ok a).
Proof. intros Hd Hc. unfold with_doc, on_doc. now rewrite Hd, Hc. Qed.

Lemma annotate_loop_ok page_num rects :
  engine_accepts page_num ->
  forall count m,
    doc m <> None ->
    exists m', foldM (annotate page_num) rects count m
               = (m', Ok (count + Z.of_nat (List.length rects)))
               /\ doc m' <> None.
Proof.
  intros Hacc. induction rects as [|r rects IH]; intros count m Hd.
  - exists m. simpl. unfold ret. rewrite Z.add_0_r. tauto.
  - destruct (doc m) as [d|] eqn:Hdoc; [|congruence].
    destruct (Hacc d) as (_ & Hannot & _).
    destruct (Hannot (pdf_rect r)) as [d' Hd'].
    cbn [foldM]. rewrite bind_run. unfold annotate at 1. rewrite bind_run.
    rewrite (with_doc_ok _ _ _ _ _ Hdoc Hd'). unfold ret at 1.
    destruct (IH (count + 1) (set_doc (Some d') m)) as (m' & Hm' & Hdm');
      [simpl; discriminate|].
    exists m'. rewrite Hm'. split; [|exact Hdm'].
    do 2 f_equal. cbn [List.length]. lia.
Qed.

Lemma redact_pages_loop_ok items :
  (forall p, In p (PyDict.keys items) -> engine_accepts p) ->
  forall count m,
    doc m <> None ->
    exists m' c, foldM redact_page items count m = (m', Ok c).
Proof.
  induction items as [|[p rects] items IH]; intros Hacc count m Hd.
  - exists m, count. reflexivity.
  - assert (Hp : engine_accepts p) by (apply Hacc; simpl; tauto).
    destruct (doc m) as [d|] eqn:Hdoc; [|congruence].
    destruct (Hp d) as ((d1 & Hget) & _ & _).
    cbn [foldM]. rewrite bind_run. unfold redact_page at 1. rewrite bind_run.
    rewrite (with_doc_ok _ _ _ _ _ Hdoc Hget). rewrite bind_run.
    destruct (annotate_loop_ok p rects Hp count (set_doc (Some d1) m))
      as (m2 & -> & Hd2); [simpl; discriminate|].
    destruct (doc m2) as [d2|] eqn:Hdoc2; [|congruence].
    destruct (Hp d2) as (_ & _ & (d3 & Happly)).
    rewrite bind_run. rewrite (with_doc_ok _ _ _ _ _ Hdoc2 Happly).
    unfold ret at 1. apply IH.
    + intros q Hq. apply Hacc. simpl. tauto.
    + simpl. discriminate.
Qed.

(** With a document open and an engine that accepts the pending pages,
    [apply_redactions] returns. *)
Lemma apply_redactions_returns m :
  doc m <> None ->
  (forall p, In p (PyDict.keys (pending m)) -> engine_accepts p) ->
  exists m' count, apply_redactions m = (m', Ok count).
Proof.
  intros Hd Hacc. unfold apply_redactions. rewrite bind_run. unfold gets at 1.
  rewrite bind_run. unfold PyDict.items.
  destruct (redact_pages_loop_ok (pending m) Hacc 0 m Hd) as (m1 & c & ->).
  do 2 eexists. reflexivity.
Qed.

(** C1, amended.  When a document is open and the engine accepts the
    redaction of every pending page, [apply_redactions] returns the number
    of marks that were pending, and leaves the pending set empty and
    [is_applied] set.  Whenever it returns, that is the outcome; when it
    raises instead, the pending set and [is_applied] are as they were. *)
Theorem apply_redactions_empties_pending m :
  (doc m <> None ->
   (forall p, In p (PyDict.keys (pending m)) -> engine_accepts p) ->
   exists m', apply_redactions m = (m', Ok (redaction_count m))
              /\ pending m' = [] /\ is_applied m' = true)
  /\ match apply_redactions m with
     | (m', Ok count) =>
         pending m' = [] /\ is_applied m' = true /\ count = redaction_count m
     | (m', Raised e) =>
         pending m' = pending m /\ is_applied m' = is_applied m
     end.
Proof.
  split; [|apply apply_redactions_outcome].
  intros Hd Hacc.
  destruct (apply_redactions_returns m Hd Hacc) as (m' & count & Hr).
  pose proof (apply_redactions_outcome m) as Ho. rewrite Hr in Ho.
  destruct Ho as (Hp & Ha & ->). eauto.
Qed.

(** C10.  Opening is not atomic.  When the engine fails to open [path],
    [open_document] raises the engine's exception and leaves the model as
    [close_document] leaves it: no document, no path, page 0, no pending
    mark, not applied; what was open and pending before is lost. *)
Theorem open_document_failure_loses_state m path e :
  fitz_open path = Raised e ->
  open_document path m = (fst (close_document m), Raised e)
  /\ doc (fst (open_document path m)) = None
  /\ file_path (fst (open_document path m)) = None
  /\ current_page (fst (open_document path m)) = 0
  /\ pending (fst (open_document path m)) = []
  /\ is_applied (fst (open_document path m)) = false.
Proof.
  intros Hopen. unfold open_document, close_document.
  rewrite !bind_run. unfold modify at 1. rewrite Hopen. simpl. tauto.
Qed.
End Lifecycle.

(* ================================================================== *)
(** * No page is left with an empty list *)

Section Invariant.
Context {E : Engine}.
Implicit Types (m : RedactionModel) (r : RedactionRect).

Lemma zget_In {V} k (v : V) d : zget k d = Some v -> In (k, v) d.
Proof.
  intros H. destruct (zget_split _ _ _ H) as (d1 & d2 & -> & _).
  apply in_elt.
Qed.

Lemma pending_add_set r m :
  pending (add_redaction r m) =
  zset (page_num r) (get_page_redactions (page_num r) m ++ [r]) (pending m).
Proof.
  rewrite pending_add. unfold get_page_redactions, PyDict.get_default.
  destruct (zget (page_num r) (pending m)) eqn:Hg; [reflexivity|].
  now rewrite (zset_absent _ _ _ Hg).
Qed.

Lemma lists_nonempty_add r m :
  lists_nonempty (pending m) -> lists_nonempty (pending (add_redaction r m)).
Proof.
  intros Hne p l. rewrite pending_add_set.
  destruct (Z.eq_dec (page_num r) p) as [<-|Hp].
  - rewrite zget_set_same. intros H. injection H as <-.
    now destruct (get_page_redactions (page_num r) m).
  - rewrite zget_set_other by exact Hp. apply Hne.
Qed.

Lemma lists_nonempty_remove rid m :
  PyDict.wf (pending m) ->
  lists_nonempty (pending m) ->
  lists_nonempty (pending (snd (remove_redaction rid m))).
Proof.
  intros Hwf Hne.
  destruct (in_dec string_dec rid (map id (marks_of (pending m)))) as [Hin|Hn].
  - destruct (remove_redaction_found rid m Hwf Hin)
      as (i1 & p & l1 & r & l2 & i2 & Hd & _ & _ & ->).
    simpl. intros q l Hq. apply zget_In in Hq.
    assert (Hold : forall q l, In (q, l) (pending m) -> l <> []).
    { intros q0 l0 H0. apply (Hne q0). now apply In_zget. }
    rewrite Hd in Hold. rewrite !in_app_iff in Hq.
    destruct Hq as [Hq|[Hq|Hq]].
    + apply (Hold q). rewrite in_app_iff. tauto.
    + destruct (l1 ++ l2) as [|x l0]; [destruct Hq|].
      destruct Hq as [Hq|[]]. injection Hq as _ <-. discriminate.
    + apply (Hold q). rewrite in_app_iff. simpl. tauto.
  - now rewrite (remove_redaction_absent rid m Hwf Hn).
Qed.

Lemma lists_nonempty_clear_page p m :
  PyDict.wf (pending m) ->
  lists_nonempty (pending m) ->
  lists_nonempty (pending (snd (clear_page_redactions p m))).
Proof.
  intros Hwf Hne q l. simpl. destruct (Z.eq_dec p q) as [<-|Hq].
  - now rewrite zget_pop_same.
  - rewrite zget_pop_other by exact Hq. apply Hne.
Qed.

Lemma lists_nonempty_apply m :
  lists_nonempty (pending m) ->
  lists_nonempty (pending (fst (apply_redactions m))).
Proof.
  intros Hne. pose proof (apply_redactions_outcome m) as Ho.
  destruct (apply_redactions m) as [m' [c|e]]; simpl.
  - destruct Ho as (-> & _). intros q l. discriminate.
  - destruct Ho as (-> & _). exact Hne.
Qed.

End Invariant.

(* ================================================================== *)
(** * The order of [all_redactions] *)

Section Order.
Context {E : Engine}.
Implicit Types (m : RedactionModel) (r : RedactionRect).

Lemma sorted_perm (l : list Z) : Permutation l (sorted l).
Proof. apply ZSort.Permuted_sort. Qed.

Lemma sorted_ascending (l : list Z) : StronglySorted Z.le (sorted l).
Proof.
  assert (H : StronglySorted (fun x y => is_true (ZOrder.leb x y)) (sorted l)).
  { apply ZSort.StronglySorted_sort. intros x y z. unfold ZOrder.leb, is_true. lia. }
  induction H as [|x l' _ IH Hall]; constructor; [exact IH|].
  eapply Forall_impl; [|exact Hall]. intros y. unfold ZOrder.leb, is_true. lia.
Qed.

(** The lists of the keys of a dict, in the order of the dict, are its
    values. *)
Lemma flat_map_keys (d : PyDict.dict Z (list RedactionRect)) :
  PyDict.wf d ->
  flat_map (fun p => PyDict.get_default Z.eqb p [] d) (PyDict.keys d)
  = marks_of d.
Proof.
  unfold PyDict.get_default.
  induction d as [|[k v] d IH]; intros Hwf; [reflexivity|].
  inversion Hwf as [|k' ks Hk Hnd]; subst.
  cbn [PyDict.keys map fst flat_map]. rewrite zget_here, marks_of_cons.
  f_equal. rewrite <- (IH Hnd). rewrite !flat_map_concat_map. f_equal.
  apply map_ext_in. intros q Hq. simpl.
  destruct (Z.eqb_spec q k) as [->|_]; [contradiction|reflexivity].
Qed.

Lemma filed_by_page_add r m :
  filed_by_page (pending m) -> filed_by_page (pending (add_redaction r m)).
Proof.
  intros Hf p l x. rewrite pending_add_set.
  destruct (Z.eq_dec (page_num r) p) as [<-|Hp].
  - rewrite zget_set_same. intros H. injection H as <-.
    rewrite in_app_iff. simpl. intros [Hx|[<-|[]]]; [|reflexivity].
    unfold get_page_redactions, PyDict.get_default in Hx.
    destruct (zget (page_num r) (pending m)) as [l|] eqn:Hg; [|destruct Hx].
    exact (Hf _ _ _ Hg Hx).
  - rewrite zget_set_other by exact Hp. apply Hf.
Qed.

(** Marks added in turn go to the end of the list of their page. *)
Lemma get_page_redactions_adds rs :
  forall m p,
    get_page_redactions p (fold_left (fun m r => add_redaction r m) rs m)
    = get_page_redactions p m ++ filter (fun r => page_num r =? p) rs.
Proof.
  induction rs as [|r rs IH]; intros m p; simpl.
  - now rewrite app_nil_r.
  - rewrite IH, get_page_redactions_add. rewrite (Z.eqb_sym p).
    destruct (page_num r =? p); [now rewrite <- app_assoc|reflexivity].
Qed.

Lemma invariants_adds rs :
  forall m,
    PyDict.wf (pending m) -> filed_by_page (pending m) ->
    PyDict.wf (pending (fold_left (fun m r => add_redaction r m) rs m))
    /\ filed_by_page (pending (fold_left (fun m r => add_redaction r m) rs m)).
Proof.
  induction rs as [|r rs IH]; intros m Hwf Hf; simpl; [tauto|].
  apply IH; [now apply wf_add|now apply filed_by_page_add].
Qed.

(** Lists filed by page, concatenated over ascending pages. *)
Lemma by_page_sorted (f : Z -> list RedactionRect) (ks : list Z) :
  (forall k r, In r (f k) -> page_num r = k) ->
  StronglySorted Z.le ks ->
  StronglySorted (fun a b => page_num a <= page_num b) (flat_map f ks).
Proof.
  intros Hf Hs. induction Hs as [|k ks _ IH Hall]; simpl; [constructor|].
  assert (Hk : Forall (fun b => k <= page_num b) (flat_map f ks)).
  { apply Forall_forall. intros b Hb. apply in_flat_map in Hb.
    destruct Hb as (q & Hq & Hb). rewrite (Hf _ _ Hb).
    rewrite Forall_forall in Hall. now apply Hall. }
  pose proof (Hf k) as Hfk. induction (f k) as [|a l IHl]; simpl; [exact IH|].
  constructor.
  - apply IHl. intros r Hr. apply Hfk. now right.
  - apply Forall_app. split.
    + apply Forall_forall. intros b Hb.
      rewrite (Hfk a), (Hfk b); simpl; try tauto. lia.
    + rewrite (Hfk a) by now left. exact Hk.
Qed.

Lemma by_page_filter (f : Z -> list RedactionRect) (ks : list Z) p :
  (forall k r, In r (f k) -> page_num r = k) ->
  NoDup ks ->
  filter (fun r => page_num r =? p) (flat_map f ks)
  = if in_dec Z.eq_dec p ks then f p else [].
Proof.
  intros Hf Hnd.
  assert (Hsame : forall k, filter (fun r => page_num r =? p) (f k)
                            = if k =? p then f k else []).
  { intros k. pose proof (Hf k) as Hfk.
    induction (f k) as [|a l IHl]; simpl; [now destruct (k =? p)|].
    rewrite IHl by (intros r Hr; apply Hfk; now right).
    rewrite (Hfk a) by now left. now destruct (k =? p). }
  induction Hnd as [|k ks Hk Hnd IH]; simpl; [reflexivity|].
  rewrite filter_app, IH, Hsame.
  destruct (Z.eqb_spec k p) as [->|Hne].
  - destruct (Z.eq_dec p p); [|congruence].
    destruct (in_dec Z.eq_dec p ks); [contradiction|apply app_nil_r].
  - destruct (Z.eq_dec k p); [congruence|].
    now destruct (in_dec Z.eq_dec p ks).
Qed.

Lemma filed_get_default (d : PyDict.dict Z (list RedactionRect)) :
  filed_by_page d ->
  forall k r, In r (PyDict.get_default Z.eqb k [] d) -> page_num r = k.
Proof.
  intros Hf k r. unfold PyDict.get_default.
  destruct (zget k d) as [l|] eqn:Hg; [apply (Hf _ _ _ Hg)|intros []].
Qed.

(** C5.  [all_redactions] returns exactly the pending marks (a permutation
    of the marks held by the dict), by ascending page number, and the marks
    of each page in the order of the page's list, which is the order in
    which they were added: marks added afterwards come, page by page, after
    the marks already there and in the order of their addition. *)
Theorem all_redactions_ordered m :
  PyDict.wf (pending m) ->
  filed_by_page (pending m) ->
  Permutation (all_redactions m) (marks_of (pending m))
  /\ StronglySorted (fun a b => page_num a <= page_num b) (all_redactions m)
  /\ (forall p, filter (fun r => page_num r =? p) (all_redactions m)
                = get_page_redactions p m)
  /\ (forall rs p,
        filter (fun r => page_num r =? p)
               (all_redactions (fold_left (fun m r => add_redaction r m) rs m))
        = get_page_redactions p m ++ filter (fun r => page_num r =? p) rs).
Proof.
  assert (Hpage : forall m', PyDict.wf (pending m') -> filed_by_page (pending m') ->
            forall p, filter (fun r => page_num r =? p) (all_redactions m')
                      = get_page_redactions p m').
  { intros m' Hwf Hf p. unfold all_redactions.
    rewrite (by_page_filter _ _ p (filed_get_default _ Hf)).
    - destruct (in_dec Z.eq_dec p (sorted (PyDict.keys (pending m')))) as [Hin|Hn];
        [reflexivity|].
      unfold get_page_redactions, PyDict.get_default.
      destruct (zget p (pending m')) as [l|] eqn:Hg; [|reflexivity].
      exfalso. apply Hn. apply (Permutation_in _ (sorted_perm _)).
      now apply zget_Some_in in Hg.
    - apply (Permutation_NoDup (sorted_perm _)). exact Hwf. }
  intros Hwf Hf. repeat apply conj.
  - unfold all_redactions. rewrite <- (flat_map_keys _ Hwf).
    apply Permutation_flat_map. symmetry. apply sorted_perm.
  - unfold all_redactions. apply by_page_sorted.
    + now apply filed_get_default.
    + apply sorted_ascending.
  - now apply Hpage.
  - intros rs p. destruct (invariants_adds rs m Hwf Hf) as [Hwf' Hf'].
    rewrite (Hpage _ Hwf' Hf'). apply get_page_redactions_adds.
Qed.
End Order.

(* ================================================================== *)
(** * The page-image cache *)

Lemma StronglySorted_app_iff {A} (R : A -> A -> Prop) (l1 l2 : list A) :
  StronglySorted R (l1 ++ l2) <->
  StronglySorted R l1 /\ StronglySorted R l2
  /\ forall a b, In a l1 -> In b l2 -> R a b.
Proof.
  induction l1 as [|x l1 IH]; simpl.
  - split; [intros H; repeat split; [constructor|exact H|tauto]|tauto].
  - split.
    + intros H. inversion H as [|? ? Hs Hall]; subst.
      apply IH in Hs. destruct Hs as (H1 & H2 & H12).
      rewrite Forall_app in Hall. destruct Hall as [Ha1 Ha2].
      repeat split; [now constructor|exact H2|].
      intros a b [<-|Ha] Hb; [|now apply H12].
      rewrite Forall_forall in Ha2. now apply Ha2.
    + intros (H1 & H2 & H12). inversion H1 as [|? ? Hs Hall]; subst.
      constructor.
      * apply IH. repeat split; [exact Hs|exact H2|]. intros a b Ha Hb.
        apply H12; tauto.
      * apply Forall_app. split; [exact Hall|].
        apply Forall_forall. intros b Hb. apply H12; tauto.
Qed.

Lemma StronglySorted_impl_in {A} (R R' : A -> A -> Prop) (l : list A) :
  (forall a b, In a l -> In b l -> R a b -> R' a b) ->
  StronglySorted R l -> StronglySorted R' l.
Proof.
  intros Himp H. induction H as [|x l _ IH Hall]; constructor.
  - apply IH. intros a b Ha Hb. apply Himp; now right.
  - rewrite Forall_forall in *. intros b Hb.
    apply Himp; [now left|now right|now apply Hall].
Qed.

Section Cache.
Context {E : Engine}.
Implicit Types (r : PDFRenderer) (calls : list RendererCall).

Lemma render_page_hit (page : Page) p r img :
  PyDict.wf (_cache r) ->
  zget p (_cache r) = Some img ->
  render_page page p r
  = (mkPDFRenderer (zpop p (_cache r) ++ [(p, img)]), Ok img).
Proof.
  intros Hwf Hg. unfold render_page. rewrite bind_run. unfold gets at 1.
  unfold PyDict.contains. rewrite Hg. rewrite bind_run. unfold modify at 1.
  unfold PyDict.move_to_end. rewrite Hg. unfold cache_getitem. simpl.
  pose proof (zget_pop_same p _ Hwf) as Hn. apply zget_None_notin in Hn.
  rewrite zget_app_notin by exact Hn. now rewrite zget_here.
Qed.

Lemma render_page_miss (page : Page) p r :
  zget p (_cache r) = None ->
  render_page page p r
  = match get_pixmap (fst page) (snd page) with
    | Ok img =>
        (mkPDFRenderer
           (if (CACHE_LIMIT <? List.length (_cache r ++ [(p, img)]))%nat
            then tl (_cache r ++ [(p, img)])
            else _cache r ++ [(p, img)]),
         Ok img)
    | Raised e => (r, Raised e)
    end.
Proof.
  intros Hg. unfold render_page. rewrite bind_run. unfold gets at 1.
  unfold PyDict.contains. rewrite Hg. rewrite bind_run.
  destruct (get_pixmap (fst page) (snd page)) as [img|e]; [|reflexivity].
  cbv [bind modify ret]. cbn [_cache]. rewrite (zset_absent _ _ _ Hg).
  destruct (CACHE_LIMIT <? List.length (_cache r ++ [(p, img)]))%nat;
    reflexivity.
Qed.

Lemma last_request_snoc calls c :
  forall i p,
    last_request i p (calls ++ [c])
    = if requests p c then Some (i + List.length calls)%nat
      else last_request i p calls.
Proof.
  induction calls as [|c0 calls IH]; intros i p; simpl.
  - rewrite Nat.add_0_r. now destruct (requests p c).
  - rewrite IH. destruct (requests p c); [f_equal; lia|reflexivity].
Qed.

Lemma last_request_bound calls :
  forall i p j, last_request i p calls = Some j ->
                (i <= j < i + List.length calls)%nat.
Proof.
  induction calls as [|c calls IH]; intros i p j; simpl; [discriminate|].
  destruct (last_request (S i) p calls) as [j'|] eqn:Hl.
  - intros H. injection H as <-. apply IH in Hl. lia.
  - destruct (requests p c); [|discriminate].
    intros H. injection H as <-. lia.
Qed.

(** Dropping an entry keeps the invariant. *)
Lemma cache_inv_drop calls d1 x d2 :
  cache_inv calls (d1 ++ x :: d2) -> cache_inv calls (d1 ++ d2).
Proof.
  intros (Hwf & Hlen & Hdef & Hs). destruct x as [k0 v0].
  repeat split.
  - now apply wf_app_inv in Hwf.
  - rewrite length_app in *. simpl in Hlen. lia.
  - intros k Hk. apply Hdef. revert Hk.
    rewrite !keys_app, !in_app_iff. simpl. tauto.
  - rewrite keys_app in *. simpl in Hs.
    apply StronglySorted_app_iff in Hs. destruct Hs as (H1 & H2 & H12).
    inversion H2; subst. apply StronglySorted_app_iff.
    repeat split; try assumption. intros a b Ha Hb. apply H12; simpl; tauto.
Qed.

Lemma cache_inv_drop_length calls d1 x d2 :
  cache_inv calls (d1 ++ x :: d2) -> (List.length (d1 ++ d2) < CACHE_LIMIT)%nat.
Proof.
  intros (_ & Hlen & _). rewrite length_app in *. simpl in Hlen. lia.
Qed.

Lemma cache_inv_same calls c d :
  (forall k, In k (PyDict.keys d) -> requests k c = false) ->
  cache_inv calls d -> cache_inv (calls ++ [c]) d.
Proof.
  intros Hreq (Hwf & Hlen & Hdef & Hs). repeat split; try assumption.
  - intros k Hk. rewrite last_request_snoc, (Hreq k Hk). auto.
  - apply (StronglySorted_impl_in (older calls)); [|exact Hs].
    intros a b Ha Hb. unfold older.
    now rewrite !last_request_snoc, (Hreq a Ha), (Hreq b Hb).
Qed.

(** A request for [p] after which [p] is the last entry. *)
Lemma cache_inv_push calls page p d img :
  ~ In p (PyDict.keys d) ->
  (List.length d < CACHE_LIMIT)%nat ->
  cache_inv calls d ->
  cache_inv (calls ++ [call_render_page page p]) (d ++ [(p, img)]).
Proof.
  intros Hn Hlt (Hwf & Hlen & Hdef & Hs).
  assert (Hreq : forall k, In k (PyDict.keys d) ->
                           requests k (call_render_page page p) = false).
  { intros k Hk. simpl. destruct (Z.eqb_spec p k); [congruence|reflexivity]. }
  repeat split.
  - unfold PyDict.wf. rewrite keys_app. simpl.
    apply NoDup_app; [exact Hwf|repeat constructor; simpl; tauto|].
    intros x Hx [<-|[]]. contradiction.
  - rewrite length_app. simpl. lia.
  - intros k. rewrite keys_app, in_app_iff, last_request_snoc. simpl.
    intros [Hk|[<-|[]]].
    + destruct (p =? k); [discriminate|auto].
    + now rewrite Z.eqb_refl.
  - rewrite keys_app. apply StronglySorted_app_iff. repeat split.
    + apply (StronglySorted_impl_in (older calls)); [|exact Hs].
      intros a b Ha Hb. unfold older.
      now rewrite !last_request_snoc, (Hreq a Ha), (Hreq b Hb).
    + repeat constructor.
    + intros a b Ha [<-|[]]. unfold older.
      rewrite !last_request_snoc, (Hreq a Ha). simpl. rewrite Z.eqb_refl.
      destruct (last_request 0 a calls) as [i|] eqn:Hl.
      * apply last_request_bound in Hl. lia.
      * now apply Hdef in Ha.
Qed.

Lemma renderer_after_snoc calls c :
  renderer_after (calls ++ [c]) = renderer_step c (renderer_after calls).
Proof. unfold renderer_after. now rewrite fold_left_app. Qed.

Lemma cache_inv_after calls : cache_inv calls (_cache (renderer_after calls)).
Proof.
  induction calls as [|c calls IH] using rev_ind.
  - repeat split; simpl; try constructor; try lia; try (now intros k []).
  - rewrite renderer_after_snoc. set (r := renderer_after calls) in *.
    destruct c as [page p|[p|]]; simpl.
    + destruct (zget p (_cache r)) as [img|] eqn:Hg.
      * rewrite (render_page_hit page p r img (proj1 IH) Hg). simpl.
        destruct (zget_split _ _ _ Hg) as (d1 & d2 & Hd & Hn).
        rewrite Hd in IH |- *. rewrite zpop_app_notin, zpop_here by exact Hn.
        apply cache_inv_push.
        -- destruct IH as (Hwf & _). apply wf_app_inv in Hwf.
           rewrite keys_app, in_app_iff. tauto.
        -- now apply cache_inv_drop_length in IH.
        -- now apply cache_inv_drop in IH.
      * rewrite (render_page_miss page p r Hg).
        assert (Hn : ~ In p (PyDict.keys (_cache r))) by now apply zget_None_notin.
        destruct (get_pixmap (fst page) (snd page)) as [img|e]; simpl.
        -- rewrite length_app. simpl.
           destruct (Nat.ltb_spec CACHE_LIMIT (List.length (_cache r) + 1)) as [Hfull|Hroom].
           ++ destruct (_cache r) as [|x d] eqn:Hc; [simpl in Hfull; unfold CACHE_LIMIT in Hfull; lia|].
              simpl. apply cache_inv_push.
              ** simpl in Hn. tauto.
              ** apply (cache_inv_drop_length calls [] x d IH).
              ** apply (cache_inv_drop calls [] x d IH).
           ++ apply cache_inv_push; [exact Hn|lia|exact IH].
        -- apply cache_inv_same; [|exact IH].
           intros k Hk. simpl. destruct (Z.eqb_spec p k); [congruence|reflexivity].
    + destruct (zget p (_cache r)) as [img|] eqn:Hg.
      * destruct (zget_split _ _ _ Hg) as (d1 & d2 & Hd & Hn).
        rewrite Hd in IH |- *. rewrite zpop_app_notin, zpop_here by exact Hn.
        apply cache_inv_same; [reflexivity|]. now apply cache_inv_drop in IH.
      * rewrite (zpop_absent _ _ Hg). apply cache_inv_same; [reflexivity|exact IH].
    + repeat split; simpl; try constructor; try lia; try (now intros k []).
Qed.

(** C7.  The page-image cache is a bounded LRU.  After any sequence of
    [render_page] and [invalidate] calls, some of which may have raised, the
    cache holds at most [CACHE_LIMIT] entries, and they are in the order in
    which their pages were last requested, the least recently used first.
    In that state [render_page] on a cached page number returns the cached
    image, whatever page object it is given (the engine is not asked), and
    moves the entry to the last place; on a page that is not cached and
    that the engine renders, the new entry goes last and, when the cache
    was full, the first entry is dropped. *)
Theorem cache_is_bounded_lru calls :
  let r := renderer_after calls in
  (List.length (_cache r) <= CACHE_LIMIT)%nat
  /\ StronglySorted (older calls) (PyDict.keys (_cache r))
  /\ (forall page p img,
        zget p (_cache r) = Some img ->
        render_page page p r
        = (mkPDFRenderer (zpop p (_cache r) ++ [(p, img)]), Ok img))
  /\ (forall page p img,
        zget p (_cache r) = None ->
        get_pixmap (fst page) (snd page) = Ok img ->
        render_page page p r
        = (mkPDFRenderer
             (if (List.length (_cache r) <? CACHE_LIMIT)%nat
              then _cache r ++ [(p, img)]
              else tl (_cache r) ++ [(p, img)]),
           Ok img)).
Proof.
  intros r. destruct (cache_inv_after calls) as (Hwf & Hlen & Hdef & Hs).
  fold r in Hwf, Hlen, Hdef, Hs. repeat split; try assumption.
  - intros page p img Hg. now apply render_page_hit.
  - intros page p img Hg Hpix. rewrite (render_page_miss page p r Hg), Hpix.
    rewrite length_app. simpl. do 2 f_equal.
    destruct (Nat.ltb_spec CACHE_LIMIT (List.length (_cache r) + 1));
      destruct (Nat.ltb_spec (List.length (_cache r)) CACHE_LIMIT); try lia.
    + destruct (_cache r); [simpl in *; unfold CACHE_LIMIT in *; lia|reflexivity].
    + reflexivity.
Qed.
End Cache.

(* ================================================================== *)
(** * Coordinates *)

Section Coordinates.
Context {E : Engine}.
Variable F : Float64.
Variable eps : Q.
Hypothesis rounding : rounds_within F eps.

Local Open Scope Q_scope.

Lemma eps_nonneg : 0 <= eps.
Proof.
  pose proof (rounding 1) as H. pose proof (Qabs_nonneg (rnd 1 - 1)) as H0.
  change (Qabs 1) with 1 in H. lra.
Qed.

(** Dividing by a scale and multiplying by it again, each time rounded. *)
Lemma scale_round_trip (s x : Q) :
  ~ s == 0 ->
  Qabs (rnd (rnd (x / s) * s) - x) <= (2 * eps + eps * eps) * Qabs x.
Proof.
  intros Hs. pose proof eps_nonneg as He.
  set (a := rnd (x / s)). set (b := rnd (a * s)).
  pose proof (rounding (x / s)) as H1. fold a in H1.
  pose proof (rounding (a * s)) as H2. fold b in H2.
  assert (Hx : Qabs (x / s) * Qabs s == Qabs x).
  { rewrite <- Qabs_Qmult. apply Qabs_wd. field. exact Hs. }
  assert (Hmid : Qabs (a * s - x) <= eps * Qabs x).
  { assert (Heq : a * s - x == (a - x / s) * s) by (field; exact Hs).
    rewrite Heq, Qabs_Qmult, <- Hx.
    pose proof (Qabs_nonneg s). nra. }
  assert (Has : Qabs (a * s) <= Qabs x + eps * Qabs x).
  { assert (Heq : a * s == (a * s - x) + x) by ring.
    rewrite Heq at 1. pose proof (Qabs_triangle (a * s - x) x). lra. }
  assert (Heq : b - x == (b - a * s) + (a * s - x)) by ring.
  rewrite Heq. pose proof (Qabs_triangle (b - a * s) (a * s - x)) as Ht.
  pose proof (Qabs_nonneg x). nra.
Qed.

End Coordinates.

(* ================================================================== *)
(** * What the methods leave alone *)

Section Keeps.
Context {S X : Type} (proj : S -> X).

Lemma keeps_ret {A} (x : A) : keeps proj (ret x).
Proof. intros s. reflexivity. Qed.

Lemma keeps_raise {A} e : keeps proj (@raise S A e).
Proof. intros s. reflexivity. Qed.

Lemma keeps_gets {A} (f : S -> A) : keeps proj (gets f).
Proof. intros s. reflexivity. Qed.

Lemma keeps_lift {A} (x : Result A) : keeps proj (fun s : S => (s, x)).
Proof. intros s. reflexivity. Qed.

Lemma keeps_bind {A B} (c : M S A) (k : A -> M S B) :
  keeps proj c -> (forall x, keeps proj (k x)) -> keeps proj (bind c k).
Proof.
  intros Hc Hk s. rewrite bind_run. specialize (Hc s).
  destruct (c s) as [s1 [x|e]]; simpl in Hc.
  - now rewrite (Hk x s1).
  - exact Hc.
Qed.

Lemma keeps_try_except {A} (c : M S A) h :
  keeps proj c -> (forall e, keeps proj (h e)) ->
  keeps proj (try_except c h).
Proof.
  intros Hc Hh s. unfold try_except. specialize (Hc s).
  destruct (c s) as [s1 [x|e]]; simpl in Hc.
  - exact Hc.
  - now rewrite (Hh e s1).
Qed.

Lemma keeps_foldM {A B} (body : B -> A -> M S B) l :
  (forall acc x, keeps proj (body acc x)) ->
  forall acc, keeps proj (foldM body l acc).
Proof.
  intros Hb. induction l as [|x l IH]; intros acc; simpl.
  - apply keeps_ret.
  - apply keeps_bind; [apply Hb|exact IH].
Qed.
End Keeps.

Section Frame.
Context {E : Engine} {F : Float64}.

Lemma keeps_on_doc {A} on_none (c : M Document A) :
  keeps pending (on_doc on_none c).
Proof.
  intros m. destruct (on_doc on_none c m) as [m' res] eqn:H.
  apply with_doc_frame in H. unfold same_but_doc in H. simpl. tauto.
Qed.

Lemma keeps_with_doc {A} (c : M Document A) : keeps pending (with_doc c).
Proof. apply keeps_on_doc. Qed.

Lemma keeps_with_doc_method {A} (c : M Document A) :
  keeps pending (with_doc_method c).
Proof. apply keeps_on_doc. Qed.

Lemma keeps_on_canvas f : keeps app_pending (on_canvas f).
Proof. intros a. reflexivity. Qed.

Lemma keeps_on_controller f : keeps app_pending (on_controller f).
Proof. intros a. reflexivity. Qed.

Lemma keeps_on_renderer f : keeps app_pending (on_renderer f).
Proof. intros a. reflexivity. Qed.

Lemma keeps_set_tree t : keeps app_pending (modify (set_tree t)).
Proof. intros a. reflexivity. Qed.

Lemma keeps_log ev : keeps app_pending (modify (log ev)).
Proof. intros a. reflexivity. Qed.

Lemma keeps_create_item coords tags :
  keeps app_pending (create_item coords tags).
Proof.
  intros a. unfold create_item. now destruct (canvas_create coords tags (canvas a)).
Qed.

Lemma keeps_unpack_draw_start : keeps app_pending unpack_draw_start.
Proof.
  intros a. unfold unpack_draw_start. now destruct (_draw_start (controller a)).
Qed.

Lemma keeps_tree_insert iid : keeps app_pending (tree_insert iid).
Proof.
  intros a. unfold tree_insert. now destruct (existsb (String.eqb iid) (tree a)).
Qed.

Lemma keeps_true_div x y : keeps app_pending (true_div x y).
Proof. intros a. unfold true_div. now destruct (y =? 0). Qed.

(** A method of the model that keeps the pending set, run by the
    application. *)
Lemma keeps_zoom_model {A} (c : M RedactionModel A) :
  keeps pending c -> keeps app_pending (zoom model set_model c).
Proof.
  intros Hc a. unfold zoom, app_pending. specialize (Hc (model a)).
  now destruct (c (model a)).
Qed.

Lemma keeps_zoom_renderer {A} (c : M PDFRenderer A) :
  keeps app_pending (zoom renderer set_renderer c).
Proof. intros a. unfold zoom. now destruct (c (renderer a)). Qed.
End Frame.

Create HintDb frame.

#[export] Hint Resolve keeps_ret keeps_raise keeps_gets keeps_lift
  keeps_with_doc keeps_with_doc_method keeps_on_canvas keeps_on_controller keeps_on_renderer
  keeps_set_tree keeps_log keeps_create_item keeps_unpack_draw_start
  keeps_tree_insert keeps_true_div keeps_zoom_renderer : frame.

(** Splits a method into its steps and frames each of them. *)
Ltac frame_steps :=
  repeat first
    [ apply keeps_bind; [|intros ?]
    | apply keeps_try_except; [|intros ?]
    | apply keeps_foldM; intros ? ?
    | apply keeps_zoom_model
    | match goal with
      | |- keeps _ (if ?b then _ else _) => destruct b
      | |- keeps _ (match ?x with _ => _ end) => destruct x
      end
    | solve [auto with frame] ].

Section FrameHandlers.
Context {E : Engine} {F : Float64}.

Lemma keeps_get_page p : keeps pending (get_page p).
Proof. unfold get_page. frame_steps. Qed.

Lemma keeps_search_text text : keeps pending (search_text text).
Proof. unfold search_text. frame_steps. Qed.

Lemma keeps_save_document path : keeps pending (save_document path).
Proof. unfold save_document. frame_steps. Qed.

Lemma keeps_draw_overlay r : keeps app_pending (_draw_overlay r).
Proof.
  unfold _draw_overlay. apply keeps_bind; [auto with frame|intros c].
  destruct (pdf_rect r) as [[[r0 r1] r2] r3].
  destruct (pdf_to_canvas c r0 r1), (pdf_to_canvas c r2 r3). frame_steps.
Qed.

Lemma keeps_draw_all_overlays p : keeps app_pending (draw_all_overlays p).
Proof.
  unfold draw_all_overlays. apply keeps_bind; [auto with frame|intros rects].
  apply keeps_foldM. intros acc r.
  apply keeps_bind; [apply keeps_draw_overlay|auto with frame].
Qed.

Lemma keeps_update_redaction_list : keeps app_pending _update_redaction_list.
Proof. unfold _update_redaction_list. frame_steps. Qed.

Lemma keeps_on_press cx cy : keeps app_pending (_on_press cx cy).
Proof. unfold _on_press. frame_steps. Qed.

Lemma keeps_on_drag cx cy : keeps app_pending (_on_drag cx cy).
Proof. unfold _on_drag. frame_steps. Qed.

Lemma keeps_remove_overlay rid : keeps app_pending (_remove_overlay rid).
Proof. unfold _remove_overlay. frame_steps. Qed.

Lemma keeps_clear_overlays : keeps app_pending clear_overlays.
Proof. unfold clear_overlays. frame_steps. Qed.

Lemma keeps_deselect_all : keeps app_pending deselect_all.
Proof. unfold deselect_all. frame_steps. Qed.

Lemma keeps_select_redaction rid : keeps app_pending (select_redaction rid).
Proof. unfold select_redaction, deselect_all. frame_steps. Qed.

Lemma keeps_display_page page_num fit_width winfo_width :
  keeps app_pending (display_page page_num fit_width winfo_width).
Proof.
  unfold display_page.
  apply keeps_bind; [auto with frame|intros has_doc].
  destruct (negb has_doc); [auto with frame|].
  apply keeps_bind; [apply keeps_zoom_model, keeps_get_page|intros page].
  apply keeps_bind; [auto with frame|intros pil_image].
  apply keeps_bind; [auto with frame|intros _].
  apply keeps_bind; [auto with frame|intros display_scale].
  do 7 (apply keeps_bind; [auto with frame|intros ?]).
  apply keeps_draw_all_overlays.
Qed.

Lemma keeps_refresh_page w : keeps app_pending (_refresh_page w).
Proof.
  unfold _refresh_page. apply keeps_bind; [auto with frame|intros has_doc].
  destruct (negb has_doc); [auto with frame|].
  apply keeps_bind; [auto with frame|intros page]. apply keeps_display_page.
Qed.
End FrameHandlers.

(* ================================================================== *)
(** * Drag-selection *)

Section Drag.
Context {E : Engine} {F : Float64}.

Lemma redaction_count_pending (m m' : RedactionModel) :
  pending m = pending m' -> redaction_count m = redaction_count m'.
Proof. unfold redaction_count. now intros ->. Qed.

Lemma redaction_count_add r (m : RedactionModel) :
  redaction_count (add_redaction r m) = redaction_count m + 1.
Proof.
  rewrite !redaction_count_marks.
  destruct (marks_add r m) as (b & a & -> & ->).
  rewrite !length_app. simpl. lia.
Qed.

End Drag.

(* ================================================================== *)
(** * Marks are never modified *)

Section Immutable.
Context {E : Engine} {F : Float64}.

Lemma marks_zset_incl k l (d : PyDict.dict Z (list RedactionRect)) r :
  In r (marks_of (zset k l d)) -> In r l \/ In r (marks_of d).
Proof.
  induction d as [|[k' l'] d IH]; simpl.
  - unfold marks_of. simpl. rewrite app_nil_r. tauto.
  - destruct (k =? k'); rewrite !marks_of_cons, !in_app_iff; tauto.
Qed.

Lemma marks_zpop_incl k (d : PyDict.dict Z (list RedactionRect)) r :
  In r (marks_of (zpop k d)) -> In r (marks_of d).
Proof.
  induction d as [|[k' l'] d IH]; simpl; [tauto|].
  destruct (k =? k'); rewrite !marks_of_cons, ?in_app_iff; tauto.
Qed.

Lemma list_remove_incl x l r : In r (list_remove x l) -> In r l.
Proof.
  induction l as [|y l IH]; simpl; [tauto|].
  destruct (RedactionRect_eqb y x); simpl; tauto.
Qed.

Lemma find_id_In rid l x : find_id rid l = Some x -> In x l.
Proof.
  induction l as [|y l IH]; simpl; [discriminate|].
  destruct (String.eqb (id y) rid); [intros H; injection H; tauto|tauto].
Qed.

Lemma remove_scan_incl rid items :
  forall d r,
    (forall q l x, In (q, l) items -> In x l -> In x (marks_of d)) ->
    In r (marks_of (snd (remove_scan rid items d))) ->
    In r (marks_of d).
Proof.
  induction items as [|[p l] items IH]; intros d r Hsub; simpl; [tauto|].
  destruct (find_id rid l) as [x|] eqn:Hf; simpl.
  - destruct (list_remove x l) as [|y l'] eqn:Hrem.
    + apply marks_zpop_incl.
    + intros H. apply marks_zset_incl in H. destruct H as [H|H]; [|exact H].
      rewrite <- Hrem in H. apply list_remove_incl in H.
      apply (Hsub p l); simpl; tauto.
  - apply IH. intros q l0 x Hin. apply (Hsub q l0). simpl. tauto.
Qed.

Lemma remove_redaction_incl rid (m : RedactionModel) r :
  In r (marks_of (pending (snd (remove_redaction rid m)))) ->
  In r (marks_of (pending m)).
Proof.
  unfold remove_redaction.
  pose proof (remove_scan_incl rid (PyDict.items (pending m)) (pending m) r) as H.
  destruct (remove_scan rid (PyDict.items (pending m)) (pending m)) as [res d].
  simpl in *. apply H. intros q l x Hin Hx. apply In_marks_of. eauto.
Qed.

Lemma no_new_of_keeps {A} (c : M RedactorApp A) :
  keeps app_pending c -> no_new_marks c.
Proof.
  intros Hc a r. unfold app_marks. fold (app_pending (fst (c a))).
  now rewrite (Hc a).
Qed.

Lemma no_new_bind {A B} (c : M RedactorApp A) (k : A -> M RedactorApp B) :
  no_new_marks c -> (forall x, no_new_marks (k x)) -> no_new_marks (bind c k).
Proof.
  intros Hc Hk a r. rewrite bind_run. specialize (Hc a r).
  destruct (c a) as [a1 [x|e]]; simpl in Hc.
  - intros H. apply Hc. revert H. apply Hk.
  - exact Hc.
Qed.

Lemma no_new_on_model (f : RedactionModel -> RedactionModel) :
  (forall m r, In r (marks_of (pending (f m))) -> In r (marks_of (pending m))) ->
  no_new_marks (on_model f).
Proof. intros Hf a r. apply Hf. Qed.

Lemma no_new_zoom_model {A} (c : M RedactionModel A) :
  (forall m r, In r (marks_of (pending (fst (c m)))) -> In r (marks_of (pending m))) ->
  no_new_marks (zoom model set_model c).
Proof.
  intros Hc a r. unfold zoom, app_marks. specialize (Hc (model a) r).
  now destruct (c (model a)).
Qed.

Lemma open_document_pending path (m : RedactionModel) :
  pending (fst (open_document path m)) = [].
Proof.
  unfold open_document, close_document. rewrite !bind_run. unfold modify at 1.
  now destruct (fitz_open path).
Qed.

Lemma no_new_right_click items :
  no_new_marks (_on_right_click _on_redaction_change items).
Proof.
  induction items as [|item items IH]; simpl.
  - apply no_new_of_keeps. auto with frame.
  - apply no_new_bind; [apply no_new_of_keeps; auto with frame|intros c].
    destruct (zget item (_canvas_to_rid c)) as [rid|]; [|exact IH].
    apply no_new_bind; [apply no_new_of_keeps, keeps_remove_overlay|intros _].
    apply no_new_bind.
    + apply no_new_on_model. intros m r. apply remove_redaction_incl.
    + intros _. apply no_new_of_keeps, keeps_update_redaction_list.
Qed.

(** What a release does to the pending set, from any state. *)
Lemma release_pending uid cx cy (a : RedactorApp) :
  app_pending (fst (_on_release _on_redaction_change uid cx cy a))
  = app_pending a
  \/ exists rect,
      app_pending (fst (_on_release _on_redaction_change uid cx cy a))
      = pending (add_redaction
                   (create uid (current_page (model a)) rect "manual" "")
                   (model a)).
Proof.
  unfold _on_release.
  cbv [bind gets on_controller on_canvas on_model modify ret unpack_draw_start].
  destruct (_drawing (controller a)); [|now left].
  cbn [negb fst snd controller set_controller set_drawing _draw_start].
  destruct (_draw_start (controller a)) as [[x0 y0]|]; [|now left].
  cbn [_temp_rect_id set_drawing controller set_controller].
  destruct (_temp_rect_id (controller a)) as [item|].
  all: destruct (Qltb (rnd (py_max x0 cx - py_min x0 cx)) (inject_Z MIN_RECT_SIZE)
                 || Qltb (rnd (py_max y0 cy - py_min y0 cy)) (inject_Z MIN_RECT_SIZE));
    [now left|].
  all: cbv beta;
    match goal with
    | |- context [canvas_to_pdf ?c ?x ?y] =>
        destruct (canvas_to_pdf c x y) as [pdf_x0 pdf_y0]
    end;
    match goal with
    | |- context [canvas_to_pdf ?c ?x ?y] =>
        destruct (canvas_to_pdf c x y) as [pdf_x1 pdf_y1]
    end;
    right; exists (pdf_x0, pdf_y0, pdf_x1, pdf_y1);
    cbn [model current_page set_controller set_canvas];
    match goal with
    | |- app_pending (fst (let (s', r) := _draw_overlay ?red ?S in _)) = _ =>
        change (app_pending (fst (bind (_draw_overlay red)
                                       (fun _ => _on_redaction_change) S))
                = pending (add_redaction red (model a)));
        rewrite (keeps_bind _ _ _ (keeps_draw_overlay red)
                   (fun _ => keeps_update_redaction_list) S)
    end; reflexivity.
Qed.

(** C6.  No operation of the model or of the canvas controller modifies a
    mark: after any of them, each pending mark is, field for field, a mark
    that was pending before, or the one mark that the operation creates
    ([add_redaction] its argument, a release the new manual mark).  In
    particular [display_page], whatever the fit width and so the scale,
    leaves the pending set, and with it every [pdf_rect], as it was. *)
Theorem marks_are_never_modified :
  (forall (op : Operation) (a : RedactorApp) (r : RedactionRect),
     In r (app_marks (fst (perform op a))) ->
     In r (app_marks a) \/ introduces op a r)
  /\ (forall page_num fit_width winfo_width (a : RedactorApp),
        pending (model (fst (display_page page_num fit_width winfo_width a)))
        = pending (model a)).
Proof.
  split; [|intros; apply keeps_display_page].
  assert (Hk : forall (c : M RedactorApp unit) a r,
            keeps app_pending c ->
            In r (app_marks (fst (c a))) -> In r (app_marks a)).
  { intros c a r Hc. now apply no_new_of_keeps. }
  intros op a r.
  destruct op as [path| |redaction|rid|p| |text| |path|cx cy|cx cy|uid cx cy
                 |items|p| |rid| |p fit_width winfo_width];
    cbn [perform introduces].
  - unfold app_marks, zoom. pose proof (open_document_pending path (model a)) as H.
    destruct (open_document path (model a)) as [m' res]. simpl in *.
    rewrite H. intros [].
  - simpl. intros [].
  - unfold app_marks. simpl. intros H.
    destruct (marks_add redaction (model a)) as (b & t & Hb & Ht).
    rewrite Ht in H. rewrite Hb. rewrite in_app_iff in *. simpl in H.
    intuition auto.
  - intros H. left. revert H. apply remove_redaction_incl.
  - intros H. left. revert H. apply marks_zpop_incl.
  - simpl. intros [].
  - intros H. left. revert H. apply Hk.
    apply keeps_bind; [apply keeps_zoom_model, keeps_search_text|auto with frame].
  - intros H. left. revert H.
    apply no_new_bind; [|intros; apply no_new_of_keeps; auto with frame].
    apply no_new_zoom_model. intros m r'.
    pose proof (apply_redactions_outcome m) as Ho.
    destruct (apply_redactions m) as [m' [c|e]]; simpl.
    + destruct Ho as (-> & _). intros [].
    + destruct Ho as (-> & _). tauto.
  - intros H. left. revert H. apply Hk, keeps_zoom_model, keeps_save_document.
  - intros H. left. revert H. apply Hk, keeps_on_press.
  - intros H. left. revert H. apply Hk, keeps_on_drag.
  - intros H. unfold app_marks in *.
    destruct (release_pending uid cx cy a) as [Hs|[rect Hs]];
      unfold app_pending in Hs; rewrite Hs in H.
    + now left.
    + destruct (marks_add (create uid (current_page (model a)) rect "manual" "")
                          (model a)) as (b & t & Hb & Ht).
      rewrite Ht in H. rewrite Hb. rewrite in_app_iff in *. simpl in H.
      destruct H as [H|[H|H]]; eauto.
  - intros H. left. revert H. apply no_new_right_click.
  - intros H. left. revert H. apply Hk, keeps_draw_all_overlays.
  - intros H. left. revert H. apply Hk, keeps_clear_overlays.
  - intros H. left. revert H. apply Hk, keeps_select_redaction.
  - intros H. left. revert H. apply Hk, keeps_deselect_all.
  - intros H. left. revert H. apply Hk, keeps_display_page.
Qed.
End Immutable.

(* ================================================================== *)
(** * Failures at the window's handlers *)

Section Failures.
Context {E : Engine} {F : Float64}.

Lemma try_except_returns {S} (c : M S unit) h (s : S) :
  (forall e s', snd (h e s') = Ok tt) -> snd (try_except c h s) = Ok tt.
Proof.
  intros Hh. unfold try_except. destruct (c s) as [s' [[]|e]]; [reflexivity|].
  apply Hh.
Qed.

Lemma _do_apply_returns w (a : RedactorApp) : snd (_do_apply w a) = Ok tt.
Proof. apply try_except_returns. reflexivity. Qed.

(** C8.  A failure of opening, applying or saving is caught by the handler
    that made the call and shown in an error dialog.  Whenever
    [open_document], [apply_redactions] or [save_document] raises [e] in the
    state in which [_on_open], [_do_apply] or [_on_save] calls it, the
    handler returns normally, and what it has done is: the one call, and
    then the dialog "Error" with the text of [e]; the operation is not
    called again.  No exception ever leaves one of these handlers, nor
    [_on_apply]. *)
Theorem failures_are_caught_and_shown (a : RedactorApp) (w : Z) :
  (forall path m' e,
     path <> "" ->
     open_document path (model a) = (m', Raised e) ->
     _on_open path w a
     = (log (showerror "Error" ("Could not open PDF:" ++ nl ++ str e)%string)
            (set_model m' (log (call_open_document path) a)),
        Ok tt))
  /\ (forall m' e,
        apply_redactions (model a) = (m', Raised e) ->
        _do_apply w a
        = (log (showerror "Error"
                  ("Failed to apply redactions:" ++ nl ++ str e)%string)
               (set_model m' (log call_apply_redactions a)),
           Ok tt))
  /\ (forall answer path m' e,
        doc_truthy (model a) = true ->
        path <> "" ->
        (has_pending (model a) = true -> answer <> None) ->
        let a1 := match has_pending (model a), answer with
                  | true, Some true => fst (_do_apply w a)
                  | _, _ => a
                  end in
        save_document path (model a1) = (m', Raised e) ->
        _on_save answer path w a
        = (log (showerror "Error" ("Could not save PDF:" ++ nl ++ str e)%string)
               (set_model m' (log (call_save_document path) a1)),
           Ok tt))
  /\ (forall path answer yes,
        snd (_on_open path w a) = Ok tt
        /\ snd (_do_apply w a) = Ok tt
        /\ snd (_on_save answer path w a) = Ok tt
        /\ snd (_on_apply yes w a) = Ok tt).
Proof.
  repeat apply conj.
  - intros path m' e Hpath Hopen. unfold _on_open.
    destruct (String.eqb_spec path ""); [contradiction|].
    unfold try_except. rewrite bind_run. unfold modify at 1.
    rewrite bind_run. unfold zoom. cbn [model log]. rewrite Hopen. reflexivity.
  - intros m' e Happly. unfold _do_apply.
    unfold try_except. rewrite bind_run. unfold modify at 1.
    rewrite bind_run. unfold zoom. cbn [model log]. rewrite Happly. reflexivity.
  - intros answer path m' e Hdoc Hpath Hans a1 Hsave. unfold _on_save.
    destruct (String.eqb_spec path ""); [contradiction|].
    rewrite bind_run. unfold gets at 1. rewrite Hdoc. cbn [negb].
    rewrite bind_run. unfold gets at 1.
    assert (Hwrite : forall s : RedactorApp,
              save_document path (model s) = (m', Raised e) ->
              try_except
                (modify (log (call_save_document path)) ;;
                 zoom model set_model (save_document path) ;;
                 modify (log (showinfo "Saved"
                                ("Redacted PDF saved to:" ++ nl ++ path)%string)))
                (fun e0 => modify (log (showerror "Error"
                                     ("Could not save PDF:" ++ nl ++ str e0)%string)))
                s
              = (log (showerror "Error" ("Could not save PDF:" ++ nl ++ str e)%string)
                     (set_model m' (log (call_save_document path) s)),
                 Ok tt)).
    { intros s Hs. unfold try_except. rewrite bind_run. unfold modify at 1.
      rewrite bind_run. unfold zoom. cbn [model log]. rewrite Hs. reflexivity. }
    subst a1. destruct (has_pending (model a)).
    + destruct answer as [[|]|].
      * rewrite bind_run. pose proof (_do_apply_returns w a) as Hr.
        destruct (_do_apply w a) as [a1 res]. simpl in Hr. subst res.
        simpl in Hsave. now apply Hwrite.
      * now apply Hwrite.
      * exfalso. now apply Hans.
    + now apply Hwrite.
  - intros path answer yes. repeat apply conj.
    + unfold _on_open. destruct (String.eqb path ""); [reflexivity|].
      apply try_except_returns. reflexivity.
    + apply _do_apply_returns.
    + assert (Hw : forall s : RedactorApp,
                snd ((if String.eqb path "" then ret tt else
                      try_except
                        (modify (log (call_save_document path)) ;;
                         zoom model set_model (save_document path) ;;
                         modify (log (showinfo "Saved"
                                        ("Redacted PDF saved to:" ++ nl ++ path)%string)))
                        (fun e0 => modify (log (showerror "Error"
                                     ("Could not save PDF:" ++ nl ++ str e0)%string))))
                     s) = Ok tt).
      { intros s. destruct (String.eqb path ""); [reflexivity|].
        apply try_except_returns. reflexivity. }
      unfold _on_save. rewrite bind_run. unfold gets at 1.
      destruct (negb (doc_truthy (model a))); [reflexivity|].
      rewrite bind_run. unfold gets at 1.
      destruct (has_pending (model a)); [|apply Hw].
      destruct answer as [[|]|]; [|apply Hw|reflexivity].
      rewrite bind_run. pose proof (_do_apply_returns w a) as Hr.
      destruct (_do_apply w a) as [a1 res]. simpl in Hr. subst res. apply Hw.
    + unfold _on_apply. rewrite bind_run. unfold gets at 1.
      destruct (negb (has_pending (model a))); [reflexivity|].
      destruct (negb yes); [reflexivity|apply _do_apply_returns].
Qed.
End Failures.

(* ================================================================== *)
(** * The states that the application reaches *)

Section Reachable.
Context {E : Engine} {F : Float64}.
Implicit Types (m : RedactionModel) (r : RedactionRect).

Lemma filed_by_page_In (d : PyDict.dict Z (list RedactionRect)) :
  PyDict.wf d ->
  (filed_by_page d <-> forall q l r, In (q, l) d -> In r l -> page_num r = q).
Proof.
  intros Hwf. split.
  - intros Hf q l r Hin. apply Hf. now apply In_zget.
  - intros Hf q l r Hg. apply (Hf q l). now apply zget_In.
Qed.

Lemma pending_inv_empty : pending_inv [].
Proof.
  repeat split; [constructor|intros p l; discriminate|intros p l r; discriminate].
Qed.

Lemma pending_inv_add r m :
  pending_inv (pending m) -> pending_inv (pending (add_redaction r m)).
Proof.
  intros (Hwf & Hne & Hf). repeat split.
  - now apply wf_add.
  - now apply lists_nonempty_add.
  - now apply filed_by_page_add.
Qed.

Lemma pending_inv_remove rid m :
  pending_inv (pending m) ->
  pending_inv (pending (snd (remove_redaction rid m))).
Proof.
  intros (Hwf & Hne & Hf).
  destruct (in_dec string_dec rid (map id (marks_of (pending m)))) as [Hin|Hn];
    [|rewrite (remove_redaction_absent rid m Hwf Hn); now repeat split].
  assert (Hne' := lists_nonempty_remove rid m Hwf Hne).
  destruct (remove_redaction_found rid m Hwf Hin)
    as (i1 & p & l1 & x & l2 & i2 & Hd & _ & _ & Hr).
  rewrite Hr in *. simpl in *.
  assert (Hwf' : PyDict.wf (i1 ++ match l1 ++ l2 with
                                  | [] => []
                                  | _ :: _ => [(p, l1 ++ l2)]
                                  end ++ i2)).
  { rewrite Hd in Hwf. destruct (l1 ++ l2).
    - now apply wf_app_inv in Hwf.
    - unfold PyDict.wf in *. rewrite !keys_app in *. exact Hwf. }
  repeat split; [exact Hwf'|exact Hne'|].
  apply (filed_by_page_In _ Hwf'). rewrite (filed_by_page_In _ Hwf), Hd in Hf.
  intros q l r. rewrite !in_app_iff. intros [Hq|[Hq|Hq]] Hrl.
  - apply (Hf q l); [rewrite in_app_iff|]; tauto.
  - destruct (l1 ++ l2) as [|y l0] eqn:Hl; [destruct Hq|].
    destruct Hq as [Hq|[]]. injection Hq as <- <-.
    apply (Hf p (l1 ++ x :: l2)); [apply in_elt|].
    rewrite <- Hl in Hrl. rewrite in_app_iff in *. simpl. tauto.
  - apply (Hf q l); [rewrite in_app_iff; simpl|]; tauto.
Qed.

Lemma pending_inv_pop p (d : PyDict.dict Z (list RedactionRect)) :
  pending_inv d -> pending_inv (zpop p d).
Proof.
  intros (Hwf & Hne & Hf). repeat split.
  - now apply wf_pop.
  - intros q l. destruct (Z.eq_dec p q) as [<-|Hq].
    + now rewrite zget_pop_same.
    + rewrite zget_pop_other by exact Hq. apply Hne.
  - intros q l r. destruct (Z.eq_dec p q) as [<-|Hq].
    + now rewrite zget_pop_same.
    + rewrite zget_pop_other by exact Hq. apply Hf.
Qed.

Lemma right_click_cons item items (a : RedactorApp) :
  _on_right_click _on_redaction_change (item :: items) a
  = match zget item (_canvas_to_rid (controller a)) with
    | Some rid =>
        (_remove_overlay rid ;;
         on_model (fun m => snd (remove_redaction rid m)) ;;
         _on_redaction_change) a
    | None => _on_right_click _on_redaction_change items a
    end.
Proof.
  cbn [_on_right_click]. rewrite bind_run. unfold gets.
  now destruct (zget item (_canvas_to_rid (controller a))).
Qed.

Lemma remove_overlay_returns rid (a : RedactorApp) :
  snd (_remove_overlay rid a) = Ok tt.
Proof.
  unfold _remove_overlay. cbv [bind gets on_controller on_canvas modify ret].
  now destruct (sget rid (_rid_to_canvas (controller a))).
Qed.

Lemma right_click_pending items :
  forall a : RedactorApp,
    app_pending (fst (_on_right_click _on_redaction_change items a))
    = app_pending a
    \/ exists rid m,
        pending m = app_pending a
        /\ app_pending (fst (_on_right_click _on_redaction_change items a))
           = pending (snd (remove_redaction rid m)).
Proof.
  induction items as [|item items IH]; intros a; [now left|].
  rewrite right_click_cons.
  destruct (zget item (_canvas_to_rid (controller a))) as [rid|]; [|apply IH].
  right. rewrite bind_run.
  pose proof (keeps_remove_overlay rid a) as H1.
  pose proof (remove_overlay_returns rid a) as H2.
  destruct (_remove_overlay rid a) as [a1 res]. simpl in H1, H2. subst res.
  exists rid, (model a1). split; [exact H1|].
  rewrite bind_run. unfold on_model at 1, modify at 1.
  apply (keeps_update_redaction_list
           (set_model (snd (remove_redaction rid (model a1))) a1)).
Qed.

(** Every operation keeps the invariants of the pending set. *)
Lemma perform_pending_inv (op : Operation) (a : RedactorApp) :
  pending_inv (app_pending a) -> pending_inv (app_pending (fst (perform op a))).
Proof.
  intros Hinv.
  assert (Hk : forall c : M RedactorApp unit,
            keeps app_pending c -> pending_inv (app_pending (fst (c a)))).
  { intros c Hc. now rewrite (Hc a). }
  destruct op as [path| |redaction|rid|p| |text| |path|cx cy|cx cy|uid cx cy
                 |items|p| |rid| |p fit_width winfo_width]; cbn [perform].
  - unfold app_pending, zoom. pose proof (open_document_pending path (model a)) as H.
    destruct (open_document path (model a)) as [m' res]. simpl in *.
    rewrite H. apply pending_inv_empty.
  - apply pending_inv_empty.
  - apply (pending_inv_add redaction (model a) Hinv).
  - apply (pending_inv_remove rid (model a) Hinv).
  - apply (pending_inv_pop p _ Hinv).
  - apply pending_inv_empty.
  - apply Hk.
    apply keeps_bind; [apply keeps_zoom_model, keeps_search_text|auto with frame].
  - rewrite bind_run. unfold zoom, app_pending.
    pose proof (apply_redactions_outcome (model a)) as Ho.
    destruct (apply_redactions (model a)) as [m' [c|e]]; simpl.
    + destruct Ho as (-> & _). apply pending_inv_empty.
    + destruct Ho as (-> & _). exact Hinv.
  - apply Hk, keeps_zoom_model, keeps_save_document.
  - apply Hk, keeps_on_press.
  - apply Hk, keeps_on_drag.
  - destruct (release_pending uid cx cy a) as [->|[rect ->]]; [exact Hinv|].
    now apply pending_inv_add.
  - destruct (right_click_pending items a) as [->|(rid & m & Hm & ->)];
      [exact Hinv|].
    apply pending_inv_remove. now rewrite Hm.
  - apply Hk, keeps_draw_all_overlays.
  - apply Hk, keeps_clear_overlays.
  - apply Hk, keeps_select_redaction.
  - apply Hk, keeps_deselect_all.
  - apply Hk, keeps_display_page.
Qed.

(** The hypotheses of the statements about the pending set hold in every
    state that the application reaches: the keys of the pending set are
    pairwise distinct, no key has an empty list, and every mark is filed under
    its own page number. *)
Lemma reachable_pending_inv (ops : list Operation) :
  pending_inv (app_pending (app_after ops)).
Proof.
  induction ops as [|op ops IH] using rev_ind.
  - apply pending_inv_empty.
  - unfold app_after. rewrite fold_left_app. simpl.
    apply perform_pending_inv. exact IH.
Qed.
End Reachable.

(* ================================================================== *)
(** * More on the model: round trips, counts, search and saving *)

Section ModelMore.
Context {E : Engine}.
Implicit Types (m : RedactionModel) (r : RedactionRect).

Lemma remove_scan_skip rid (skipped rest : list (Z * list RedactionRect)) d :
  (forall q l, In (q, l) skipped -> find_id rid l = None) ->
  remove_scan rid (skipped ++ rest) d = remove_scan rid rest d.
Proof.
  induction skipped as [|[q l] skipped IH]; intros Hnone; [reflexivity|].
  simpl. rewrite (Hnone q l) by now left.
  apply IH. intros q' l' Hin. apply (Hnone q' l'). now right.
Qed.

Lemma find_id_last rid l r :
  ~ In rid (map id l) -> id r = rid -> find_id rid (l ++ [r]) = Some r.
Proof.
  intros Hn Hid. induction l as [|x l IH]; simpl in *.
  - now rewrite Hid, String.eqb_refl.
  - destruct (String.eqb_spec (id x) rid) as [Hx|_]; [tauto|]. apply IH. tauto.
Qed.

Lemma list_remove_last l r :
  ~ In (id r) (map id l) -> list_remove r (l ++ [r]) = l.
Proof.
  intros Hn. induction l as [|x l IH]; simpl in *.
  - now rewrite RedactionRect_eqb_refl.
  - destruct (RedactionRect_eqb x r) eqn:Hx.
    + apply RedactionRect_eqb_id in Hx. tauto.
    + f_equal. apply IH. tauto.
Qed.

Lemma set_pending_add r m :
  set_pending (pending m) (add_redaction r m) = m.
Proof.
  unfold add_redaction.
  destruct (zsetdefault (page_num r) [] (pending m)). now destruct m.
Qed.

(** X1.  Adding a mark with an identifier that no pending mark carries, and
    removing it again by this identifier, returns the mark and leaves the
    model exactly as it was. *)
Theorem add_then_remove_restores m r :
  PyDict.wf (pending m) ->
  lists_nonempty (pending m) ->
  ~ In (id r) (map id (marks_of (pending m))) ->
  remove_redaction (id r) (add_redaction r m) = (Some r, m).
Proof.
  intros Hwf Hne Hfresh. unfold remove_redaction, PyDict.items.
  rewrite pending_add.
  assert (Hnone : forall q l, In (q, l) (pending m) -> find_id (id r) l = None)
    by now apply marks_no_id.
  destruct (zget (page_num r) (pending m)) as [l|] eqn:Hg.
  - destruct (zget_split _ _ _ Hg) as (d1 & d2 & Hd & Hn1).
    assert (Hl : ~ In (id r) (map id l)).
    { apply find_id_None, (Hnone (page_num r)). now apply zget_In. }
    rewrite Hd at 1 2. rewrite zset_app_notin, zset_here by exact Hn1.
    rewrite remove_scan_skip
      by (intros q l' Hin; apply (Hnone q); rewrite Hd, in_app_iff; tauto).
    simpl. rewrite (find_id_last _ _ _ Hl eq_refl), (list_remove_last _ _ Hl).
    destruct l as [|x l]; [now elim (Hne _ _ Hg)|].
    rewrite zset_app_notin, zset_here by exact Hn1.
    rewrite <- Hd. now rewrite set_pending_add.
  - apply zget_None_notin in Hg.
    rewrite <- (app_nil_r (pending m ++ [(page_num r, [r])])) at 1.
    rewrite <- app_assoc. rewrite remove_scan_skip by exact Hnone.
    simpl. rewrite String.eqb_refl. simpl. rewrite RedactionRect_eqb_refl.
    rewrite zpop_app_notin, zpop_here, app_nil_r by exact Hg.
    now rewrite set_pending_add.
Qed.

(** X2.  [redaction_count] counts the marks that [all_redactions] lists, and
    [has_pending] says whether that list is non-empty. *)
Theorem redaction_count_counts_all_redactions m :
  PyDict.wf (pending m) ->
  redaction_count m = Z.of_nat (List.length (all_redactions m))
  /\ (has_pending m = true <-> all_redactions m <> []).
Proof.
  intros Hwf.
  assert (Hlen : redaction_count m = Z.of_nat (List.length (all_redactions m))).
  { rewrite redaction_count_marks. f_equal. unfold all_redactions.
    rewrite <- (flat_map_keys _ Hwf). apply Permutation_length.
    apply Permutation_flat_map, sorted_perm. }
  split; [exact Hlen|].
  unfold has_pending. rewrite Hlen, Z.ltb_lt.
  destruct (all_redactions m); simpl; split; intros H; try lia; congruence.
Qed.

(** X3.  Clearing a page a second time removes nothing and changes nothing, and
    after clearing the page has no marks. *)
Theorem clear_page_redactions_twice p m :
  PyDict.wf (pending m) ->
  let m' := snd (clear_page_redactions p m) in
  clear_page_redactions p m' = (0, m') /\ get_page_redactions p m' = [].
Proof.
  intros Hwf m'.
  assert (Hg : zget p (pending m') = None) by (apply zget_pop_same, Hwf).
  clearbody m'. split.
  - unfold clear_page_redactions, PyDict.get_default. rewrite Hg.
    rewrite (zpop_absent _ _ Hg). now rewrite set_pending_same.
  - unfold get_page_redactions, PyDict.get_default. now rewrite Hg.
Qed.

Lemma search_page_step text results i m m' res :
  search_page text results i m = (m', res) ->
  same_but_doc m m'
  /\ forall results', res = Ok results' ->
       search_inv i results -> 0 <= i -> search_inv (i + 1) results'.
Proof.
  unfold search_page. rewrite bind_run.
  destruct (with_doc (doc_getitem i ;; search_for i text) m) as [m1 [hits|e]] eqn:H1;
    apply with_doc_frame in H1; intros H; injection H as <- <-;
    (split; [exact H1|]); [|discriminate].
  intros results' Hres (Hs & Hk) Hi. injection Hres as <-.
  destruct hits as [|h hits].
  - split; [exact Hs|]. intros k hs Hg. destruct (Hk k hs Hg). split; [lia|assumption].
  - assert (Hn : zget i results = None).
    { destruct (zget i results) as [hs|] eqn:Hg; [|reflexivity].
      destruct (Hk i hs Hg). lia. }
    rewrite (zset_absent _ _ _ Hn). split.
    + rewrite keys_app. apply StronglySorted_app_iff.
      repeat split; [exact Hs|repeat constructor|].
      intros a b Ha [<-|[]]. simpl.
      destruct (zget a results) as [hs|] eqn:Hg.
      * destruct (Hk a hs Hg). lia.
      * apply zget_None_notin in Hg. contradiction.
    + intros k hs. destruct (Z.eq_dec k i) as [->|Hki].
      * apply zget_None_notin in Hn. rewrite zget_app_notin by exact Hn.
        rewrite zget_here. intros Hg. injection Hg as <-. split; [lia|discriminate].
      * intros Hg. rewrite <- (zset_absent _ _ _ Hn) in Hg.
        rewrite zget_set_other in Hg by congruence.
        destruct (Hk k hs Hg). split; [lia|assumption].
Qed.

Lemma search_loop text len :
  forall start results m m' res,
    foldM (search_page text) (map Z.of_nat (seq start len)) results m = (m', res) ->
    same_but_doc m m'
    /\ forall results', res = Ok results' ->
         search_inv (Z.of_nat start) results ->
         search_inv (Z.of_nat (start + len)) results'.
Proof.
  induction len as [|len IH]; intros start results m m' res.
  - simpl. intros H. injection H as <- <-. split; [apply same_but_doc_refl|].
    intros results' H. injection H as <-. now rewrite Nat.add_0_r.
  - cbn [seq map foldM]. rewrite bind_run.
    destruct (search_page text results (Z.of_nat start) m) as [m1 [r1|e]] eqn:H1;
      apply search_page_step in H1; destruct H1 as [H1 Hstep].
    + intros H. destruct (IH _ _ _ _ _ H) as [H2 Hrest]. split.
      * eapply same_but_doc_trans; eassumption.
      * intros results' Hres Hinv.
        replace (start + S len)%nat with (S start + len)%nat by lia.
        apply (Hrest results' Hres).
        replace (Z.of_nat (S start)) with (Z.of_nat start + 1) by lia.
        apply (Hstep r1 eq_refl Hinv). lia.
    + intros H. injection H as <- <-. split; [exact H1|discriminate].
Qed.

(** X4.  [search_text] touches only the document.  When it returns, the pages of
    its result are in strictly ascending order, each of them is a page of the
    document, and none comes with an empty list of hits.  Without a document
    it returns the empty result at once. *)
Theorem search_text_results text m :
  same_but_doc m (fst (search_text text m))
  /\ (forall results,
        snd (search_text text m) = Ok results ->
        StronglySorted Z.lt (PyDict.keys results)
        /\ forall k hits, zget k results = Some hits ->
                          0 <= k < page_count m /\ hits <> [])
  /\ (doc_truthy m = false -> search_text text m = (m, Ok [])).
Proof.
  assert (Hunfold : search_text text m
                    = foldM (search_page text) (range (page_count m)) [] m)
    by reflexivity.
  rewrite Hunfold. unfold range.
  destruct (foldM (search_page text)
              (map Z.of_nat (seq 0 (Z.to_nat (page_count m)))) [] m)
    as [m' res] eqn:Hrun.
  destruct (search_loop _ _ _ _ _ _ _ Hrun) as [Hsame Hinv].
  split; [exact Hsame|split].
  - simpl. intros results Hres.
    destruct (Hinv results Hres) as [Hs Hk].
    { split; [constructor|]. intros k hits. discriminate. }
    split; [exact Hs|]. intros k hits Hg. destruct (Hk k hits Hg). split; [lia|assumption].
  - intros Hdoc. rewrite <- Hrun.
    assert (Hcount : page_count m = 0).
    { unfold page_count, doc_truthy in *. destruct (doc m); [now rewrite Hdoc|reflexivity]. }
    now rewrite Hcount.
Qed.

(** X5.  [save_document] changes nothing but the document: pending marks stay
    pending, [is_applied] and the current page stay, and [file_path] remains
    the path that was opened.  Without a document it raises at once; when
    scrubbing raises, nothing is written. *)
Theorem save_document_touches_only_the_document path m :
  same_but_doc m (fst (save_document path m))
  /\ (doc m = None -> exists msg, save_document path m = (m, Raised (AttributeError msg)))
  /\ (forall d d' e,
        doc m = Some d -> doc_scrub d = (d', Raised e) ->
        save_document path m = (set_doc (Some d') m, Raised e)).
Proof.
  unfold save_document. split; [|split].
  - rewrite bind_run.
    destruct (with_doc_method doc_scrub m) as [m1 [[]|e]] eqn:H1;
      apply with_doc_frame in H1; [|exact H1].
    destruct (with_doc_method (doc_save path) m1) as [m2 res] eqn:H2.
    apply with_doc_frame in H2. simpl. eapply same_but_doc_trans; eassumption.
  - intros Hd. eexists. rewrite bind_run. unfold with_doc_method, on_doc.
    rewrite Hd. reflexivity.
  - intros d d' e Hd Hscrub. rewrite bind_run.
    unfold with_doc_method at 1, on_doc. now rewrite Hd, Hscrub.
Qed.
End ModelMore.

(* ================================================================== *)
(** * More on the renderer: failures, repeated and invalidated pages *)

Section RendererMore.
Context {E : Engine}.
Implicit Types (r : PDFRenderer).

Lemma zget_last {V} k (v : V) d : exists v', zget k (d ++ [(k, v)]) = Some v'.
Proof.
  induction d as [|[k' v0] d IH]; simpl.
  - rewrite Z.eqb_refl. eauto.
  - destruct (k =? k'); eauto.
Qed.

(** X6.  [render_page] raises only what the engine raises while rendering a page
    that is not cached, and then leaves the cache as it was. *)
Theorem render_page_raises_only_from_engine (page : Page) p r e :
  snd (render_page page p r) = Raised e ->
  zget p (_cache r) = None
  /\ get_pixmap (fst page) (snd page) = Raised e
  /\ fst (render_page page p r) = r.
Proof.
  destruct (zget p (_cache r)) as [img|] eqn:Hg.
  - unfold render_page. rewrite bind_run. unfold gets at 1.
    unfold PyDict.contains. rewrite Hg. rewrite bind_run. unfold modify at 1.
    unfold PyDict.move_to_end. rewrite Hg. unfold cache_getitem. cbn [_cache].
    destruct (zget_last p img (zpop p (_cache r))) as [v' ->]. discriminate.
  - rewrite (render_page_miss page p r Hg).
    destruct (get_pixmap (fst page) (snd page)) as [img|e']; simpl.
    + discriminate.
    + intros H. injection H as ->. tauto.
Qed.

Lemma render_page_last (page : Page) p img d :
  PyDict.wf (d ++ [(p, img)]) ->
  render_page page p (mkPDFRenderer (d ++ [(p, img)]))
  = (mkPDFRenderer (d ++ [(p, img)]), Ok img).
Proof.
  intros Hwf. destruct (wf_app_inv _ _ _ _ Hwf) as (_ & Hn & _).
  assert (Hg : zget p (d ++ [(p, img)]) = Some img)
    by now rewrite zget_app_notin, zget_here.
  rewrite (render_page_hit page p (mkPDFRenderer (d ++ [(p, img)])) img Hwf Hg).
  cbn [_cache]. now rewrite zpop_app_notin, zpop_here, app_nil_r.
Qed.

(** X7.  Once [render_page] has returned an image for a page number, asking for
    that page number again returns the same image and leaves the cache as it
    is, whatever page object comes with the request. *)
Theorem render_page_again_same_image (page page' : Page) p r r1 img :
  PyDict.wf (_cache r) ->
  render_page page p r = (r1, Ok img) ->
  render_page page' p r1 = (r1, Ok img).
Proof.
  intros Hwf. destruct (zget p (_cache r)) as [img0|] eqn:Hg.
  - rewrite (render_page_hit page p r img0 Hwf Hg). intros H. injection H as <- <-.
    apply render_page_last.
    destruct (zget_split _ _ _ Hg) as (d1 & d2 & Hd & Hn). rewrite Hd in Hwf |- *.
    rewrite zpop_app_notin, zpop_here by exact Hn.
    destruct (wf_app_inv _ _ _ _ Hwf) as (Hwf' & Hn1 & Hn2).
    unfold PyDict.wf in *. rewrite keys_app. simpl.
    apply NoDup_app; [exact Hwf'|repeat constructor; simpl; tauto|].
    intros x Hx [<-|[]]. rewrite keys_app, in_app_iff in Hx. tauto.
  - rewrite (render_page_miss page p r Hg).
    destruct (get_pixmap (fst page) (snd page)) as [img1|e]; [|discriminate].
    intros H. injection H as <- <-.
    assert (Hwf1 : PyDict.wf (_cache r ++ [(p, img1)])).
    { rewrite <- (zset_absent _ _ _ Hg). now apply wf_set. }
    destruct (CACHE_LIMIT <? List.length (_cache r ++ [(p, img1)]))%nat eqn:Hfull;
      [|now apply render_page_last].
    destruct (_cache r) as [|x d]; [discriminate Hfull|]. simpl.
    apply render_page_last. simpl in Hwf1. now inversion Hwf1.
Qed.

(** X8.  After [invalidate], of everything or of the page itself, [render_page]
    returns for a page what the engine renders then, or raises what the
    engine raises; invalidating one page leaves the entries of the others. *)
Theorem invalidate_then_render_asks_engine (page : Page) p r :
  snd (render_page page p (invalidate None r)) = get_pixmap (fst page) (snd page)
  /\ (PyDict.wf (_cache r) ->
      snd (render_page page p (invalidate (Some p) r))
      = get_pixmap (fst page) (snd page))
  /\ (forall q, q <> p ->
        zget p (_cache (invalidate (Some q) r)) = zget p (_cache r)).
Proof.
  assert (Hmiss : forall r0, zget p (_cache r0) = None ->
            snd (render_page page p r0) = get_pixmap (fst page) (snd page)).
  { intros r0 Hg. rewrite (render_page_miss page p r0 Hg).
    now destruct (get_pixmap (fst page) (snd page)). }
  split; [|split].
  - now apply Hmiss.
  - intros Hwf. apply Hmiss. simpl. now apply zget_pop_same.
  - intros q Hq. simpl. now apply zget_pop_other.
Qed.
End RendererMore.

(* ================================================================== *)
(** * More on coordinates: the way back, and normalized marks *)

Section CoordinatesBack.
Context {E : Engine}.
Variable F : Float64.
Variable eps : Q.
Hypothesis rounding : rounds_within F eps.

Local Open Scope Q_scope.

Lemma scale_round_trip_back (s x : Q) :
  ~ s == 0 ->
  Qabs (rnd (rnd (x * s) / s) - x) <= (2 * eps + eps * eps) * Qabs x.
Proof.
  intros Hs. pose proof (eps_nonneg F eps rounding) as He.
  set (a := rnd (x * s)). set (b := rnd (a / s)).
  pose proof (rounding (x * s)) as H1. fold a in H1.
  pose proof (rounding (a / s)) as H2. fold b in H2.
  assert (Hinv : Qabs (/ s) * Qabs s == 1).
  { rewrite <- Qabs_Qmult. setoid_replace (/ s * s) with 1 by (field; exact Hs).
    reflexivity. }
  assert (Hmid : Qabs (a / s - x) <= eps * Qabs x).
  { assert (Heq : a / s - x == (a - x * s) * / s) by (field; exact Hs).
    rewrite Heq, Qabs_Qmult. rewrite Qabs_Qmult in H1.
    pose proof (Qabs_nonneg (/ s)). pose proof (Qabs_nonneg s).
    pose proof (Qabs_nonneg x). pose proof (Qabs_nonneg (a - x * s)).
    assert (Hle : Qabs (a - x * s) * Qabs (/ s)
                  <= eps * (Qabs x * Qabs s) * Qabs (/ s))
      by (apply Qmult_le_compat_r; assumption).
    setoid_replace (eps * (Qabs x * Qabs s) * Qabs (/ s))
      with (eps * Qabs x * (Qabs (/ s) * Qabs s)) in Hle by ring.
    rewrite Hinv in Hle. lra. }
  assert (Has : Qabs (a / s) <= Qabs x + eps * Qabs x).
  { assert (Heq : a / s == (a / s - x) + x) by ring.
    rewrite Heq at 1. pose proof (Qabs_triangle (a / s - x) x). lra. }
  assert (Heq : b - x == (b - a / s) + (a / s - x)) by ring.
  rewrite Heq. pose proof (Qabs_triangle (b - a / s) (a / s - x)) as Ht.
  pose proof (Qabs_nonneg x). nra.
Qed.

End CoordinatesBack.

Section Normalized.
Context {E : Engine} {F : Float64}.

Local Open Scope Q_scope.

Lemma py_min_le_max (a b : Q) : py_min a b <= py_max a b.
Proof.
  unfold py_min, py_max.
  destruct (Qlt_le_dec b a), (Qlt_le_dec a b); lra.
Qed.

Lemma canvas_to_pdf_monotone (c : CanvasController) (x x' y y' : Q) :
  rounds_monotone F -> 0 <= _total_scale c ->
  x <= x' -> y <= y' ->
  fst (canvas_to_pdf c x y) <= fst (canvas_to_pdf c x' y')
  /\ snd (canvas_to_pdf c x y) <= snd (canvas_to_pdf c x' y').
Proof.
  intros Hmono Hs Hx Hy. unfold canvas_to_pdf.
  destruct (Qeq_bool (_total_scale c) 0) eqn:Hb; simpl; [lra|].
  apply Qeq_bool_neq in Hb.
  assert (Hinv : 0 <= / _total_scale c) by now apply Qinv_le_0_compat.
  split; apply Hmono; unfold Qdiv; now apply Qmult_le_compat_r.
Qed.

(** What a release does to the pending set, from any state: nothing, or it
    adds the mark made of the point of the press and the point of the
    release. *)
Lemma release_pending_exact uid cx cy (a : RedactorApp) :
  app_pending (fst (_on_release _on_redaction_change uid cx cy a))
  = app_pending a
  \/ exists x0 y0,
      _draw_start (controller a) = Some (x0, y0)
      /\ app_pending (fst (_on_release _on_redaction_change uid cx cy a))
         = pending
             (add_redaction
                (create uid (current_page (model a))
                   (fst (canvas_to_pdf (controller a) (py_min x0 cx) (py_min y0 cy)),
                    snd (canvas_to_pdf (controller a) (py_min x0 cx) (py_min y0 cy)),
                    fst (canvas_to_pdf (controller a) (py_max x0 cx) (py_max y0 cy)),
                    snd (canvas_to_pdf (controller a) (py_max x0 cx) (py_max y0 cy)))
                   "manual" "")
                (model a)).
Proof.
  unfold _on_release.
  cbv [bind gets on_controller on_canvas on_model modify ret unpack_draw_start].
  destruct (_drawing (controller a)); [|now left].
  cbn [negb fst snd controller set_controller set_drawing _draw_start].
  destruct (_draw_start (controller a)) as [[x0 y0]|]; [|now left].
  cbn [_temp_rect_id set_drawing controller set_controller].
  destruct (_temp_rect_id (controller a)) as [item|].
  all: destruct (Qltb (rnd (py_max x0 cx - py_min x0 cx)) (inject_Z MIN_RECT_SIZE)
                 || Qltb (rnd (py_max y0 cy - py_min y0 cy)) (inject_Z MIN_RECT_SIZE));
    [now left|].
  all: right; exists x0, y0; split; [reflexivity|]; cbv beta;
    unfold canvas_to_pdf;
    cbn [controller set_controller set_canvas set_temp_rect_id set_drawing
         _total_scale model current_page];
    destruct (Qeq_bool (_total_scale (controller a)) 0); cbn [fst snd];
    match goal with
    | |- app_pending (fst (let (s', r) := _draw_overlay ?red ?S in _)) = _ =>
        change (app_pending (fst (bind (_draw_overlay red)
                                       (fun _ => _on_redaction_change) S))
                = pending (add_redaction red (model a)));
        rewrite (keeps_bind _ _ _ (keeps_draw_overlay red)
                   (fun _ => keeps_update_redaction_list) S)
    end; reflexivity.
Qed.

(** X10.  When rounding keeps the order of numbers and the scale is not negative,
    a release leaves every pending mark with its corners in order, if they
    were so before: the mark it creates has [x0 <= x1] and [y0 <= y1]. *)
Theorem release_keeps_marks_normalized uid cx cy (a : RedactorApp) :
  rounds_monotone F ->
  0 <= _total_scale (controller a) ->
  (forall r, In r (app_marks a) -> normalized r) ->
  forall r,
    In r (app_marks (fst (_on_release _on_redaction_change uid cx cy a))) ->
    normalized r.
Proof.
  intros Hmono Hs Hall r. unfold app_marks.
  destruct (release_pending_exact uid cx cy a) as [Hp|(x0 & y0 & _ & Hp)];
    unfold app_pending in Hp; rewrite Hp; [apply Hall|].
  match type of Hp with
  | _ = pending (add_redaction ?red _) =>
      destruct (marks_add red (model a)) as (b & t & Hb & Ht)
  end.
  rewrite Ht. intros Hin.
  assert (Hold : In r (app_marks a) \/ r = _) by
    (unfold app_marks; rewrite Hb; rewrite in_app_iff in *; simpl in Hin;
     destruct Hin as [H|[H|H]]; [left|right; symmetry; exact H|left]; tauto).
  destruct Hold as [Hold| ->]; [now apply Hall|].
  unfold normalized, create. cbn [pdf_rect].
  destruct (canvas_to_pdf_monotone (controller a)
              (py_min x0 cx) (py_max x0 cx) (py_min y0 cy) (py_max y0 cy)
              Hmono Hs (py_min_le_max _ _) (py_min_le_max _ _)).
  tauto.
Qed.
End Normalized.

(* ================================================================== *)
(** * More on the controller: what a displayed page looks like *)

Section Display.
Context {E : Engine} {F : Float64}.

Lemma draw_overlay_run r (a : RedactorApp) :
  _draw_overlay r a = (overlay_drawn r a, Ok (next_item (canvas a))).
Proof.
  unfold _draw_overlay, overlay_drawn. rewrite bind_run. unfold gets at 1.
  destruct (pdf_rect r) as [[[r0 r1] r2] r3].
  destruct (pdf_to_canvas (controller a) r0 r1) as [x0 y0].
  destruct (pdf_to_canvas (controller a) r2 r3) as [x1 y1].
  reflexivity.
Qed.

Lemma draw_overlays_run rects :
  forall a : RedactorApp,
    foldM (fun _ r => _draw_overlay r ;; ret tt) rects tt a
    = (fold_left (fun a r => overlay_drawn r a) rects a, Ok tt).
Proof.
  induction rects as [|r rects IH]; intros a; [reflexivity|].
  cbn [foldM fold_left]. rewrite bind_run, bind_run, draw_overlay_run.
  unfold ret at 1. apply IH.
Qed.

Lemma overlay_drawn_fields r (a : RedactorApp) :
  model (overlay_drawn r a) = model a
  /\ renderer (overlay_drawn r a) = renderer a
  /\ _total_scale (controller (overlay_drawn r a)) = _total_scale (controller a)
  /\ _selected_rid (controller (overlay_drawn r a)) = _selected_rid (controller a)
  /\ next_item (canvas (overlay_drawn r a)) = next_item (canvas a) + 1
  /\ _canvas_to_rid (controller (overlay_drawn r a))
     = zset (next_item (canvas a)) (id r) (_canvas_to_rid (controller a))
  /\ _rid_to_canvas (controller (overlay_drawn r a))
     = sset (id r) (next_item (canvas a)) (_rid_to_canvas (controller a)).
Proof.
  unfold overlay_drawn. destruct (pdf_rect r) as [[[r0 r1] r2] r3].
  destruct (pdf_to_canvas (controller a) r0 r1) as [x0 y0].
  destruct (pdf_to_canvas (controller a) r2 r3) as [x1 y1].
  simpl. tauto.
Qed.

Lemma sget_set_same {V} k (v : V) d : sget k (sset k v d) = Some v.
Proof.
  induction d as [|[k0 v0] d IH]; simpl.
  - now rewrite String.eqb_refl.
  - destruct (String.eqb_spec k k0) as [->|Hk]; simpl.
    + now rewrite String.eqb_refl.
    + destruct (String.eqb_spec k k0); [congruence|exact IH].
Qed.

Lemma sget_set_other {V} k k' (v : V) d :
  k <> k' -> sget k' (sset k v d) = sget k' d.
Proof.
  intros Hne. induction d as [|[k0 v0] d IH]; simpl.
  - destruct (String.eqb_spec k' k); [congruence|reflexivity].
  - destruct (String.eqb_spec k k0) as [->|Hk]; simpl.
    + destruct (String.eqb_spec k' k0); [congruence|reflexivity].
    + now rewrite IH.
Qed.

(** The overlays drawn for a list of marks, on top of those that are there. *)
Lemma overlays_drawn rects :
  forall a : RedactorApp,
    (forall k, In k (PyDict.keys (_canvas_to_rid (controller a))) ->
               k < next_item (canvas a)) ->
    let a' := fold_left (fun a r => overlay_drawn r a) rects a in
    model a' = model a
    /\ renderer a' = renderer a
    /\ _total_scale (controller a') = _total_scale (controller a)
    /\ _selected_rid (controller a') = _selected_rid (controller a)
    /\ PyDict.values (_canvas_to_rid (controller a'))
       = PyDict.values (_canvas_to_rid (controller a)) ++ map id rects
    /\ (forall r, In r rects ->
                  sget (id r) (_rid_to_canvas (controller a')) <> None).
Proof.
  induction rects as [|r rects IH]; intros a Hfresh; cbn [fold_left].
  - simpl. rewrite app_nil_r. repeat split. intros r [].
  - destruct (overlay_drawn_fields r a) as (Hm & Hr & Hs & Hsel & Hn & Hc & Hrc).
    assert (Hnew : zget (next_item (canvas a)) (_canvas_to_rid (controller a)) = None).
    { apply zget_None_notin. intros Hin. apply Hfresh in Hin. lia. }
    destruct (IH (overlay_drawn r a)) as (Hm' & Hr' & Hs' & Hsel' & Hv' & Hreg').
    { intros k. rewrite Hc, Hn, (zset_absent _ _ _ Hnew), keys_app, in_app_iff.
      simpl. intros [Hk|[<-|[]]]; [apply Hfresh in Hk|]; lia. }
    repeat split; try congruence.
    + rewrite Hv', Hc, (zset_absent _ _ _ Hnew).
      unfold PyDict.values. rewrite map_app. simpl. now rewrite <- app_assoc.
    + intros r' [<-|Hin]; [|now apply Hreg'].
      clear - Hrc. revert Hrc.
      generalize (overlay_drawn r a). intros a1 Hrc.
      assert (Hkept : forall rs (a2 : RedactorApp),
                sget (id r) (_rid_to_canvas (controller a2)) <> None ->
                sget (id r) (_rid_to_canvas
                               (controller (fold_left (fun a r => overlay_drawn r a) rs a2)))
                <> None).
      { induction rs as [|r2 rs IHrs]; intros a2 H2; [exact H2|].
        cbn [fold_left]. apply IHrs.
        destruct (overlay_drawn_fields r2 a2) as (_ & _ & _ & _ & _ & _ & ->).
        destruct (string_dec (id r2) (id r)) as [->|Hne].
        - rewrite sget_set_same. discriminate.
        - now rewrite sget_set_other. }
      apply Hkept. rewrite Hrc, sget_set_same. discriminate.
Qed.

(** How [display_page] gets to return. *)
Lemma display_page_returns page_num fit_width winfo_width (a a' : RedactorApp) :
  doc_truthy (model a) = true ->
  display_page page_num fit_width winfo_width a = (a', Ok tt) ->
  exists m1 page r1 pil_image display_img,
    let fit := match fit_width with
               | Some w => w
               | None => Z.max (winfo_width - 20) 400
               end in
    let display_scale := rnd (inject_Z fit / inject_Z (image_width pil_image))%Q in
    get_page page_num (model a) = (m1, Ok page)
    /\ render_page page page_num (renderer a) = (r1, Ok pil_image)
    /\ image_width pil_image <> 0
    /\ a' = fold_left (fun a r => overlay_drawn r a)
                      (get_page_redactions page_num m1)
                      (page_shown m1 r1 pil_image display_img
                                  (rnd (render_scale * display_scale)) a).
Proof.
  intros Hdoc. unfold display_page. rewrite bind_run. unfold gets at 1.
  rewrite Hdoc. cbn [negb]. rewrite bind_run. unfold zoom at 1.
  destruct (get_page page_num (model a)) as [m1 [page|e]] eqn:Hget;
    [|discriminate].
  rewrite bind_run. unfold zoom at 1. cbn [renderer set_model].
  destruct (render_page page page_num (renderer a)) as [r1 [pil_image|e]] eqn:Hrender;
    [|discriminate].
  rewrite bind_run. unfold on_controller at 1, modify at 1.
  rewrite bind_run. unfold true_div.
  destruct (Z.eqb_spec (image_width pil_image) 0) as [|Hwidth]; [discriminate|].
  unfold ret at 1. rewrite bind_run. unfold on_controller at 1, modify at 1.
  rewrite bind_run.
  match goal with
  | |- context [image_resize pil_image ?w ?h] =>
      destruct (image_resize pil_image w h) as [display_img|e]; [|discriminate]
  end.
  cbv [bind on_controller on_canvas modify create_item canvas_create].
  unfold draw_all_overlays. rewrite bind_run. unfold gets at 1.
  rewrite draw_overlays_run. intros H. injection H as <-.
  exists m1, page, r1, pil_image, display_img.
  repeat split; try assumption.
Qed.

(** X11.  When [display_page] returns for an open document, the overlays on the
    canvas are those of the pending marks of the page: [_canvas_to_rid] lists
    the ids of these marks, one item each and in their order, every one of
    these ids is found in [_rid_to_canvas], and no overlay is selected. *)
Theorem display_page_draws_the_marks_of_the_page page_num fit_width winfo_width
    (a a' : RedactorApp) :
  doc_truthy (model a) = true ->
  display_page page_num fit_width winfo_width a = (a', Ok tt) ->
  PyDict.values (_canvas_to_rid (controller a'))
  = map id (get_page_redactions page_num (model a'))
  /\ (forall r, In r (get_page_redactions page_num (model a')) ->
                sget (id r) (_rid_to_canvas (controller a')) <> None)
  /\ _selected_rid (controller a') = None.
Proof.
  intros Hdoc Hrun.
  destruct (display_page_returns _ _ _ _ _ Hdoc Hrun)
    as (m1 & page & r1 & pil_image & display_img & _ & _ & _ & ->).
  match goal with
  | |- context [fold_left _ ?rects ?base] =>
      destruct (overlays_drawn rects base) as (Hm & _ & _ & Hsel & Hv & Hreg);
        [intros k []|]
  end.
  rewrite Hm, Hv, Hsel. cbn [page_shown model set_canvas set_controller
                            set_renderer set_model]. repeat split.
  exact Hreg.
Qed.

Local Open Scope Q_scope.

Lemma rnd_positive eps (x : Q) :
  rounds_within F eps -> eps < 1 -> 0 < x -> 0 < rnd x.
Proof.
  intros Hr He Hx. pose proof (Hr x) as H.
  rewrite (Qabs_pos x) in H by lra.
  apply Qabs_Qle_condition in H. nra.
Qed.

(** X12.  After [_refresh_page] has returned for an open document, the total scale
    is positive, when rounding is within a relative error below one and
    images have no negative width: the pointer is then never converted with
    a scale of zero. *)
Theorem refresh_page_scale_positive eps winfo_width (a a' : RedactorApp) :
  rounds_within F eps -> eps < 1 ->
  (forall img : Image, (0 <= image_width img)%Z) ->
  doc_truthy (model a) = true ->
  _refresh_page winfo_width a = (a', Ok tt) ->
  0 < _total_scale (controller a').
Proof.
  intros Hr He Hwidth Hdoc Hrun.
  unfold _refresh_page in Hrun. rewrite bind_run in Hrun. unfold gets at 1 in Hrun.
  rewrite Hdoc in Hrun. cbn [negb] in Hrun. rewrite bind_run in Hrun.
  unfold gets at 1 in Hrun.
  destruct (display_page_returns _ _ _ _ _ Hdoc Hrun)
    as (m1 & page & r1 & pil_image & display_img & _ & _ & Hw & ->).
  match goal with
  | |- context [fold_left _ ?rects ?base] =>
      destruct (overlays_drawn rects base) as (_ & _ & Hs & _); [intros k []|]
  end.
  rewrite Hs. cbn [page_shown controller set_canvas set_controller _total_scale
                   set_selected_rid set_rid_maps set_photo set_total_scale].
  specialize (Hwidth pil_image).
  assert (Hpos : forall z : Z, (0 < z)%Z -> 0 < inject_Z z)
    by (intros z Hz; unfold Qlt, inject_Z; simpl; lia).
  apply (rnd_positive eps _ Hr He). apply Qmult_lt_0_compat.
  - unfold render_scale. apply (rnd_positive eps _ Hr He). reflexivity.
  - apply (rnd_positive eps _ Hr He). unfold Qdiv. apply Qmult_lt_0_compat.
    + apply Hpos. lia.
    + apply Qinv_lt_0_compat, Hpos. lia.
Qed.
End Display.

(* ================================================================== *)
(** * What displaying a page leaves alone in the model *)

Section FrameRest.
Context {E : Engine} {F : Float64}.

Lemma rest_on_doc {A} on_none (c : M Document A) :
  keeps model_rest (on_doc on_none c).
Proof.
  intros m. destruct (on_doc on_none c m) as [m' res] eqn:H.
  apply with_doc_frame in H. destruct H as (H1 & H2 & H3 & H4).
  unfold model_rest. simpl. now rewrite H1, H2, H3, H4.
Qed.

Lemma rest_with_doc {A} (c : M Document A) : keeps model_rest (with_doc c).
Proof. apply rest_on_doc. Qed.

Lemma rest_with_doc_method {A} (c : M Document A) :
  keeps model_rest (with_doc_method c).
Proof. apply rest_on_doc. Qed.

Lemma rest_on_canvas f : keeps app_rest (on_canvas f).
Proof. intros a. reflexivity. Qed.

Lemma rest_on_controller f : keeps app_rest (on_controller f).
Proof. intros a. reflexivity. Qed.

Lemma rest_on_renderer f : keeps app_rest (on_renderer f).
Proof. intros a. reflexivity. Qed.

Lemma rest_set_tree t : keeps app_rest (modify (set_tree t)).
Proof. intros a. reflexivity. Qed.

Lemma rest_log ev : keeps app_rest (modify (log ev)).
Proof. intros a. reflexivity. Qed.

Lemma rest_create_item coords tags : keeps app_rest (create_item coords tags).
Proof.
  intros a. unfold create_item. now destruct (canvas_create coords tags (canvas a)).
Qed.

Lemma rest_tree_insert iid : keeps app_rest (tree_insert iid).
Proof.
  intros a. unfold tree_insert. now destruct (existsb (String.eqb iid) (tree a)).
Qed.

Lemma rest_true_div x y : keeps app_rest (true_div x y).
Proof. intros a. unfold true_div. now destruct (y =? 0). Qed.

Lemma rest_zoom_model {A} (c : M RedactionModel A) :
  keeps model_rest c -> keeps app_rest (zoom model set_model c).
Proof.
  intros Hc a. unfold zoom, app_rest. specialize (Hc (model a)).
  now destruct (c (model a)).
Qed.

Lemma rest_zoom_renderer {A} (c : M PDFRenderer A) :
  keeps app_rest (zoom renderer set_renderer c).
Proof. intros a. unfold zoom. now destruct (c (renderer a)). Qed.
End FrameRest.

Create HintDb rest.

#[export] Hint Resolve keeps_ret keeps_raise keeps_gets keeps_lift
  rest_with_doc rest_with_doc_method rest_on_canvas rest_on_controller
  rest_on_renderer rest_set_tree rest_log rest_create_item rest_tree_insert
  rest_true_div rest_zoom_renderer : rest.

(** Splits a method into its steps and frames each of them. *)
Ltac rest_steps :=
  repeat first
    [ apply keeps_bind; [|intros ?]
    | apply keeps_try_except; [|intros ?]
    | apply keeps_foldM; intros ? ?
    | apply rest_zoom_model
    | match goal with
      | |- keeps _ (if ?b then _ else _) => destruct b
      | |- keeps _ (match ?x with _ => _ end) => destruct x
      end
    | solve [auto with rest] ].

Section RestHandlers.
Context {E : Engine} {F : Float64}.

Lemma rest_get_page p : keeps model_rest (get_page p).
Proof. unfold get_page. rest_steps. Qed.

Lemma rest_search_text text : keeps model_rest (search_text text).
Proof. unfold search_text. rest_steps. Qed.

Lemma rest_save_document path : keeps model_rest (save_document path).
Proof. unfold save_document. rest_steps. Qed.

Lemma rest_draw_overlay r : keeps app_rest (_draw_overlay r).
Proof.
  unfold _draw_overlay. apply keeps_bind; [auto with rest|intros c].
  destruct (pdf_rect r) as [[[r0 r1] r2] r3].
  destruct (pdf_to_canvas c r0 r1), (pdf_to_canvas c r2 r3). rest_steps.
Qed.

Lemma rest_draw_all_overlays p : keeps app_rest (draw_all_overlays p).
Proof.
  unfold draw_all_overlays. apply keeps_bind; [auto with rest|intros rects].
  apply keeps_foldM. intros acc r.
  apply keeps_bind; [apply rest_draw_overlay|auto with rest].
Qed.

Lemma rest_update_redaction_list : keeps app_rest _update_redaction_list.
Proof. unfold _update_redaction_list. rest_steps. Qed.

Lemma rest_remove_overlay rid : keeps app_rest (_remove_overlay rid).
Proof. unfold _remove_overlay. rest_steps. Qed.

Lemma rest_clear_overlays : keeps app_rest clear_overlays.
Proof. unfold clear_overlays. rest_steps. Qed.

Lemma rest_select_redaction rid : keeps app_rest (select_redaction rid).
Proof. unfold select_redaction, deselect_all. rest_steps. Qed.

Lemma rest_display_page page_num fit_width winfo_width :
  keeps app_rest (display_page page_num fit_width winfo_width).
Proof.
  unfold display_page.
  apply keeps_bind; [auto with rest|intros has_doc].
  destruct (negb has_doc); [auto with rest|].
  apply keeps_bind; [apply rest_zoom_model, rest_get_page|intros page].
  apply keeps_bind; [auto with rest|intros pil_image].
  apply keeps_bind; [auto with rest|intros _].
  apply keeps_bind; [auto with rest|intros display_scale].
  do 7 (apply keeps_bind; [auto with rest|intros ?]).
  apply rest_draw_all_overlays.
Qed.

Lemma rest_refresh_page w : keeps app_rest (_refresh_page w).
Proof.
  unfold _refresh_page. apply keeps_bind; [auto with rest|intros has_doc].
  destruct (negb has_doc); [auto with rest|].
  apply keeps_bind; [auto with rest|intros page]. apply rest_display_page.
Qed.

Lemma app_rest_fields (a a' : RedactorApp) :
  app_rest a' = app_rest a ->
  file_path (model a') = file_path (model a)
  /\ current_page (model a') = current_page (model a)
  /\ pending (model a') = pending (model a)
  /\ is_applied (model a') = is_applied (model a).
Proof. unfold app_rest, model_rest. intros H. now inversion H. Qed.
End RestHandlers.

(* ================================================================== *)
(** * Page navigation *)

Section Navigation.
Context {E : Engine} {F : Float64}.
Variable is_ValueError : Exception -> bool.

Lemma goto_page_rest p w (a : RedactorApp) :
  current_page (model (fst ((on_model (set_current_page p) ;; _refresh_page w) a)))
  = p
  /\ pending (model (fst ((on_model (set_current_page p) ;; _refresh_page w) a)))
     = pending (model a).
Proof.
  rewrite bind_run. unfold on_model, modify. cbn iota beta.
  pose proof (rest_refresh_page w
                (set_model (set_current_page p (model a)) a)) as H.
  apply app_rest_fields in H. destruct H as (_ & H2 & H3 & _).
  now rewrite H2, H3.
Qed.

Lemma page_jump_state n w (a : RedactorApp) :
  fst (_on_page_jump is_ValueError (Some n) w a)
  = if (0 <=? n - 1) && (n - 1 <? page_count (model a))
    then fst ((on_model (set_current_page (n - 1)) ;; _refresh_page w) a)
    else a.
Proof.
  unfold _on_page_jump. rewrite bind_run. unfold gets at 1. cbn iota beta.
  destruct ((0 <=? n - 1) && (n - 1 <? page_count (model a))).
  - rewrite !bind_run. unfold on_model, modify. cbn iota beta.
    rewrite bind_run.
    destruct (_refresh_page w (set_model (set_current_page (n - 1) (model a)) a))
      as [a1 [[]|e]]; simpl; [reflexivity|].
    now destruct (is_ValueError e).
  - reflexivity.
Qed.

Lemma prev_page_state w (a : RedactorApp) :
  fst (_prev_page w a)
  = if 0 <? current_page (model a)
    then fst ((on_model (set_current_page (current_page (model a) - 1)) ;;
               _refresh_page w) a)
    else a.
Proof.
  unfold _prev_page. rewrite bind_run. unfold gets at 1. cbn iota beta.
  now destruct (0 <? current_page (model a)).
Qed.

Lemma next_page_state w (a : RedactorApp) :
  fst (_next_page w a)
  = if current_page (model a) <? page_count (model a) - 1
    then fst ((on_model (set_current_page (current_page (model a) + 1)) ;;
               _refresh_page w) a)
    else a.
Proof.
  unfold _next_page. rewrite bind_run. unfold gets at 1. cbn iota beta.
  rewrite bind_run. unfold gets at 1. cbn iota beta.
  now destruct (current_page (model a) <? page_count (model a) - 1).
Qed.

(** X13.  Page navigation never leaves the document: when the current page is one
    of its pages, it still is after [_prev_page], [_next_page] or
    [_on_page_jump], whatever was typed and whether or not the page could be
    displayed; and the pending marks are as before. *)
Theorem navigation_stays_in_range entry w (a a' : RedactorApp) :
  0 <= current_page (model a) < page_count (model a) ->
  a' = fst (_prev_page w a) \/ a' = fst (_next_page w a)
  \/ a' = fst (_on_page_jump is_ValueError entry w a) ->
  0 <= current_page (model a') < page_count (model a)
  /\ app_pending a' = app_pending a.
Proof.
  intros Hin Hnav.
  assert (Hgo : forall p,
            0 <= p < page_count (model a) ->
            let a1 := fst ((on_model (set_current_page p) ;; _refresh_page w) a) in
            0 <= current_page (model a1) < page_count (model a)
            /\ app_pending a1 = app_pending a).
  { intros p Hp. destruct (goto_page_rest p w a) as [H1 H2].
    unfold app_pending. cbn zeta. rewrite H1, H2. split; [lia|reflexivity]. }
  destruct Hnav as [->|[->| ->]].
  - rewrite prev_page_state.
    destruct (Z.ltb_spec 0 (current_page (model a))); [|now split].
    apply Hgo. lia.
  - rewrite next_page_state.
    destruct (Z.ltb_spec (current_page (model a)) (page_count (model a) - 1));
      [|now split].
    apply Hgo. lia.
  - destruct entry as [n|]; [|now split].
    rewrite page_jump_state.
    destruct (Z.leb_spec 0 (n - 1)), (Z.ltb_spec (n - 1) (page_count (model a)));
      cbn [andb]; try (now split).
    apply Hgo. lia.
Qed.

(** X14.  [_on_page_jump] counts pages from one: the number [n] makes page [n - 1]
    the current one when the document has a page of this number, and
    otherwise nothing changes and the warning names the page count. *)
Theorem page_jump_counts_from_one n w (a : RedactorApp) :
  if (1 <=? n) && (n <=? page_count (model a))
  then current_page (model (fst (_on_page_jump is_ValueError (Some n) w a)))
       = n - 1
  else _on_page_jump is_ValueError (Some n) w a
       = (a, Ok (Some (invalid_page (page_count (model a))))).
Proof.
  destruct (Z.leb_spec 1 n), (Z.leb_spec n (page_count (model a))); cbn [andb].
  - rewrite page_jump_state.
    destruct (Z.leb_spec 0 (n - 1)), (Z.ltb_spec (n - 1) (page_count (model a)));
      try lia.
    cbn [andb]. apply goto_page_rest.
  - unfold _on_page_jump. rewrite bind_run. unfold gets at 1. cbn iota beta.
    destruct (Z.leb_spec 0 (n - 1)), (Z.ltb_spec (n - 1) (page_count (model a)));
      try lia; reflexivity.
  - unfold _on_page_jump. rewrite bind_run. unfold gets at 1. cbn iota beta.
    destruct (Z.leb_spec 0 (n - 1)), (Z.ltb_spec (n - 1) (page_count (model a)));
      try lia; reflexivity.
  - unfold _on_page_jump. rewrite bind_run. unfold gets at 1. cbn iota beta.
    destruct (Z.leb_spec 0 (n - 1)), (Z.ltb_spec (n - 1) (page_count (model a)));
      try lia; reflexivity.
Qed.

(** X15.  Selecting a row of the list shows the page of its mark: after
    [_on_tree_select] on the id of a pending mark, the current page is the
    page of that mark, and the pending marks are as before. *)
Theorem tree_select_shows_the_page_of_the_mark rid r w (a : RedactorApp) :
  find_id rid (all_redactions (model a)) = Some r ->
  current_page (model (fst (_on_tree_select (Some rid) w a))) = page_num r
  /\ app_pending (fst (_on_tree_select (Some rid) w a)) = app_pending a.
Proof.
  intros Hfind.
  remember (fst (_on_tree_select (Some rid) w a)) as a' eqn:Ha'.
  unfold _on_tree_select in Ha'. rewrite bind_run in Ha'.
  unfold gets at 1 in Ha'. cbn iota beta in Ha'. rewrite Hfind in Ha'.
  rewrite bind_run in Ha'. unfold gets at 1 in Ha'. cbn iota beta in Ha'.
  rewrite bind_run in Ha'. unfold app_pending.
  destruct (Z.eqb_spec (page_num r) (current_page (model a))) as [Heq|Hne].
  - unfold ret at 1 in Ha'. cbn iota beta in Ha'.
    pose proof (rest_select_redaction rid a) as H.
    apply app_rest_fields in H. destruct H as (_ & H2 & H3 & _).
    subst a'. split; congruence.
  - destruct (goto_page_rest (page_num r) w a) as [H1 H2].
    destruct ((on_model (set_current_page (page_num r)) ;; _refresh_page w) a)
      as [a1 [[]|e]]; simpl in H1, H2, Ha'.
    + pose proof (rest_select_redaction rid a1) as H'.
      apply app_rest_fields in H'. destruct H' as (_ & H3 & H4 & _).
      subst a'. split; congruence.
    + subst a'. now split.
Qed.
End Navigation.

(* ================================================================== *)
(** * The list of marks and the commands that remove marks *)

Section ListAndRemoval.
Context {E : Engine} {F : Float64}.

Lemma existsb_eqb_In iid (t : list string) :
  existsb (String.eqb iid) t = true <-> In iid t.
Proof.
  rewrite existsb_exists. split.
  - intros (x & Hx & Heq). apply String.eqb_eq in Heq. now subst.
  - intros H. exists iid. split; [exact H|apply String.eqb_refl].
Qed.

Lemma tree_insert_loop (rects : list RedactionRect) :
  forall a : RedactorApp,
    NoDup (tree a ++ map id rects) ->
    foldM (fun _ r => tree_insert (id r)) rects tt a
    = (set_tree (tree a ++ map id rects) a, Ok tt).
Proof.
  induction rects as [|r rects IH]; intros a Hnd; simpl.
  - rewrite app_nil_r. now destruct a.
  - rewrite bind_run. unfold tree_insert at 1.
    destruct (existsb (String.eqb (id r)) (tree a)) eqn:Hex.
    + apply existsb_eqb_In in Hex. exfalso.
      apply NoDup_remove_2 in Hnd. apply Hnd, in_or_app. now left.
    + rewrite IH; cbn [tree set_tree]; rewrite <- app_assoc; [reflexivity|].
      exact Hnd.
Qed.

Lemma tree_insert_loop_raises (rects : list RedactionRect) :
  forall a : RedactorApp,
    NoDup (tree a) ->
    ~ NoDup (tree a ++ map id rects) ->
    exists a' msg,
      foldM (fun _ r => tree_insert (id r)) rects tt a
      = (a', Raised (TclError msg)).
Proof.
  induction rects as [|r rects IH]; intros a Hnd Hdup; simpl.
  - rewrite app_nil_r in Hdup. contradiction.
  - rewrite bind_run. unfold tree_insert at 1.
    destruct (existsb (String.eqb (id r)) (tree a)) eqn:Hex.
    + now do 2 eexists.
    + apply (IH (set_tree (tree a ++ [id r]) a)); cbn [tree set_tree].
      * apply NoDup_app; [exact Hnd|repeat constructor; now intros []|].
        intros x Hx [<-|[]]. apply existsb_eqb_In in Hx. congruence.
      * rewrite <- app_assoc. exact Hdup.
Qed.

(** X16.  [_update_redaction_list] rebuilds the list with one row per pending mark,
    in the order of [all_redactions], when the ids of the marks are distinct;
    when two marks share an id, the tree view refuses the second row and the
    method raises [TclError]. *)
Theorem update_redaction_list_rows (a : RedactorApp) :
  (NoDup (map id (all_redactions (model a))) ->
   _update_redaction_list a
   = (set_tree (map id (all_redactions (model a))) a, Ok tt))
  /\ (~ NoDup (map id (all_redactions (model a))) ->
      exists a' msg, _update_redaction_list a = (a', Raised (TclError msg))).
Proof.
  unfold _update_redaction_list. rewrite bind_run. unfold modify at 1.
  cbn iota beta. rewrite bind_run. unfold gets at 1. cbn iota beta.
  cbn [model set_tree]. split; intros H.
  - rewrite tree_insert_loop; [now destruct a|exact H].
  - apply tree_insert_loop_raises; [constructor|exact H].
Qed.

Lemma right_click_misses items :
  forall a : RedactorApp,
    (forall i, In i items -> zget i (_canvas_to_rid (controller a)) = None) ->
    _on_right_click _on_redaction_change items a = (a, Ok tt).
Proof.
  induction items as [|i items IH]; intros a Hnone; [reflexivity|].
  rewrite right_click_cons, (Hnone i) by now left.
  apply IH. intros j Hj. apply Hnone. now right.
Qed.

Lemma right_click_skips pre items :
  forall a : RedactorApp,
    (forall i, In i pre -> zget i (_canvas_to_rid (controller a)) = None) ->
    _on_right_click _on_redaction_change (pre ++ items) a
    = _on_right_click _on_redaction_change items a.
Proof.
  induction pre as [|i pre IH]; intros a Hnone; [reflexivity|].
  rewrite <- app_comm_cons, right_click_cons, (Hnone i) by now left.
  apply IH. intros j Hj. apply Hnone. now right.
Qed.

(** X17.  A right click removes the mark of the first overlay under the pointer,
    and nothing else: when none of the items under the pointer is an
    overlay, the application is left as it was; otherwise the pending set
    becomes what [remove_redaction] makes of it for the id of the first item
    that is one. *)
Theorem right_click_removes_the_first_overlay pre (a : RedactorApp) :
  (forall i, In i pre -> zget i (_canvas_to_rid (controller a)) = None) ->
  _on_right_click _on_redaction_change pre a = (a, Ok tt)
  /\ forall item rid post,
       zget item (_canvas_to_rid (controller a)) = Some rid ->
       app_pending
         (fst (_on_right_click _on_redaction_change (pre ++ item :: post) a))
       = pending (snd (remove_redaction rid (model a))).
Proof.
  intros Hnone. split; [now apply right_click_misses|].
  intros item rid post Hitem.
  rewrite right_click_skips by exact Hnone.
  rewrite right_click_cons, Hitem.
  change (app_pending
            (fst ((_remove_overlay rid ;;
                   on_model (fun m => snd (remove_redaction rid m)) ;;
                   _on_redaction_change) a))
          = pending (snd (remove_redaction rid (model a)))).
  rewrite bind_run. pose proof (keeps_remove_overlay rid a) as Hk.
  pose proof (remove_overlay_returns rid a) as Hr.
  assert (Hm : model (fst (_remove_overlay rid a)) = model a).
  { unfold _remove_overlay. rewrite bind_run. unfold gets at 1. cbn iota beta.
    now destruct (sget rid (_rid_to_canvas (controller a))). }
  destruct (_remove_overlay rid a) as [a1 res]. simpl in Hk, Hr, Hm.
  subst res. rewrite bind_run. unfold on_model, modify. cbn iota beta.
  rewrite (keeps_update_redaction_list _). unfold app_pending. cbn [model set_model].
  now rewrite Hm.
Qed.

(** X18.  Removing the row selected in the list and right-clicking the overlay of
    the same mark are one operation: both leave the application in the same
    state, with the same result. *)
Theorem remove_selected_is_right_click item rid items (a : RedactorApp) :
  zget item (_canvas_to_rid (controller a)) = Some rid ->
  _on_remove_selected (Some rid) a
  = _on_right_click _on_redaction_change (item :: items) a.
Proof.
  intros Hitem. rewrite right_click_cons, Hitem.
  unfold _on_remove_selected, _remove_overlay.
  cbv [bind gets on_controller on_canvas on_model modify ret].
  cbn [controller set_model model].
  destruct (sget rid (_rid_to_canvas (controller a))); reflexivity.
Qed.
End ListAndRemoval.

(* ================================================================== *)
(** * Clearing marks and closing the document *)

Section ClearAndClose.
Context {E : Engine} {F : Float64}.

Lemma refresh_then_change_rest w :
  keeps app_rest (_refresh_page w ;; _on_redaction_change).
Proof.
  apply keeps_bind; [apply rest_refresh_page|intros _].
  apply rest_update_redaction_list.
Qed.

Lemma on_clear_page_rest w (a : RedactorApp) :
  app_rest (fst (_on_clear_page w a))
  = model_rest (snd (clear_page_redactions (current_page (model a)) (model a))).
Proof.
  unfold _on_clear_page. rewrite bind_run. unfold gets at 1. cbn iota beta.
  rewrite bind_run. unfold gets at 1. cbn iota beta.
  rewrite bind_run. unfold on_model, modify. cbn iota beta.
  destruct (fst (clear_page_redactions (current_page (model a)) (model a)) =? 0).
  - reflexivity.
  - now rewrite (refresh_then_change_rest w).
Qed.

(** X19.  [_on_clear_page] clears the current page and no other: afterwards the
    current page is the same and has no pending mark, and every other page
    has the marks it had. *)
Theorem clear_page_clears_the_current_page_only w (a : RedactorApp) :
  PyDict.wf (app_pending a) ->
  let a' := fst (_on_clear_page w a) in
  current_page (model a') = current_page (model a)
  /\ get_page_redactions (current_page (model a)) (model a') = []
  /\ forall p, p <> current_page (model a) ->
       get_page_redactions p (model a') = get_page_redactions p (model a).
Proof.
  intros Hwf a'. pose proof (on_clear_page_rest w a) as H. fold a' in H.
  unfold app_rest, model_rest, clear_page_redactions in H.
  cbn [snd file_path current_page pending is_applied set_pending] in H.
  assert (Hc : current_page (model a') = current_page (model a)) by congruence.
  assert (Hp : pending (model a')
               = zpop (current_page (model a)) (pending (model a))) by congruence.
  split; [exact Hc|]. unfold get_page_redactions, PyDict.get_default.
  rewrite Hp. split.
  - now rewrite zget_pop_same.
  - intros p Hne. rewrite zget_pop_other; [reflexivity|congruence].
Qed.

Lemma on_clear_all_run answer w (a : RedactorApp) :
  _on_clear_all answer w a
  = if has_pending (model a) && answer
    then (on_model (fun m => snd (clear_all_redactions m)) ;;
          _refresh_page w ;; _on_redaction_change) a
    else (a, Ok tt).
Proof.
  unfold _on_clear_all. rewrite bind_run. unfold gets at 1. cbn iota beta.
  now destruct (has_pending (model a)), answer.
Qed.

(** X20.  [_on_clear_all] removes every pending mark when the user confirms, and
    leaves the application as it was when the user declines. *)
Theorem clear_all_asks_first answer w (a : RedactorApp) :
  app_marks (fst (_on_clear_all answer w a))
  = (if answer : bool then [] else app_marks a)
  /\ _on_clear_all false w a = (a, Ok tt).
Proof.
  rewrite !on_clear_all_run, andb_false_r. split; [|reflexivity].
  destruct (has_pending (model a)) eqn:Hp; cbn [andb].
  - destruct answer; [|reflexivity].
    rewrite bind_run. unfold on_model, modify. cbn iota beta.
    pose proof (refresh_then_change_rest w
                  (set_model (snd (clear_all_redactions (model a))) a)) as H.
    apply app_rest_fields in H. destruct H as (_ & _ & H & _).
    unfold app_marks. now rewrite H.
  - cbn [fst]. unfold has_pending in Hp.
    rewrite redaction_count_marks in Hp. unfold app_marks.
    destruct (marks_of (pending (model a))); [now destruct answer|].
    apply Z.ltb_ge in Hp. cbn [List.length] in Hp. lia.
Qed.

(** X21.  [_on_close_doc] forgets the document: unless marks are pending and the
    user declines, the method returns with the model as when it was built,
    the cache empty, no item on the canvas, no overlay known to the
    controller and no row in the list; when the user declines, the
    application is left as it was. *)
Theorem close_doc_resets_the_application answer (a : RedactorApp) :
  _on_close_doc answer a
  = if has_pending (model a) && negb answer then (a, Ok tt)
    else (mkRedactorApp RedactionModel_init PDFRenderer_init
            (mkCanvas (next_item (canvas a)) [])
            (set_selected_rid None (set_rid_maps [] [] (controller a)))
            [] (events a),
          Ok tt).
Proof.
  unfold _on_close_doc. rewrite bind_run. unfold gets at 1. cbn iota beta.
  destruct (has_pending (model a) && negb answer); reflexivity.
Qed.
End ClearAndClose.

(* ================================================================== *)
(** * Searching from the window *)

Section SearchCommand.
Context {E : Engine} {F : Float64}.

Lemma marked_hits_nil text (m : RedactionModel) : marked_hits text [] m m.
Proof.
  unfold marked_hits. repeat split; try tauto.
  - simpl. lia.
  - intros p rect [].
Qed.

Lemma marked_hits_add text uid p rect (m : RedactionModel) :
  marked_hits text [(p, rect)] m
    (add_redaction (create uid p rect "search" text) m).
Proof.
  set (r := create uid p rect "search" text).
  destruct (add_other_fields r m) as (H1 & H2 & H3 & H4).
  destruct (marks_add r m) as (before & after & Hb & Ha).
  unfold marked_hits. rewrite H1, H2, H3, H4, redaction_count_add, Hb, Ha.
  repeat split.
  - intros x Hx. apply in_app_or in Hx. apply in_or_app. simpl. tauto.
  - intros x Hx. apply in_app_or in Hx. destruct Hx as [Hx|[<-|Hx]].
    + left. apply in_or_app. now left.
    + right. simpl. tauto.
    + left. apply in_or_app. now right.
  - intros q rect' [Heq|[]]. inversion Heq; subst q rect'.
    exists r. split; [apply in_or_app; simpl; tauto|now simpl].
Qed.

Lemma marked_hits_app text hs1 hs2 (m m1 m2 : RedactionModel) :
  marked_hits text hs1 m m1 -> marked_hits text hs2 m1 m2 ->
  marked_hits text (hs1 ++ hs2) m m2.
Proof.
  intros (A1 & A2 & A3 & A4 & A5 & A6 & A7 & A8)
         (B1 & B2 & B3 & B4 & B5 & B6 & B7 & B8).
  unfold marked_hits. repeat split; try congruence.
  - rewrite B5, A5, length_app. lia.
  - auto.
  - intros r Hr. destruct (B7 r Hr) as [Hr1|(S1 & S2 & S3)].
    + destruct (A7 r Hr1) as [Hr0|(S1 & S2 & S3)]; [now left|].
      right. repeat split; try assumption. apply in_or_app. now left.
    + right. repeat split; try assumption. apply in_or_app. now right.
  - intros p rect Hin. apply in_app_or in Hin. destruct Hin as [Hin|Hin].
    + destruct (A8 p rect Hin) as (r & Hr & Hrest). exists r. split; auto.
    + exact (B8 p rect Hin).
Qed.

(** The inner loop of [_on_search]: the hits of one page. *)
Lemma mark_hits_run text fresh p quads :
  forall k (a : RedactorApp),
    exists m' k',
      mark_hits text fresh k (p, quads) a = (set_model m' a, Ok k')
      /\ marked_hits text (map (pair p) quads) (model a) m'.
Proof.
  unfold mark_hits.
  induction quads as [|rect quads IH]; intros k a.
  - exists (model a), k. split; [now destruct a|apply marked_hits_nil].
  - cbn [foldM map]. rewrite bind_run.
    destruct (IH (S k)
                (set_model (add_redaction (create (fresh k) p rect "search" text)
                              (model a)) a)) as (m' & k' & Hrun & Hm).
    exists m', k'. split.
    + cbv [bind on_model modify ret] in Hrun |- *. cbn iota beta in Hrun |- *.
      exact Hrun.
    + exact (marked_hits_app text [(p, rect)] _ _ _ _
               (marked_hits_add text (fresh k) p rect (model a)) Hm).
Qed.

(** Its outer loop: the pages with hits. *)
Lemma mark_all_hits_run text fresh results :
  forall k (a : RedactorApp),
    exists m' k',
      foldM (mark_hits text fresh) results k a = (set_model m' a, Ok k')
      /\ marked_hits text (hits_of results) (model a) m'.
Proof.
  induction results as [|[p quads] results IH]; intros k a.
  - exists (model a), k. split; [now destruct a|apply marked_hits_nil].
  - cbn [foldM]. rewrite bind_run.
    destruct (mark_hits_run text fresh p quads k a) as (m1 & k1 & Hrun1 & Hm1).
    rewrite Hrun1.
    destruct (IH k1 (set_model m1 a)) as (m2 & k2 & Hrun2 & Hm2).
    rewrite Hrun2. exists m2, k2. split; [reflexivity|].
    exact (marked_hits_app _ _ _ _ _ _ Hm1 Hm2).
Qed.

Lemma hits_of_length (results : PyDict.dict Z (list Rect)) :
  List.length (hits_of results)
  = List.length (List.concat (PyDict.values results)).
Proof.
  induction results as [|[p quads] results IH]; [reflexivity|].
  unfold hits_of, PyDict.values in *. cbn [flat_map map List.concat fst snd].
  now rewrite !length_app, length_map, IH.
Qed.

Lemma hits_of_In (results : PyDict.dict Z (list Rect)) p rect :
  In (p, rect) (hits_of results)
  <-> exists quads, In (p, quads) results /\ In rect quads.
Proof.
  unfold hits_of. rewrite in_flat_map. split.
  - intros ([q quads] & Hitem & Hin). cbn [fst snd] in Hin.
    apply in_map_iff in Hin. destruct Hin as (x & Heq & Hx).
    inversion Heq; subst. now exists quads.
  - intros (quads & Hitem & Hin). exists (p, quads). split; [exact Hitem|].
    cbn [fst snd]. now apply in_map.
Qed.

Lemma py_min_list_least others :
  forall first,
    In (py_min_list first others) (first :: others)
    /\ forall k, In k (first :: others) -> py_min_list first others <= k.
Proof.
  unfold py_min_list.
  induction others as [|x others IH]; intros first; cbn [fold_left].
  - split; [now left|]. intros k [<-|[]]. lia.
  - destruct (IH (if x <? first then x else first)) as [Hin Hle].
    split.
    + destruct Hin as [Hin|Hin]; [|now right; right].
      rewrite <- Hin. destruct (x <? first); simpl; tauto.
    + intros k Hk.
      assert (Hm : (if x <? first then x else first) <= first
                   /\ (if x <? first then x else first) <= x)
        by (destruct (Z.ltb_spec x first); lia).
      specialize (Hle _ (or_introl eq_refl)) as Hle0.
      destruct Hk as [<-|[<-|Hk]]; [lia|lia|].
      apply Hle. now right.
Qed.

(** X22.  A search from the window marks every hit, and shows the first page that
    has one.  When [search_text] returns, then after [_on_search] (whether or
    not the page could be displayed) the marks that were pending still are,
    there is one new mark for each hit and no other, each of them a "search"
    mark for the text searched, on the page and rectangle of its hit; and if
    there are hits, the current page is the smallest page number that has
    one. *)
Theorem search_marks_every_hit text fresh w (a : RedactorApp) m1 results :
  doc_truthy (model a) = true ->
  text <> "" ->
  search_text text (model a) = (m1, Ok results) ->
  let a' := fst (_on_search text fresh w a) in
  redaction_count (model a')
  = redaction_count (model a)
    + Z.of_nat (List.length (List.concat (PyDict.values results)))
  /\ (forall r, In r (app_marks a) -> In r (app_marks a'))
  /\ (forall r, In r (app_marks a') ->
        In r (app_marks a)
        \/ (source r = "search" /\ search_term r = text
            /\ exists hits, In (page_num r, hits) results
                            /\ In (pdf_rect r) hits))
  /\ (forall p hits rect, In (p, hits) results -> In rect hits ->
        exists r, In r (app_marks a')
                  /\ page_num r = p /\ pdf_rect r = rect
                  /\ source r = "search" /\ search_term r = text)
  /\ (results <> [] ->
      In (current_page (model a')) (PyDict.keys results)
      /\ forall k, In k (PyDict.keys results) -> current_page (model a') <= k).
Proof.
  intros Hdoc Htext Hsearch a'.
  assert (Hrest : model_rest m1 = model_rest (model a)).
  { pose proof (rest_search_text text (model a)) as H. now rewrite Hsearch in H. }
  assert (Hp1 : pending m1 = pending (model a))
    by (unfold model_rest in Hrest; congruence).
  assert (Hshape :
            exists m',
              marked_hits text (hits_of results) m1 m'
              /\ pending (model a') = pending m'
              /\ (results <> [] ->
                  In (current_page (model a')) (PyDict.keys results)
                  /\ forall k, In k (PyDict.keys results) ->
                               current_page (model a') <= k)).
  { assert (Ha' : a' = fst (_on_search text fresh w a)) by reflexivity.
    clearbody a'. unfold _on_search in Ha'. rewrite bind_run in Ha'.
    unfold gets at 1 in Ha'. cbn iota beta in Ha'. rewrite Hdoc in Ha'.
    cbn [negb] in Ha'.
    destruct (String.eqb_spec text ""); [contradiction|].
    rewrite bind_run in Ha'. unfold zoom at 1 in Ha'. rewrite Hsearch in Ha'.
    destruct results as [|[first quads] others].
    - subst a'. exists m1. split; [apply marked_hits_nil|].
      split; [reflexivity|]. now intros H.
    - rewrite bind_run in Ha'.
      destruct (mark_all_hits_run text fresh ((first, quads) :: others) 0%nat
                  (set_model m1 a)) as (m2 & k2 & Hrun & Hm).
      rewrite Hrun in Ha'. exists m2. split; [exact Hm|].
      rewrite bind_run in Ha'. unfold on_model, modify in Ha'.
      cbn iota beta in Ha'.
      match type of Ha' with
      | _ = fst ((_update_redaction_list ;; _refresh_page w) ?s) =>
          assert (Hk : app_rest (fst ((_update_redaction_list ;; _refresh_page w) s))
                       = app_rest s)
            by (apply keeps_bind;
                [apply rest_update_redaction_list|intros _; apply rest_refresh_page])
      end.
      rewrite <- Ha' in Hk. apply app_rest_fields in Hk.
      destruct Hk as (_ & Hc & Hp & _). rewrite Hc, Hp.
      cbn [model set_model current_page pending set_current_page].
      split; [reflexivity|]. intros _.
      change (PyDict.keys ((first, quads) :: others))
        with (first :: PyDict.keys others).
      apply py_min_list_least. }
  destruct Hshape as (m' & Hm & Hp & Hmin).
  destruct Hm as (_ & _ & _ & _ & Hcount & Hold & Hnew & Hall).
  unfold app_marks. rewrite Hp, <- Hp1.
  repeat split.
  - rewrite (redaction_count_pending (model a') m' Hp), Hcount.
    rewrite (redaction_count_pending m1 (model a) Hp1), hits_of_length.
    reflexivity.
  - exact Hold.
  - intros r Hr. destruct (Hnew r Hr) as [H|(S1 & S2 & S3)]; [now left|].
    right. repeat split; try assumption. now apply hits_of_In.
  - intros p hits rect Hitem Hin. apply Hall. apply hits_of_In. now exists hits.
  - now apply Hmin.
  - now apply Hmin.
Qed.
End SearchCommand.

(* ================================================================== *)
(** * Applying and opening from the window *)

Section FrameData.
Context {E : Engine} {F : Float64}.

Lemma data_on_canvas f : keeps app_data (on_canvas f).
Proof. intros a. reflexivity. Qed.

Lemma data_on_controller f : keeps app_data (on_controller f).
Proof. intros a. reflexivity. Qed.

Lemma data_set_tree t : keeps app_data (modify (set_tree t)).
Proof. intros a. reflexivity. Qed.

Lemma data_log ev : keeps app_data (modify (log ev)).
Proof. intros a. reflexivity. Qed.

Lemma data_create_item coords tags : keeps app_data (create_item coords tags).
Proof.
  intros a. unfold create_item. now destruct (canvas_create coords tags (canvas a)).
Qed.

Lemma data_tree_insert iid : keeps app_data (tree_insert iid).
Proof.
  intros a. unfold tree_insert. now destruct (existsb (String.eqb iid) (tree a)).
Qed.

Lemma data_true_div x y : keeps app_data (true_div x y).
Proof. intros a. unfold true_div. now destruct (y =? 0). Qed.
End FrameData.

Create HintDb data.

#[export] Hint Resolve keeps_ret keeps_raise keeps_gets keeps_lift
  data_on_canvas data_on_controller data_set_tree data_log data_create_item
  data_tree_insert data_true_div : data.

Section ApplyAndOpen.
Context {E : Engine} {F : Float64}.

Lemma data_draw_overlay r : keeps app_data (_draw_overlay r).
Proof.
  unfold _draw_overlay. apply keeps_bind; [auto with data|intros c].
  destruct (pdf_rect r) as [[[r0 r1] r2] r3].
  destruct (pdf_to_canvas c r0 r1), (pdf_to_canvas c r2 r3).
  repeat (apply keeps_bind; [auto with data|intros ?]). auto with data.
Qed.

Lemma data_draw_all_overlays p : keeps app_data (draw_all_overlays p).
Proof.
  unfold draw_all_overlays. apply keeps_bind; [auto with data|intros rects].
  apply keeps_foldM. intros acc r.
  apply keeps_bind; [apply data_draw_overlay|auto with data].
Qed.

Lemma data_update_redaction_list : keeps app_data _update_redaction_list.
Proof.
  unfold _update_redaction_list.
  apply keeps_bind; [auto with data|intros _].
  apply keeps_bind; [auto with data|intros rects].
  apply keeps_foldM. auto with data.
Qed.

(** What [display_page] does to the model and to the renderer, whether it
    returns or raises: the page is fetched, and rendered if it could be. *)
Lemma display_page_data page_num fit_width winfo_width (a : RedactorApp) :
  doc_truthy (model a) = true ->
  app_data (fst (display_page page_num fit_width winfo_width a))
  = match get_page page_num (model a) with
    | (m1, Ok page) => (m1, fst (render_page page page_num (renderer a)))
    | (m1, Raised _) => (m1, renderer a)
    end.
Proof.
  intros Hdoc. unfold display_page. rewrite bind_run. unfold gets at 1.
  cbn iota beta. rewrite Hdoc. cbn [negb]. rewrite bind_run. unfold zoom at 1.
  destruct (get_page page_num (model a)) as [m1 [page|e]]; [|reflexivity].
  rewrite bind_run. unfold zoom at 1. cbn [renderer set_model].
  destruct (render_page page page_num (renderer a)) as [r1 [pil_image|e]];
    [|reflexivity].
  cbn [fst].
  match goal with
  | |- app_data (fst (?c ?s)) = _ => assert (K : keeps app_data c)
  end.
  { apply keeps_bind; [auto with data|intros _].
    apply keeps_bind; [auto with data|intros display_scale].
    do 7 (apply keeps_bind; [auto with data|intros ?]).
    apply data_draw_all_overlays. }
  now rewrite K.
Qed.

Lemma get_page_outcome p (m : RedactionModel) :
  doc_truthy m = true ->
  exists d d',
    doc m = Some d
    /\ (get_page p m = (set_doc (Some d') m, Ok (d', p))
        \/ exists e, get_page p m = (set_doc (Some d') m, Raised e)).
Proof.
  unfold doc_truthy, get_page, with_doc, on_doc. intros Hdoc.
  destruct (doc m) as [d|]; [|discriminate].
  rewrite bind_run. destruct (doc_getitem p d) as [d' [[]|e]].
  - exists d, d'. split; [reflexivity|]. now left.
  - exists d, d'. split; [reflexivity|]. right. now exists e.
Qed.

(** Displaying the current page from an empty cache leaves in the cache at
    most the image of that page, as the document is now. *)
Lemma refresh_page_from_empty_cache w (a : RedactorApp) :
  _cache (renderer a) = [] ->
  cache_is_current (fst (_refresh_page w a))
  /\ app_rest (fst (_refresh_page w a)) = app_rest a.
Proof.
  intros Hempty. split; [|apply rest_refresh_page].
  unfold _refresh_page. rewrite bind_run. unfold gets at 1. cbn iota beta.
  destruct (doc_truthy (model a)) eqn:Hdoc; cbn [negb].
  - rewrite bind_run. unfold gets at 1. cbn iota beta.
    pose proof (display_page_data (current_page (model a)) None w a Hdoc) as H.
    destruct (get_page_outcome (current_page (model a)) (model a) Hdoc)
      as (d & d' & Hd & [Hget|[e Hget]]); rewrite Hget in H.
    + rewrite render_page_miss in H by now rewrite Hempty.
      cbn [fst snd] in H. rewrite Hempty in H. cbn [app] in H.
      unfold app_data in H. intros p img Hin.
      destruct (get_pixmap d' (current_page (model a))) as [img'|e] eqn:Hpix;
        inversion H as [[Hm Hr]]; rewrite Hr in Hin; cbn in Hin.
      * destruct Hin as [Heq|[]]. inversion Heq; subst p img'.
        rewrite Hm. cbn [current_page set_doc doc]. split; [reflexivity|].
        exists d'. now split.
      * rewrite Hempty in Hin. contradiction.
    + unfold app_data in H. inversion H as [[Hm Hr]].
      intros p img Hin. rewrite Hr, Hempty in Hin. contradiction.
  - intros p img Hin. cbn [fst ret] in Hin. rewrite Hempty in Hin. contradiction.
Qed.

Lemma cache_is_current_data (a a' : RedactorApp) :
  app_data a' = app_data a -> cache_is_current a -> cache_is_current a'.
Proof.
  unfold app_data, cache_is_current. intros H. inversion H as [[Hm Hr]].
  now rewrite Hm, Hr.
Qed.

(** X23.  When [apply_redactions] returns, [_do_apply] leaves no mark pending, the
    model marked as applied, and no image from before the redaction: whatever
    is in the cache has been rendered from the document as it now is. *)
Theorem do_apply_renders_afresh w (a : RedactorApp) m1 count :
  apply_redactions (model a) = (m1, Ok count) ->
  let a' := fst (_do_apply w a) in
  app_pending a' = [] /\ is_applied (model a') = true /\ cache_is_current a'.
Proof.
  intros Happly a'.
  pose proof (apply_redactions_outcome (model a)) as Hout.
  rewrite Happly in Hout. destruct Hout as (Hp & Hi & _).
  assert (Ha' : a' = fst (_do_apply w a)) by reflexivity. clearbody a'.
  unfold _do_apply, try_except in Ha'. rewrite bind_run in Ha'.
  unfold modify at 1 in Ha'. cbn iota beta in Ha'. rewrite bind_run in Ha'.
  unfold zoom at 1 in Ha'. cbn [model log] in Ha'. rewrite Happly in Ha'.
  rewrite bind_run in Ha'. unfold on_renderer at 1, modify at 1 in Ha'.
  cbn iota beta in Ha'. rewrite bind_run in Ha'.
  match type of Ha' with
  | context [_refresh_page w ?s] =>
      destruct (refresh_page_from_empty_cache w s eq_refl) as [Hc Hr];
        apply app_rest_fields in Hr; destruct Hr as (_ & _ & Hr3 & Hr4);
        cbn [model set_renderer set_model] in Hr3, Hr4;
        destruct (_refresh_page w s) as [a1 [[]|e]]
  end; cbn [fst] in Hc, Hr3, Hr4.
  - assert (Hd : app_data a' = app_data a1).
    { rewrite <- (data_update_redaction_list a1).
      destruct (_update_redaction_list a1) as [a2 [[]|e]]; now subst a'. }
    assert (Hrest : app_rest a' = app_rest a1).
    { rewrite <- (rest_update_redaction_list a1).
      destruct (_update_redaction_list a1) as [a2 [[]|e]]; now subst a'. }
    apply app_rest_fields in Hrest. destruct Hrest as (_ & _ & H3 & H4).
    unfold app_pending. rewrite H3, H4, Hr3, Hr4.
    split; [exact Hp|]. split; [exact Hi|].
    now apply (cache_is_current_data a1).
  - subst a'. unfold app_pending. cbn [fst modify model log renderer].
    split; [congruence|]. split; [congruence|]. exact Hc.
Qed.

Lemma open_document_returns path (m m1 : RedactionModel) :
  open_document path m = (m1, Ok tt) ->
  exists d, m1 = mkRedactionModel (Some d) (Some path) 0 [] false.
Proof.
  unfold open_document, close_document. cbv [bind modify].
  destruct (fitz_open path) as [d|e]; [|discriminate].
  intros H. inversion H. now exists d.
Qed.

(** X24.  When [open_document] returns, [_on_open] starts afresh: the new file is
    open at its first page with no mark pending and nothing applied, and
    whatever is in the cache has been rendered from the new document. *)
Theorem open_starts_afresh path w (a : RedactorApp) m1 :
  path <> "" ->
  open_document path (model a) = (m1, Ok tt) ->
  let a' := fst (_on_open path w a) in
  file_path (model a') = Some path /\ current_page (model a') = 0
  /\ app_pending a' = [] /\ is_applied (model a') = false
  /\ cache_is_current a'.
Proof.
  intros Hpath Hopen a'.
  destruct (open_document_returns _ _ _ Hopen) as [d Hm1].
  assert (Ha' : a' = fst (_on_open path w a)) by reflexivity. clearbody a'.
  unfold _on_open in Ha'. destruct (String.eqb_spec path ""); [contradiction|].
  unfold try_except in Ha'. rewrite bind_run in Ha'.
  unfold modify at 1 in Ha'. cbn iota beta in Ha'. rewrite bind_run in Ha'.
  unfold zoom at 1 in Ha'. cbn [model log] in Ha'. rewrite Hopen in Ha'.
  rewrite bind_run in Ha'. unfold on_renderer at 1, modify at 1 in Ha'.
  cbn iota beta in Ha'. rewrite bind_run in Ha'.
  match type of Ha' with
  | context [_update_redaction_list ?s] =>
      pose proof (data_update_redaction_list s) as Hd;
        pose proof (rest_update_redaction_list s) as Hr;
        destruct (_update_redaction_list s) as [a1 [[]|e]]
  end; cbn [fst] in Hd, Hr; unfold app_data in Hd;
    cbn [model renderer set_renderer set_model invalidate _cache PyDict.clear]
      in Hd, Hr;
    inversion Hd as [[Hdm Hdr]]; unfold app_pending.
  - assert (Hempty : _cache (renderer a1) = []) by now rewrite Hdr.
    destruct (refresh_page_from_empty_cache w a1 Hempty) as [Hc Hr'].
    assert (Ha1 : app_data a' = app_data (fst (_refresh_page w a1))
                  /\ app_rest a' = app_rest (fst (_refresh_page w a1)))
      by (destruct (_refresh_page w a1) as [a2 [[]|e]]; now subst a').
    destruct Ha1 as [Hd1 Hr1]. rewrite Hr' in Hr1. apply app_rest_fields in Hr1.
    destruct Hr1 as (H1 & H2 & H3 & H4). rewrite H1, H2, H3, H4, Hdm, Hm1.
    do 4 (split; [reflexivity|]).
    exact (cache_is_current_data _ _ Hd1 Hc).
  - subst a'. cbn [fst modify model log renderer]. rewrite Hdm, Hm1.
    do 4 (split; [reflexivity|]). intros p img Hin.
    cbn [renderer log] in Hin. rewrite Hdr in Hin. contradiction.
Qed.
End ApplyAndOpen.

(* ================================================================== *)
(** * Saving from the window *)

Section SaveCommand.
Context {E : Engine} {F : Float64}.

Lemma on_save_rest answer path w :
  answer <> Some true -> keeps app_rest (_on_save answer path w).
Proof.
  intros Hanswer. unfold _on_save.
  apply keeps_bind; [auto with rest|intros has_doc].
  destruct (negb has_doc); [auto with rest|].
  apply keeps_bind; [auto with rest|intros pending].
  assert (Hsave : keeps app_rest
            (if String.eqb path "" then ret tt else
             try_except
               (modify (log (call_save_document path)) ;;
                zoom model set_model (save_document path) ;;
                modify (log (showinfo "Saved"
                               ("Redacted PDF saved to:" ++ nl ++ path)%string)))
               (fun e =>
                  modify (log (showerror "Error"
                                 ("Could not save PDF:" ++ nl ++ str e)%string))))).
  { destruct (String.eqb path ""); [auto with rest|].
    apply keeps_try_except; [|intros e; auto with rest].
    apply keeps_bind; [auto with rest|intros _].
    apply keeps_bind; [|intros _; auto with rest].
    apply rest_zoom_model, rest_save_document. }
  destruct pending; [|exact Hsave].
  destruct answer as [[|]|]; [congruence|exact Hsave|auto with rest].
Qed.

(** X25.  Saving does not touch the marks unless the user asks to apply them
    first: with any other answer the pending set, the current page and the
    applied flag are after [_on_save] what they were; and when the user
    cancels, or dismisses the file dialog, the application is left as it
    was. *)
Theorem save_alone_keeps_the_marks answer path w (a : RedactorApp) :
  answer <> Some true ->
  app_rest (fst (_on_save answer path w a)) = app_rest a
  /\ (path = "" \/ (has_pending (model a) = true /\ answer = None) ->
      _on_save answer path w a = (a, Ok tt)).
Proof.
  intros Hanswer. split; [now apply on_save_rest|].
  intros Hnoop. unfold _on_save. rewrite bind_run. unfold gets at 1.
  cbn iota beta. destruct (doc_truthy (model a)); [|reflexivity].
  cbn [negb]. rewrite bind_run. unfold gets at 1.
  cbn iota beta. destruct Hnoop as [->|[Hp ->]].
  - cbn [String.eqb].
    destruct (has_pending (model a)); [|reflexivity].
    destruct answer as [[|]|]; [congruence|reflexivity|reflexivity].
  - now rewrite Hp.
Qed.
End SaveCommand.

(* ================================================================== *)
(** * The states that the window reaches *)

Section Preserves.
Context {S : Type} (P : S -> Prop).

Lemma preserves_ret {A} (x : A) : preserves P (ret x).
Proof. intros s H. exact H. Qed.

Lemma preserves_raise {A} e : preserves P (@raise S A e).
Proof. intros s H. exact H. Qed.

Lemma preserves_gets {A} (f : S -> A) : preserves P (gets f).
Proof. intros s H. exact H. Qed.

Lemma preserves_lift {A} (x : Result A) : preserves P (fun s : S => (s, x)).
Proof. intros s H. exact H. Qed.

Lemma preserves_bind {A B} (c : M S A) (k : A -> M S B) :
  preserves P c -> (forall x, preserves P (k x)) -> preserves P (bind c k).
Proof.
  intros Hc Hk s Hs. rewrite bind_run. specialize (Hc s Hs).
  destruct (c s) as [s1 [x|e]]; simpl in Hc.
  - now apply Hk.
  - exact Hc.
Qed.

Lemma preserves_try_except {A} (c : M S A) h :
  preserves P c -> (forall e, preserves P (h e)) ->
  preserves P (try_except c h).
Proof.
  intros Hc Hh s Hs. unfold try_except. specialize (Hc s Hs).
  destruct (c s) as [s1 [x|e]]; simpl in Hc.
  - exact Hc.
  - now apply Hh.
Qed.

Lemma preserves_foldM {A B} (body : B -> A -> M S B) l :
  (forall acc x, preserves P (body acc x)) ->
  forall acc, preserves P (foldM body l acc).
Proof.
  intros Hb. induction l as [|x l IH]; intros acc; simpl.
  - apply preserves_ret.
  - apply preserves_bind; [apply Hb|exact IH].
Qed.
End Preserves.

Section StringDicts.
Context {V : Type}.
Implicit Types (d : PyDict.dict string V) (k : string) (v : V).

Lemma keys_sset k k' v d :
  In k' (PyDict.keys (sset k v d)) -> k' = k \/ In k' (PyDict.keys d).
Proof.
  induction d as [|[k0 v0] d IH]; simpl.
  - intros [<-|[]]. now left.
  - destruct (String.eqb_spec k k0) as [->|Hk]; simpl; [tauto|].
    intros [<-|H]; [tauto|]. destruct (IH H); tauto.
Qed.

Lemma wf_sset k v d : PyDict.wf d -> PyDict.wf (sset k v d).
Proof.
  unfold PyDict.wf. induction d as [|[k0 v0] d IH]; simpl; intros Hwf.
  - repeat constructor. now intros [].
  - destruct (String.eqb_spec k k0) as [->|Hk]; simpl; [exact Hwf|].
    inversion Hwf as [|? ? Hn Hd]; subst. constructor; [|now apply IH].
    intros H. apply keys_sset in H. destruct H; [congruence|contradiction].
Qed.

Lemma keys_spop k k' d :
  In k' (PyDict.keys (spop k d)) -> In k' (PyDict.keys d).
Proof.
  induction d as [|[k0 v0] d IH]; simpl; [tauto|].
  destruct (String.eqb_spec k k0) as [->|Hk]; simpl; [tauto|].
  intros [<-|H]; [tauto|]. right. now apply IH.
Qed.

Lemma wf_spop k d : PyDict.wf d -> PyDict.wf (spop k d).
Proof.
  unfold PyDict.wf. induction d as [|[k0 v0] d IH]; simpl; intros Hwf.
  - constructor.
  - inversion Hwf as [|? ? Hn Hd]; subst.
    destruct (String.eqb_spec k k0) as [->|Hk]; simpl; [exact Hd|].
    constructor; [|now apply IH]. intros H. now apply keys_spop in H.
Qed.

Lemma sget_notin k d : ~ In k (PyDict.keys d) -> sget k d = None.
Proof.
  induction d as [|[k0 v0] d IH]; simpl; [reflexivity|]. intros Hn.
  destruct (String.eqb_spec k k0) as [->|Hk]; [tauto|]. apply IH. tauto.
Qed.

Lemma sget_pop_same k d : PyDict.wf d -> sget k (spop k d) = None.
Proof.
  unfold PyDict.wf. induction d as [|[k0 v0] d IH]; simpl; intros Hwf.
  - reflexivity.
  - inversion Hwf as [|? ? Hn Hd]; subst.
    destruct (String.eqb_spec k k0) as [->|Hk]; simpl.
    + now apply sget_notin.
    + destruct (String.eqb_spec k k0); [congruence|now apply IH].
Qed.

Lemma sget_pop_other k k' d : k <> k' -> sget k' (spop k d) = sget k' d.
Proof.
  intros Hne. induction d as [|[k0 v0] d IH]; simpl; [reflexivity|].
  destruct (String.eqb_spec k k0) as [->|Hk].
  - destruct (String.eqb_spec k' k0); [congruence|reflexivity].
  - simpl. now rewrite IH.
Qed.
End StringDicts.

Section ItemDicts.
Context {V : Type}.
Implicit Types (d : PyDict.dict Z V) (k : Z) (v : V).

Lemma keys_zset k k' v d :
  In k' (PyDict.keys (zset k v d)) -> k' = k \/ In k' (PyDict.keys d).
Proof.
  induction d as [|[k0 v0] d IH]; simpl.
  - intros [<-|[]]. now left.
  - destruct (Z.eqb_spec k k0) as [->|Hk]; simpl; [tauto|].
    intros [<-|H]; [tauto|]. destruct (IH H); tauto.
Qed.

Lemma keys_zpop k k' d :
  In k' (PyDict.keys (zpop k d)) -> In k' (PyDict.keys d).
Proof.
  induction d as [|[k0 v0] d IH]; simpl; [tauto|].
  destruct (Z.eqb_spec k k0) as [->|Hk]; simpl; [tauto|].
  intros [<-|H]; [tauto|]. right. now apply IH.
Qed.
End ItemDicts.

Section OverlaySteps.
Context {E : Engine} {F : Float64}.

(** A step that leaves the two maps alone and takes no item id back. *)
Lemma overlays_inv_step (a a' : RedactorApp) :
  _canvas_to_rid (controller a') = _canvas_to_rid (controller a) ->
  _rid_to_canvas (controller a') = _rid_to_canvas (controller a) ->
  next_item (canvas a) <= next_item (canvas a') ->
  overlays_inv a -> overlays_inv a'.
Proof.
  unfold overlays_inv. intros -> -> Hle (Hwf & Hagree & Hfresh).
  split; [exact Hwf|]. split; [exact Hagree|].
  intros item Hin. specialize (Hfresh item Hin). lia.
Qed.

Lemma pres_on_model f : preserves overlays_inv (on_model f).
Proof. intros a. apply overlays_inv_step; simpl; (reflexivity || lia). Qed.

Lemma pres_on_renderer f : preserves overlays_inv (on_renderer f).
Proof. intros a. apply overlays_inv_step; simpl; (reflexivity || lia). Qed.

Lemma pres_zoom_model {A} (c : M RedactionModel A) :
  preserves overlays_inv (zoom model set_model c).
Proof.
  intros a. unfold zoom. destruct (c (model a)).
  apply overlays_inv_step; simpl; (reflexivity || lia).
Qed.

Lemma pres_zoom_renderer {A} (c : M PDFRenderer A) :
  preserves overlays_inv (zoom renderer set_renderer c).
Proof.
  intros a. unfold zoom. destruct (c (renderer a)).
  apply overlays_inv_step; simpl; (reflexivity || lia).
Qed.

Lemma pres_set_tree t : preserves overlays_inv (modify (set_tree t)).
Proof. intros a. apply overlays_inv_step; simpl; (reflexivity || lia). Qed.

Lemma pres_log ev : preserves overlays_inv (modify (log ev)).
Proof. intros a. apply overlays_inv_step; simpl; (reflexivity || lia). Qed.

Lemma pres_tree_insert iid : preserves overlays_inv (tree_insert iid).
Proof.
  intros a. unfold tree_insert. destruct (existsb (String.eqb iid) (tree a));
    apply overlays_inv_step; simpl; (reflexivity || lia).
Qed.

Lemma pres_true_div x y : preserves overlays_inv (true_div x y).
Proof. intros a. unfold true_div. now destruct (y =? 0). Qed.

Lemma pres_unpack_draw_start : preserves overlays_inv unpack_draw_start.
Proof.
  intros a. unfold unpack_draw_start. now destruct (_draw_start (controller a)).
Qed.

Lemma pres_create_item coords tags :
  preserves overlays_inv (create_item coords tags).
Proof.
  intros a. unfold create_item, canvas_create.
  apply overlays_inv_step; simpl; (reflexivity || lia).
Qed.

Lemma pres_canvas_delete item :
  preserves overlays_inv (on_canvas (canvas_delete item)).
Proof. intros a. apply overlays_inv_step; simpl; (reflexivity || lia). Qed.

Lemma pres_canvas_delete_tag tag :
  preserves overlays_inv (on_canvas (canvas_delete_tag tag)).
Proof. intros a. apply overlays_inv_step; simpl; (reflexivity || lia). Qed.

Lemma pres_canvas_coords item coords :
  preserves overlays_inv (on_canvas (canvas_coords item coords)).
Proof.
  intros a. apply overlays_inv_step; simpl; try reflexivity.
  unfold canvas_coords. destruct (zget item (canvas_items (canvas a))); simpl; lia.
Qed.

(** A change of a field of the controller other than its two maps. *)
Lemma pres_on_controller f :
  (forall c, _canvas_to_rid (f c) = _canvas_to_rid c) ->
  (forall c, _rid_to_canvas (f c) = _rid_to_canvas c) ->
  preserves overlays_inv (on_controller f).
Proof.
  intros H1 H2 a. apply overlays_inv_step; simpl; auto. lia.
Qed.

Lemma pres_reset_maps :
  preserves overlays_inv (on_controller (set_rid_maps [] [])).
Proof.
  intros a _. unfold overlays_inv. simpl. split; [constructor|].
  split; [discriminate|]. now intros item [].
Qed.

Lemma pres_draw_overlay r : preserves overlays_inv (_draw_overlay r).
Proof.
  intros a (Hwf & Hagree & Hfresh). rewrite draw_overlay_run. cbn [fst].
  destruct (overlay_drawn_fields r a) as (_ & _ & _ & _ & Hn & Hc & Hr).
  unfold overlays_inv. rewrite Hn, Hc, Hr. split; [now apply wf_sset|]. split.
  - intros rid item Hget. destruct (String.eqb_spec (id r) rid) as [<-|Hne].
    + rewrite sget_set_same in Hget. injection Hget as <-.
      apply zget_set_same.
    + rewrite sget_set_other in Hget by exact Hne.
      pose proof (Hagree _ _ Hget) as Hitem.
      rewrite zget_set_other; [exact Hitem|].
      apply zget_Some_in, Hfresh in Hitem. lia.
  - intros item Hin. apply keys_zset in Hin.
    destruct Hin as [->|Hin]; [lia|]. specialize (Hfresh _ Hin). lia.
Qed.

Lemma pres_remove_overlay rid : preserves overlays_inv (_remove_overlay rid).
Proof.
  intros a (Hwf & Hagree & Hfresh). unfold _remove_overlay.
  rewrite bind_run. unfold gets at 1. cbn iota beta.
  destruct (sget rid (_rid_to_canvas (controller a))) as [item|] eqn:Hrid;
    [|now repeat split].
  cbv [bind on_controller on_canvas modify]. cbn [fst]. unfold overlays_inv.
  cbn [controller canvas set_canvas set_controller set_rid_maps
       _canvas_to_rid _rid_to_canvas canvas_delete next_item].
  split; [now apply wf_spop|]. split.
  - intros rid' item' Hget.
    destruct (String.eqb_spec rid rid') as [<-|Hne].
    + rewrite sget_pop_same in Hget by exact Hwf. discriminate.
    + rewrite sget_pop_other in Hget by exact Hne.
      pose proof (Hagree _ _ Hget) as Hitem'.
      rewrite zget_pop_other; [exact Hitem'|].
      intros <-. rewrite (Hagree _ _ Hrid) in Hitem'. congruence.
  - intros item' Hin. apply keys_zpop in Hin. now apply Hfresh.
Qed.
End OverlaySteps.

Create HintDb overlays.

#[export] Hint Resolve preserves_ret preserves_raise preserves_gets
  preserves_lift pres_on_model pres_on_renderer pres_zoom_model
  pres_zoom_renderer pres_set_tree pres_log pres_tree_insert pres_true_div
  pres_unpack_draw_start pres_create_item pres_canvas_delete
  pres_canvas_delete_tag pres_canvas_coords pres_reset_maps pres_draw_overlay
  pres_remove_overlay : overlays.

(** Splits a method into its steps and shows that each keeps the maps of the
    controller in agreement. *)
Ltac overlay_steps :=
  repeat first
    [ solve [auto with overlays]
    | apply pres_on_controller; [intros ?; reflexivity|intros ?; reflexivity]
    | apply preserves_bind; [|intros ?]
    | apply preserves_try_except; [|intros ?]
    | apply preserves_foldM; intros ? ?
    | match goal with
      | |- preserves _ (if ?b then _ else _) => destruct b
      | |- preserves _ (match ?x with _ => _ end) => destruct x
      end ].

Section OverlayInvariant.
Context {E : Engine} {F : Float64}.
Variable is_ValueError : Exception -> bool.

Lemma pres_update_redaction_list : preserves overlays_inv _update_redaction_list.
Proof. unfold _update_redaction_list. overlay_steps. Qed.

Lemma pres_draw_all_overlays p : preserves overlays_inv (draw_all_overlays p).
Proof. unfold draw_all_overlays. overlay_steps. Qed.

Lemma pres_display_page p fit_width w :
  preserves overlays_inv (display_page p fit_width w).
Proof.
  unfold display_page.
  apply preserves_bind; [auto with overlays|intros has_doc].
  destruct (negb has_doc); [auto with overlays|].
  do 2 (apply preserves_bind; [auto with overlays|intros ?]).
  apply preserves_bind; [overlay_steps|intros _].
  apply preserves_bind; [auto with overlays|intros display_scale].
  apply preserves_bind; [overlay_steps|intros _].
  apply preserves_bind; [auto with overlays|intros display_img].
  apply preserves_bind; [overlay_steps|intros _].
  apply preserves_bind; [auto with overlays|intros _].
  apply preserves_bind; [auto with overlays|intros _].
  apply preserves_bind; [overlay_steps|intros _].
  apply preserves_bind; [auto with overlays|intros _].
  apply pres_draw_all_overlays.
Qed.

Lemma pres_refresh_page w : preserves overlays_inv (_refresh_page w).
Proof.
  unfold _refresh_page. apply preserves_bind; [auto with overlays|intros has_doc].
  destruct (negb has_doc); [auto with overlays|].
  apply preserves_bind; [auto with overlays|intros page]. apply pres_display_page.
Qed.

Lemma pres_right_click items :
  preserves overlays_inv (_on_right_click _on_redaction_change items).
Proof.
  induction items as [|item items IH]; [apply preserves_ret|].
  intros a Ha. rewrite right_click_cons.
  destruct (zget item (_canvas_to_rid (controller a))) as [rid|];
    [|now apply IH].
  revert a Ha.
  change (preserves overlays_inv
            (_remove_overlay rid ;;
             on_model (fun m => snd (remove_redaction rid m)) ;;
             _on_redaction_change)).
  apply preserves_bind; [apply pres_remove_overlay|intros _].
  apply preserves_bind; [apply pres_on_model|intros _].
  apply pres_update_redaction_list.
Qed.

Lemma pres_perform (op : Operation) : preserves overlays_inv (perform op).
Proof.
  destruct op as [path| |redaction|rid|p| |text| |path|cx cy|cx cy|uid cx cy
                 |items|p| |rid| |p fit_width w]; cbn [perform].
  - auto with overlays.
  - auto with overlays.
  - auto with overlays.
  - auto with overlays.
  - auto with overlays.
  - auto with overlays.
  - apply preserves_bind; [auto with overlays|intros _; auto with overlays].
  - apply preserves_bind; [auto with overlays|intros _; auto with overlays].
  - auto with overlays.
  - unfold _on_press. overlay_steps.
  - unfold _on_drag. overlay_steps.
  - unfold _on_release.
    apply preserves_bind; [auto with overlays|intros drawing].
    destruct (negb drawing); [auto with overlays|].
    apply preserves_bind; [overlay_steps|intros _].
    apply preserves_bind; [auto with overlays|intros [x0 y0]].
    apply preserves_bind; [auto with overlays|intros temp].
    apply preserves_bind; [destruct temp; overlay_steps|intros _].
    cbv zeta.
    match goal with |- preserves _ (if ?b then _ else _) => destruct b end;
      [auto with overlays|].
    apply preserves_bind; [auto with overlays|intros c].
    destruct (canvas_to_pdf c (py_min x0 cx) (py_min y0 cy)).
    destruct (canvas_to_pdf c (py_max x0 cx) (py_max y0 cy)).
    apply preserves_bind; [auto with overlays|intros page].
    apply preserves_bind; [auto with overlays|intros _].
    apply preserves_bind; [auto with overlays|intros _].
    apply pres_update_redaction_list.
  - apply pres_right_click.
  - apply pres_draw_all_overlays.
  - unfold clear_overlays.
    apply preserves_bind; [auto with overlays|intros _].
    apply preserves_bind; [auto with overlays|intros _]. overlay_steps.
  - unfold select_redaction, deselect_all. overlay_steps.
  - unfold deselect_all. overlay_steps.
  - apply pres_display_page.
Qed.

Lemma pres_do_apply w : preserves overlays_inv (_do_apply w).
Proof.
  unfold _do_apply. apply preserves_try_except; [|intros e; auto with overlays].
  do 3 (apply preserves_bind; [auto with overlays|intros _]).
  apply preserves_bind; [apply pres_refresh_page|intros _].
  apply pres_update_redaction_list.
Qed.

Lemma pres_goto_page p w :
  preserves overlays_inv (on_model (set_current_page p) ;; _refresh_page w).
Proof.
  apply preserves_bind; [auto with overlays|intros _]. apply pres_refresh_page.
Qed.

Lemma pres_run (cmd : Command) (a : RedactorApp) :
  overlays_inv a -> overlays_inv (run is_ValueError cmd a).
Proof.
  destruct cmd; cbn [run]; revert a;
    match goal with
    | |- forall a, _ -> overlays_inv (fst (?c a)) =>
        change (preserves overlays_inv c)
    end.
  - apply pres_perform.
  - unfold _on_open. destruct (String.eqb path ""); [auto with overlays|].
    apply preserves_try_except; [|intros e; auto with overlays].
    do 3 (apply preserves_bind; [auto with overlays|intros _]).
    apply preserves_bind; [apply pres_update_redaction_list|intros _].
    apply pres_refresh_page.
  - unfold _on_save.
    apply preserves_bind; [auto with overlays|intros has_doc].
    destruct (negb has_doc); [auto with overlays|].
    apply preserves_bind; [auto with overlays|intros pending].
    assert (Hsave : preserves overlays_inv
              (if String.eqb path "" then ret tt else
               try_except
                 (modify (log (call_save_document path)) ;;
                  zoom model set_model (save_document path) ;;
                  modify (log (showinfo "Saved"
                                 ("Redacted PDF saved to:" ++ nl ++ path)%string)))
                 (fun e =>
                    modify (log (showerror "Error"
                                   ("Could not save PDF:" ++ nl ++ str e)%string))))).
    { destruct (String.eqb path ""); [auto with overlays|].
      apply preserves_try_except; [|intros e; auto with overlays].
      do 2 (apply preserves_bind; [auto with overlays|intros _]).
      auto with overlays. }
    destruct pending; [|exact Hsave].
    destruct answer as [[|]|]; [|exact Hsave|auto with overlays].
    apply preserves_bind; [apply pres_do_apply|intros _; exact Hsave].
  - unfold _on_close_doc.
    apply preserves_bind; [auto with overlays|intros pending].
    destruct (pending && negb answer); [auto with overlays|].
    do 3 (apply preserves_bind; [auto with overlays|intros _]).
    apply preserves_bind; [|intros _; apply pres_update_redaction_list].
    unfold clear_overlays.
    apply preserves_bind; [auto with overlays|intros _].
    apply preserves_bind; [auto with overlays|intros _]. overlay_steps.
  - unfold _prev_page.
    apply preserves_bind; [auto with overlays|intros page].
    destruct (0 <? page); [apply pres_goto_page|auto with overlays].
  - unfold _next_page.
    apply preserves_bind; [auto with overlays|intros page].
    apply preserves_bind; [auto with overlays|intros count].
    destruct (page <? count - 1); [apply pres_goto_page|auto with overlays].
  - intros a Ha. destruct entry as [n|]; [|exact Ha].
    rewrite page_jump_state.
    destruct ((0 <=? n - 1) && (n - 1 <? page_count (model a))); [|exact Ha].
    now apply pres_goto_page.
  - unfold _do_resize.
    apply preserves_bind; [auto with overlays|intros has_doc].
    destruct has_doc; [apply pres_refresh_page|auto with overlays].
  - unfold _on_search.
    apply preserves_bind; [auto with overlays|intros has_doc].
    destruct (negb has_doc); [auto with overlays|].
    destruct (String.eqb text ""); [auto with overlays|].
    apply preserves_bind; [auto with overlays|intros results].
    destruct results as [|[first quads] others]; [auto with overlays|].
    apply preserves_bind.
    { apply preserves_foldM. intros k [p hits]. unfold mark_hits.
      apply preserves_foldM. intros k' rect.
      apply preserves_bind; [auto with overlays|intros _; auto with overlays]. }
    intros _. apply preserves_bind; [auto with overlays|intros _].
    apply preserves_bind; [apply pres_update_redaction_list|intros _].
    apply pres_refresh_page.
  - unfold _on_tree_select. destruct selection as [rid|]; [|auto with overlays].
    apply preserves_bind; [auto with overlays|intros rects].
    destruct (find_id rid rects); [|auto with overlays].
    apply preserves_bind; [auto with overlays|intros page].
    apply preserves_bind.
    { destruct (page_num r =? page); [auto with overlays|apply pres_goto_page]. }
    intros _. unfold select_redaction, deselect_all. overlay_steps.
  - unfold _on_remove_selected. destruct selection as [rid|]; [|auto with overlays].
    apply preserves_bind; [auto with overlays|intros _].
    apply preserves_bind; [apply pres_remove_overlay|intros _].
    apply pres_update_redaction_list.
  - unfold _on_clear_page.
    do 3 (apply preserves_bind; [auto with overlays|intros ?]).
    match goal with |- preserves _ (if ?b then _ else _) => destruct b end;
      [auto with overlays|].
    apply preserves_bind; [apply pres_refresh_page|intros _].
    apply pres_update_redaction_list.
  - unfold _on_clear_all.
    apply preserves_bind; [auto with overlays|intros pending].
    destruct (negb pending); [auto with overlays|].
    destruct (negb answer); [auto with overlays|].
    apply preserves_bind; [auto with overlays|intros _].
    apply preserves_bind; [apply pres_refresh_page|intros _].
    apply pres_update_redaction_list.
  - unfold _on_apply.
    apply preserves_bind; [auto with overlays|intros pending].
    destruct (negb pending); [auto with overlays|].
    destruct (negb answer); [auto with overlays|apply pres_do_apply].
Qed.

(** X26.  In every state that the window reaches, the two maps of the controller
    agree: whatever the commands given and the events on the canvas, and
    whether or not they fail, no mark id is registered twice, the canvas item
    registered for a mark id is registered for that mark, and every item
    registered has been handed out by the canvas, so that no new item takes
    its number. *)
Theorem overlay_maps_always_agree (cmds : list Command) :
  overlays_inv (app_after_commands is_ValueError cmds).
Proof.
  unfold app_after_commands.
  assert (H : forall a : RedactorApp,
            overlays_inv a ->
            overlays_inv (fold_left (fun a cmd => run is_ValueError cmd a) cmds a)).
  { induction cmds as [|cmd cmds IH]; intros a Ha; [exact Ha|].
    simpl. apply IH. now apply pres_run. }
  apply H. unfold overlays_inv. simpl. split; [constructor|].
  split; [discriminate|]. now intros item [].
Qed.
End OverlayInvariant.

Section PendingInvariant.
Context {E : Engine} {F : Float64}.
Variable is_ValueError : Exception -> bool.

Lemma ok_keeps {A} (c : M RedactorApp A) :
  keeps app_pending c -> preserves pending_ok c.
Proof. intros Hc a Ha. unfold pending_ok. now rewrite Hc. Qed.

Lemma ok_on_model f :
  (forall m : RedactionModel,
     pending_inv (pending m) -> pending_inv (pending (f m))) ->
  preserves pending_ok (on_model f).
Proof. intros Hf a Ha. now apply Hf. Qed.

Lemma ok_zoom_model {A} (c : M RedactionModel A) :
  (forall m, pending_inv (pending m) -> pending_inv (pending (fst (c m)))) ->
  preserves pending_ok (zoom model set_model c).
Proof.
  intros Hc a Ha. unfold zoom, pending_ok, app_pending.
  specialize (Hc (model a) Ha). now destruct (c (model a)).
Qed.

Lemma ok_refresh_page w : preserves pending_ok (_refresh_page w).
Proof. apply ok_keeps, keeps_refresh_page. Qed.

Lemma ok_update_redaction_list : preserves pending_ok _update_redaction_list.
Proof. apply ok_keeps, keeps_update_redaction_list. Qed.

Lemma ok_log ev : preserves pending_ok (modify (log ev)).
Proof. apply ok_keeps, keeps_log. Qed.

Lemma ok_apply_redactions :
  preserves pending_ok (zoom model set_model apply_redactions).
Proof.
  apply ok_zoom_model. intros m Hm.
  pose proof (apply_redactions_outcome m) as H.
  destruct (apply_redactions m) as [m' [count|e]]; cbn [fst].
  - destruct H as (-> & _). apply pending_inv_empty.
  - destruct H as (-> & _). exact Hm.
Qed.

Lemma ok_do_apply w : preserves pending_ok (_do_apply w).
Proof.
  unfold _do_apply. apply preserves_try_except; [|intros e; apply ok_log].
  apply preserves_bind; [apply ok_log|intros _].
  apply preserves_bind; [apply ok_apply_redactions|intros _].
  apply preserves_bind; [apply ok_keeps, keeps_on_renderer|intros _].
  apply preserves_bind; [apply ok_refresh_page|intros _].
  apply ok_update_redaction_list.
Qed.

Lemma ok_goto_page p w :
  preserves pending_ok (on_model (set_current_page p) ;; _refresh_page w).
Proof.
  apply preserves_bind; [now apply ok_on_model|intros _]. apply ok_refresh_page.
Qed.

Lemma ok_run (cmd : Command) (a : RedactorApp) :
  pending_ok a -> pending_ok (run is_ValueError cmd a).
Proof.
  destruct cmd; cbn [run]; revert a;
    match goal with
    | |- forall a, _ -> pending_ok (fst (?c a)) => change (preserves pending_ok c)
    end.
  - intros a. apply perform_pending_inv.
  - unfold _on_open. destruct (String.eqb path ""); [apply preserves_ret|].
    apply preserves_try_except; [|intros e; apply ok_log].
    apply preserves_bind; [apply ok_log|intros _].
    apply preserves_bind.
    { apply ok_zoom_model. intros m _. rewrite open_document_pending.
      apply pending_inv_empty. }
    intros _. apply preserves_bind; [apply ok_keeps, keeps_on_renderer|intros _].
    apply preserves_bind; [apply ok_update_redaction_list|intros _].
    apply ok_refresh_page.
  - unfold _on_save.
    apply preserves_bind; [apply preserves_gets|intros has_doc].
    destruct (negb has_doc); [apply preserves_ret|].
    apply preserves_bind; [apply preserves_gets|intros pending].
    assert (Hsave : preserves pending_ok
              (if String.eqb path "" then ret tt else
               try_except
                 (modify (log (call_save_document path)) ;;
                  zoom model set_model (save_document path) ;;
                  modify (log (showinfo "Saved"
                                 ("Redacted PDF saved to:" ++ nl ++ path)%string)))
                 (fun e =>
                    modify (log (showerror "Error"
                                   ("Could not save PDF:" ++ nl ++ str e)%string))))).
    { destruct (String.eqb path ""); [apply preserves_ret|].
      apply preserves_try_except; [|intros e; apply ok_log].
      apply preserves_bind; [apply ok_log|intros _].
      apply preserves_bind; [|intros _; apply ok_log].
      apply ok_keeps, keeps_zoom_model, keeps_save_document. }
    destruct pending; [|exact Hsave].
    destruct answer as [[|]|]; [|exact Hsave|apply preserves_ret].
    apply preserves_bind; [apply ok_do_apply|intros _; exact Hsave].
  - unfold _on_close_doc.
    apply preserves_bind; [apply preserves_gets|intros pending].
    destruct (pending && negb answer); [apply preserves_ret|].
    apply preserves_bind.
    { apply ok_zoom_model. intros m _. apply pending_inv_empty. }
    intros _. apply preserves_bind; [apply ok_keeps, keeps_on_renderer|intros _].
    apply preserves_bind; [apply ok_keeps, keeps_on_canvas|intros _].
    apply preserves_bind; [apply ok_keeps, keeps_clear_overlays|intros _].
    apply ok_update_redaction_list.
  - unfold _prev_page.
    apply preserves_bind; [apply preserves_gets|intros page].
    destruct (0 <? page); [apply ok_goto_page|apply preserves_ret].
  - unfold _next_page.
    apply preserves_bind; [apply preserves_gets|intros page].
    apply preserves_bind; [apply preserves_gets|intros count].
    destruct (page <? count - 1); [apply ok_goto_page|apply preserves_ret].
  - intros a Ha. destruct entry as [n|]; [|exact Ha].
    rewrite page_jump_state.
    destruct ((0 <=? n - 1) && (n - 1 <? page_count (model a))); [|exact Ha].
    now apply ok_goto_page.
  - unfold _do_resize.
    apply preserves_bind; [apply preserves_gets|intros has_doc].
    destruct has_doc; [apply ok_refresh_page|apply preserves_ret].
  - unfold _on_search.
    apply preserves_bind; [apply preserves_gets|intros has_doc].
    destruct (negb has_doc); [apply preserves_ret|].
    destruct (String.eqb text ""); [apply preserves_ret|].
    apply preserves_bind;
      [apply ok_keeps, keeps_zoom_model, keeps_search_text|intros results].
    destruct results as [|[first quads] others]; [apply preserves_ret|].
    apply preserves_bind.
    { apply preserves_foldM. intros k [p hits]. unfold mark_hits.
      apply preserves_foldM. intros k' rect.
      apply preserves_bind; [|intros _; apply preserves_ret].
      apply ok_on_model. intros m. apply pending_inv_add. }
    intros _. apply preserves_bind; [now apply ok_on_model|intros _].
    apply preserves_bind; [apply ok_update_redaction_list|intros _].
    apply ok_refresh_page.
  - unfold _on_tree_select. destruct selection as [rid|]; [|apply preserves_ret].
    apply preserves_bind; [apply preserves_gets|intros rects].
    destruct (find_id rid rects); [|apply preserves_ret].
    apply preserves_bind; [apply preserves_gets|intros page].
    apply preserves_bind.
    { destruct (page_num r =? page); [apply preserves_ret|apply ok_goto_page]. }
    intros _. apply ok_keeps, keeps_select_redaction.
  - unfold _on_remove_selected. destruct selection as [rid|]; [|apply preserves_ret].
    apply preserves_bind.
    { apply ok_on_model. intros m. apply pending_inv_remove. }
    intros _. apply preserves_bind; [apply ok_keeps, keeps_remove_overlay|intros _].
    apply ok_update_redaction_list.
  - unfold _on_clear_page.
    apply preserves_bind; [apply preserves_gets|intros page].
    apply preserves_bind; [apply preserves_gets|intros removed].
    apply preserves_bind.
    { apply ok_on_model. intros m. apply pending_inv_pop. }
    intros _. destruct (removed =? 0); [apply preserves_ret|].
    apply preserves_bind; [apply ok_refresh_page|intros _].
    apply ok_update_redaction_list.
  - unfold _on_clear_all.
    apply preserves_bind; [apply preserves_gets|intros pending].
    destruct (negb pending); [apply preserves_ret|].
    destruct (negb answer); [apply preserves_ret|].
    apply preserves_bind.
    { apply ok_on_model. intros m _. apply pending_inv_empty. }
    intros _. apply preserves_bind; [apply ok_refresh_page|intros _].
    apply ok_update_redaction_list.
  - unfold _on_apply.
    apply preserves_bind; [apply preserves_gets|intros pending].
    destruct (negb pending); [apply ok_log|].
    destruct (negb answer); [apply preserves_ret|apply ok_do_apply].
Qed.

(** X27.  In every state that the window reaches, the pending set is well formed:
    whatever the commands given and the events on the canvas, and whether or
    not they fail, its keys are distinct, none of them has an empty list, and
    every mark is filed under its own page. *)
Theorem window_keeps_pending_well_formed (cmds : list Command) :
  pending_inv (app_pending (app_after_commands is_ValueError cmds)).
Proof.
  unfold app_after_commands.
  assert (H : forall a : RedactorApp,
            pending_ok a ->
            pending_ok (fold_left (fun a cmd => run is_ValueError cmd a) cmds a)).
  { induction cmds as [|cmd cmds IH]; intros a Ha; [exact Ha|].
    simpl. apply IH. now apply ok_run. }
  apply H. apply pending_inv_empty.
Qed.
End PendingInvariant.

(* ================================================================== *)
(** * The statements at work on the example engine *)

Lemma model_marked_wf : PyDict.wf (pending model_marked).
Proof.
  unfold PyDict.wf. vm_compute. repeat constructor; simpl; intuition discriminate.
Qed.

Lemma model_marked_filed : filed_by_page (pending model_marked).
Proof.
  intros p l r H Hin.
  change (pending model_marked) with [(0, [mark_a; mark_b]); (2, [mark_c])] in H.
  simpl in H. destruct (Z.eqb_spec p 0) as [->|_].
  - injection H as <-. destruct Hin as [<-|[<-|[]]]; reflexivity.
  - destruct (Z.eqb_spec p 2) as [->|_]; [|discriminate H].
    injection H as <-. destruct Hin as [<-|[]]. reflexivity.
Qed.

Lemma coarse_arith_rounds : rounds_within coarse_arith (1 # 1024).
Proof.
  intros x. unfold coarse_arith, rnd.
  assert (H : (x * (1025 # 1024) - x == (1 # 1024) * x)%Q) by ring.
  rewrite H, Qabs_Qmult. apply Qle_refl.
Qed.

(** C1, as first stated, fails: with marks pending and no document open,
    [apply_redactions] raises and the marks stay pending. *)
Lemma apply_without_document_fails :
  ~ @apply_empties_pending toy_engine model_marked.
Proof.
  unfold apply_empties_pending. vm_compute. intros [H _]. discriminate H.
Qed.

(** C1 on the example: two marks pending on the page of an open document. *)
Lemma apply_redactions_empties_pending_witness :
  exists m',
    apply_redactions model_open = (m', Ok (redaction_count model_open))
    /\ pending m' = [] /\ is_applied m' = true.
Proof.
  apply (proj1 (@apply_redactions_empties_pending toy_engine model_open)).
  - vm_compute. discriminate.
  - intros p Hp. vm_compute in Hp. destruct Hp as [<-|[]].
    intros d. repeat split; eexists; reflexivity.
Defined.




(** C4 on the example: one more mark, and an id that no mark carries. *)
Lemma pending_bookkeeping_counts_witness :
  redaction_count (add_redaction mark_a model_marked)
  = redaction_count model_marked + 1
  /\ remove_redaction "zzzzzzzz" model_marked = (None, model_marked).
Proof.
  destruct (@pending_bookkeeping_counts toy_engine model_marked model_marked_wf)
    as (Hadd & _ & Habsent & _).
  split; [apply Hadd|apply Habsent].
  vm_compute. intuition discriminate.
Defined.

(** C5 on the example: the marks of page 0 come in the order of addition. *)
Lemma all_redactions_ordered_witness :
  Permutation (all_redactions model_marked) (marks_of (pending model_marked))
  /\ filter (fun r => page_num r =? 0) (all_redactions model_marked)
     = [mark_a; mark_b].
Proof.
  destruct (@all_redactions_ordered toy_engine model_marked model_marked_wf
              model_marked_filed) as (Hperm & _ & Hpage & _).
  split; [exact Hperm|exact (Hpage 0)].
Defined.

(** C6 on the example: a mark pending after [display_page] at another fit
    width was pending before. *)
Lemma marks_are_never_modified_witness :
  In mark_c (app_marks app_marked)
  \/ introduces (op_display_page 0 (Some 300) 800) app_marked mark_c.
Proof.
  apply (proj1 (@marks_are_never_modified toy_engine exact_arith)
           (op_display_page 0 (Some 300) 800) app_marked mark_c).
  vm_compute. left. reflexivity.
Defined.

(** C7 on the example: page 0 is cached with the image of the document in
    state 0, and is returned as such for a page of the document in state 7. *)
Lemma cache_is_bounded_lru_witness :
  (List.length (_cache (renderer_after calls_example)) <= CACHE_LIMIT)%nat
  /\ render_page (toy_page 7 0) 0 (renderer_after calls_example)
     = (mkPDFRenderer [(2, toy_image 0); (4, toy_image 0); (5, toy_image 0);
                       (0, toy_image 0)],
        Ok (toy_image 0)).
Proof.
  destruct (@cache_is_bounded_lru toy_engine calls_example) as (Hlen & _ & Hhit & _).
  split; [exact Hlen|].
  apply (Hhit (toy_page 7 0) 0 (toy_image 0)). reflexivity.
Defined.

(** C8 on the example: a file that does not open, a pending page that the
    document does not have, and an engine that cannot write. *)
Lemma failures_are_caught_and_shown_witness :
  events (fst (@_on_open toy_engine exact_arith "bad.pdf" 800 app_marked))
  = events app_marked
    ++ [call_open_document "bad.pdf";
        showerror "Error" ("Could not open PDF:" ++ nl ++ "no such file")%string]
  /\ events (fst (@_do_apply toy_engine exact_arith 800 app_marked))
     = events app_marked
       ++ [call_apply_redactions;
           showerror "Error"
             ("Failed to apply redactions:" ++ nl ++ "page not in document")%string]
  /\ events (fst (@_on_save toy_engine exact_arith (Some false) "out.pdf" 800
                    app_marked))
     = events app_marked
       ++ [call_save_document "out.pdf";
           showerror "Error" ("Could not save PDF:" ++ nl ++ "cannot write")%string].
Proof.
  destruct (@failures_are_caught_and_shown toy_engine exact_arith app_marked 800)
    as (Hopen & Happly & Hsave & _).
  split; [|split].
  - rewrite (Hopen "bad.pdf" RedactionModel_init (EngineError "no such file"));
      [reflexivity|discriminate|reflexivity].
  - rewrite (Happly (model app_marked) (EngineError "page not in document"));
      [reflexivity|reflexivity].
  - rewrite (Hsave (Some false) "out.pdf" (model app_marked)
               (EngineError "cannot write"));
      [reflexivity|reflexivity|discriminate|discriminate|reflexivity].
Defined.


(** C10 on the example: two marks are pending when ["bad.pdf"] fails to
    open. *)
Lemma open_document_failure_loses_state_witness :
  open_document "bad.pdf" model_open
  = (RedactionModel_init, Raised (EngineError "no such file"))
  /\ pending (fst (open_document "bad.pdf" model_open)) = []
  /\ pending model_open <> [].
Proof.
  destruct (@open_document_failure_loses_state toy_engine model_open "bad.pdf"
              (EngineError "no such file") eq_refl)
    as (Hopen & _ & _ & _ & Hpending & _).
  split; [exact Hopen|split; [exact Hpending|vm_compute; discriminate]].
Defined.

(* ================================================================== *)
(** * The temporary rectangle of a drag *)

Section DragTrace.
Context {E : Engine} {F : Float64}.

Lemma zget_app_below {V} k n (v : V) (d : PyDict.dict Z V) :
  k <> n -> zget k (d ++ [(n, v)]) = zget k d.
Proof.
  intros Hne. induction d as [|[k' v'] d IH]; simpl.
  - destruct (Z.eqb_spec k n); [contradiction|reflexivity].
  - now destruct (k =? k').
Qed.

Lemma view_update_redaction_list : keeps app_view _update_redaction_list.
Proof.
  unfold _update_redaction_list.
  apply keeps_bind; [intros a; reflexivity|intros _].
  apply keeps_bind; [apply keeps_gets|intros rects].
  apply keeps_foldM. intros acc r a. unfold tree_insert.
  now destruct (existsb (String.eqb (id r)) (tree a)).
Qed.

Lemma press_drawing x0 y0 (a : RedactorApp) :
  (forall k, In k (PyDict.keys (canvas_items (canvas a))) ->
             k < next_item (canvas a)) ->
  drawing_from x0 y0 a (fst (_on_press x0 y0 a)).
Proof.
  intros Hfresh. unfold drawing_from, _on_press.
  cbv [bind on_controller modify create_item canvas_create]. cbn.
  repeat split. eexists. apply zset_absent. apply zget_None_notin.
  intros Hin. specialize (Hfresh _ Hin). lia.
Qed.

Lemma drag_drawing x0 y0 cx cy (a0 a : RedactorApp) :
  (forall k, In k (PyDict.keys (canvas_items (canvas a0))) ->
             k < next_item (canvas a0)) ->
  drawing_from x0 y0 a0 a ->
  drawing_from x0 y0 a0 (fst (_on_drag cx cy a)).
Proof.
  intros Hfresh (Hm & Hc & Hn & it & Hitems). unfold _on_drag.
  rewrite bind_run. unfold gets at 1. cbn iota beta. rewrite Hc.
  cbn [_drawing _temp_rect_id set_temp_rect_id set_draw_start set_drawing].
  rewrite bind_run. unfold unpack_draw_start at 1. rewrite Hc.
  cbn [_draw_start set_temp_rect_id set_draw_start].
  unfold on_canvas, modify, canvas_coords. cbn [fst snd]. rewrite Hitems.
  assert (Hnot : ~ In (next_item (canvas a0)) (PyDict.keys (canvas_items (canvas a0))))
    by (intros Hin; specialize (Hfresh _ Hin); lia).
  rewrite zget_app_notin, zget_here by exact Hnot.
  unfold drawing_from. cbn [model controller canvas set_canvas next_item canvas_items].
  rewrite zset_app_notin, zset_here by exact Hnot.
  repeat split; try assumption. now eexists.
Qed.

Lemma drags_drawing x0 y0 (a0 : RedactorApp) moves :
  (forall k, In k (PyDict.keys (canvas_items (canvas a0))) ->
             k < next_item (canvas a0)) ->
  forall a,
    drawing_from x0 y0 a0 a ->
    drawing_from x0 y0 a0
      (fold_left (fun a p => fst (_on_drag (fst p) (snd p) a)) moves a).
Proof.
  intros Hfresh. induction moves as [|[x y] moves IH]; intros a Ha; [exact Ha|].
  simpl. apply IH. now apply drag_drawing.
Qed.

(** A release while a rectangle is drawn. *)
Lemma release_drawing x0 y0 uid cx cy (a0 a : RedactorApp) :
  (forall k, In k (PyDict.keys (canvas_items (canvas a0))) ->
             k < next_item (canvas a0)) ->
  drawing_from x0 y0 a0 a ->
  let released := fst (_on_release _on_redaction_change uid cx cy a) in
  let small := Qltb (rnd (py_max x0 cx - py_min x0 cx)) (inject_Z MIN_RECT_SIZE)
               || Qltb (rnd (py_max y0 cy - py_min y0 cy)) (inject_Z MIN_RECT_SIZE) in
  _drawing (controller released) = false
  /\ _temp_rect_id (controller released) = None
  /\ (exists over,
        canvas_items (canvas released)
        = canvas_items (canvas a0)
          ++ (if small then [] else [(next_item (canvas a0) + 1, over)]))
  /\ (small = true -> model released = model a0).
Proof.
  intros Hfresh (Hm & Hc & Hn & it & Hitems) released small.
  assert (Hnot : ~ In (next_item (canvas a0)) (PyDict.keys (canvas_items (canvas a0))))
    by (intros Hin; specialize (Hfresh _ Hin); lia).
  assert (Hrel : released = fst (_on_release _on_redaction_change uid cx cy a))
    by reflexivity.
  clearbody released. unfold _on_release in Hrel.
  rewrite bind_run in Hrel. unfold gets at 1 in Hrel. cbn iota beta in Hrel.
  rewrite Hc in Hrel. cbn [_drawing set_temp_rect_id set_draw_start set_drawing negb]
    in Hrel.
  rewrite bind_run in Hrel. unfold on_controller at 1, modify at 1 in Hrel.
  cbn iota beta in Hrel. rewrite bind_run in Hrel.
  unfold unpack_draw_start at 1 in Hrel.
  cbn [controller set_controller] in Hrel. rewrite Hc in Hrel.
  cbn [_draw_start set_temp_rect_id set_draw_start set_drawing] in Hrel.
  rewrite bind_run in Hrel. unfold gets at 1 in Hrel. cbn iota beta in Hrel.
  cbn [controller set_controller _temp_rect_id set_temp_rect_id set_drawing] in Hrel.
  rewrite bind_run in Hrel.
  cbv [bind on_canvas on_controller modify] in Hrel. cbn iota beta in Hrel.
  fold small in Hrel.
  assert (Hdel : canvas_items (canvas_delete (next_item (canvas a0)) (canvas a))
                 = canvas_items (canvas a0)).
  { unfold canvas_delete. cbn [canvas_items]. rewrite Hitems.
    rewrite zpop_app_notin, zpop_here by exact Hnot. apply app_nil_r. }
  destruct small.
  - subst released. cbn [fst ret controller canvas set_controller set_canvas model
                         _drawing _temp_rect_id set_temp_rect_id set_drawing].
    split; [reflexivity|]. split; [reflexivity|]. split.
    + exists it. rewrite Hdel. now rewrite app_nil_r.
    + intros _. exact Hm.
  - cbv [gets] in Hrel. cbn iota beta in Hrel.
    match type of Hrel with
    | context [canvas_to_pdf ?c ?x ?y] => destruct (canvas_to_pdf c x y)
    end.
    match type of Hrel with
    | context [canvas_to_pdf ?c ?x ?y] => destruct (canvas_to_pdf c x y)
    end.
    cbv [on_model modify] in Hrel.
    match type of Hrel with
    | _ = fst (let (s', r) := _draw_overlay ?red ?s in _) =>
        rewrite (draw_overlay_run red s) in Hrel;
          pose proof (view_update_redaction_list (overlay_drawn red s)) as Hview;
          destruct (overlay_drawn_fields red s) as (_ & _ & _ & _ & _ & Hmaps);
          assert (Hov : exists over,
                    canvas_items (canvas (overlay_drawn red s))
                    = canvas_items (canvas a0) ++ [(next_item (canvas a0) + 1, over)]
                    /\ _drawing (controller (overlay_drawn red s)) = false
                    /\ _temp_rect_id (controller (overlay_drawn red s)) = None)
    end.
    { unfold overlay_drawn.
      match goal with
      | |- context [pdf_rect ?r] => destruct (pdf_rect r) as [[[r0 r1] r2] r3]
      end.
      match goal with
      | |- context [pdf_to_canvas ?c r0 r1] => destruct (pdf_to_canvas c r0 r1)
      end.
      match goal with
      | |- context [pdf_to_canvas ?c r2 r3] => destruct (pdf_to_canvas c r2 r3)
      end.
      eexists. cbn [canvas controller set_canvas set_controller set_model
                    canvas_create snd canvas_items next_item canvas_delete
                    _drawing _temp_rect_id set_rid_maps set_temp_rect_id
                    set_drawing].
      rewrite Hn. split; [|split; reflexivity].
      rewrite Hitems, zpop_app_notin, zpop_here, app_nil_r by exact Hnot.
      apply zset_absent. apply zget_None_notin. intros Hin.
      specialize (Hfresh _ Hin). lia. }
    destruct Hov as (over & Hov1 & Hov2 & Hov3).
    cbn iota beta in Hrel. unfold _on_redaction_change in Hrel.
    rewrite <- Hrel in Hview. unfold app_view in Hview.
    inversion Hview as [[Hvc Hvk]]. rewrite Hvk, Hvc.
    split; [exact Hov2|]. split; [exact Hov3|]. split; [|discriminate].
    exists over. exact Hov1.
Qed.

End DragTrace.

(* ================================================================== *)
(** * The further statements at work on the examples *)

Lemma model_marked_nonempty : lists_nonempty (pending model_marked).
Proof.
  intros p l H.
  change (pending model_marked) with [(0, [mark_a; mark_b]); (2, [mark_c])] in H.
  simpl in H. destruct (Z.eqb_spec p 0) as [->|_].
  - injection H as <-. discriminate.
  - destruct (Z.eqb_spec p 2) as [->|_]; [|discriminate H].
    injection H as <-. discriminate.
Qed.

Lemma exact_arith_monotone : rounds_monotone exact_arith.
Proof. intros x y H. exact H. Qed.

(** A fourth mark is added to the three of the example, and removed. *)
Lemma add_then_remove_restores_witness :
  remove_redaction "dddddddd" (add_redaction mark_d model_marked)
  = (Some mark_d, model_marked).
Proof.
  apply (@add_then_remove_restores toy_engine model_marked mark_d
           model_marked_wf model_marked_nonempty).
  vm_compute. intuition discriminate.
Defined.

(** The three marks of the example are counted and listed. *)
Lemma redaction_count_counts_all_redactions_witness :
  redaction_count model_marked
  = Z.of_nat (List.length (all_redactions model_marked))
  /\ (has_pending model_marked = true <-> all_redactions model_marked <> []).
Proof.
  exact (@redaction_count_counts_all_redactions toy_engine model_marked
           model_marked_wf).
Defined.

(** Page 0 of the example, with its two marks, is cleared twice. *)
Lemma clear_page_redactions_twice_witness :
  clear_page_redactions 0 (snd (clear_page_redactions 0 model_marked))
  = (0, snd (clear_page_redactions 0 model_marked))
  /\ get_page_redactions 0 (snd (clear_page_redactions 0 model_marked)) = [].
Proof.
  exact (@clear_page_redactions_twice toy_engine 0 model_marked model_marked_wf).
Defined.

(** The search for ["secret"] in the three pages of the second example. *)
Lemma search_text_results_witness :
  StronglySorted Z.lt [0; 2]
  /\ forall k hits,
       zget k [(0, [hit_a; hit_b]); (2, [hit_c])] = Some hits ->
       0 <= k < 3 /\ hits <> [].
Proof.
  destruct (@search_text_results book_engine "secret" (model book_open))
    as (_ & Hresults & _).
  exact (Hresults [(0, [hit_a; hit_b]); (2, [hit_c])] eq_refl).
Defined.

(** Saving the example model that has no document. *)
Lemma save_document_touches_only_the_document_witness :
  exists msg,
    save_document "out.pdf" model_marked
    = (model_marked, Raised (AttributeError msg)).
Proof.
  destruct (@save_document_touches_only_the_document toy_engine "out.pdf"
              model_marked) as (_ & Hnone & _).
  apply Hnone. reflexivity.
Defined.

(** The second engine is asked for a page that its document does not have. *)
Lemma render_page_raises_only_from_engine_witness :
  zget 7 (@_cache book_engine PDFRenderer_init) = None
  /\ @get_pixmap book_engine 0 7 = Raised (EngineError "page not in document")
  /\ fst (@render_page book_engine (0, 7) 7 PDFRenderer_init) = PDFRenderer_init.
Proof.
  apply (@render_page_raises_only_from_engine book_engine (0, 7) 7
           PDFRenderer_init (EngineError "page not in document")).
  reflexivity.
Defined.

(** Page 0 is rendered from the document in state 0, and asked for again
    with the document in state 7. *)
Lemma render_page_again_same_image_witness :
  render_page (toy_page 7 0) 0 (mkPDFRenderer [(0, toy_image 0)])
  = (mkPDFRenderer [(0, toy_image 0)], Ok (toy_image 0)).
Proof.
  apply (@render_page_again_same_image toy_engine (toy_page 0 0) (toy_page 7 0)
           0 PDFRenderer_init).
  - constructor.
  - reflexivity.
Defined.

(** The cached page 0 is invalidated, and rendered from the document in
    state 3. *)
Lemma invalidate_then_render_asks_engine_witness :
  snd (render_page (toy_page 3 0) 0
         (invalidate (Some 0) (mkPDFRenderer [(0, toy_image 0)])))
  = Ok (toy_image 3).
Proof.
  destruct (@invalidate_then_render_asks_engine toy_engine (toy_page 3 0) 0
              (mkPDFRenderer [(0, toy_image 0)])) as (_ & Hpage & _).
  apply Hpage. repeat constructor. now intros [].
Defined.


(** A drag from (100, 100) up and left to (10, 10) on the example. *)
Lemma release_keeps_marks_normalized_witness :
  Forall normalized
    (app_marks
       (fst (@_on_release toy_engine exact_arith _on_redaction_change
               "dddddddd" 10 10 (fst (_on_press 100 100 app_open))))).
Proof.
  apply Forall_forall.
  apply (@release_keeps_marks_normalized toy_engine exact_arith "dddddddd" 10 10
           (fst (_on_press 100 100 app_open)) exact_arith_monotone).
  - vm_compute. discriminate.
  - intros r Hr. vm_compute in Hr. contradiction.
Defined.

(** The example application shows page 0 with its two marks. *)
Lemma display_page_draws_the_marks_of_the_page_witness :
  PyDict.values (_canvas_to_rid (controller app_shown)) = ["aaaaaaaa"; "bbbbbbbb"]
  /\ (forall r, In r (get_page_redactions 0 (model app_shown)) ->
                sget (id r) (_rid_to_canvas (controller app_shown)) <> None)
  /\ _selected_rid (controller app_shown) = None.
Proof.
  apply (@display_page_draws_the_marks_of_the_page toy_engine exact_arith 0 None
           800 (set_model (add_redaction mark_c model_open) app_open) app_shown).
  - reflexivity.
  - vm_compute. reflexivity.
Defined.

(** The example page is displayed with the coarse arithmetic. *)
Lemma refresh_page_scale_positive_witness :
  (0 < _total_scale
         (controller (fst (@_refresh_page toy_engine coarse_arith 800 app_open))))%Q.
Proof.
  apply (@refresh_page_scale_positive toy_engine coarse_arith (1 # 1024) 800
           app_open (fst (@_refresh_page toy_engine coarse_arith 800 app_open))
           coarse_arith_rounds).
  - reflexivity.
  - intros img. simpl. lia.
  - reflexivity.
  - vm_compute. reflexivity.
Defined.

(** The next page of the first of three, in the second example. *)
Lemma navigation_stays_in_range_witness :
  0 <= current_page
         (model (fst (@_next_page book_engine exact_arith 800 book_open))) < 3
  /\ app_pending (fst (@_next_page book_engine exact_arith 800 book_open))
     = app_pending book_open.
Proof.
  apply (@navigation_stays_in_range book_engine exact_arith (fun _ => false)
           None 800 book_open).
  - vm_compute. split; [discriminate|reflexivity].
  - right. left. reflexivity.
Defined.

(** The mark on page 2 is selected in the list while page 0 is shown. *)
Lemma tree_select_shows_the_page_of_the_mark_witness :
  current_page
    (model (fst (@_on_tree_select toy_engine exact_arith (Some "cccccccc") 800
                   app_shown))) = 2
  /\ app_pending (fst (@_on_tree_select toy_engine exact_arith (Some "cccccccc")
                         800 app_shown))
     = app_pending app_shown.
Proof.
  apply (@tree_select_shows_the_page_of_the_mark toy_engine exact_arith
           "cccccccc" mark_c 800 app_shown).
  vm_compute. reflexivity.
Defined.

(** Two marks with the same id cannot both be listed. *)
Lemma update_redaction_list_rows_witness :
  exists a' msg,
    _update_redaction_list (set_model model_twins app_open)
    = (a', Raised (TclError msg)).
Proof.
  destruct (@update_redaction_list_rows toy_engine
              (set_model model_twins app_open)) as [_ Hdup].
  apply Hdup. intros H. vm_compute in H.
  inversion H as [|x l Hn _]. apply Hn. now left.
Defined.

(** A right click where the page image (item 2) and the overlay of the
    second mark (item 4) lie under the pointer. *)
Lemma right_click_removes_the_first_overlay_witness :
  _on_right_click _on_redaction_change [2] app_shown = (app_shown, Ok tt)
  /\ app_pending (fst (_on_right_click _on_redaction_change [2; 4; 3] app_shown))
     = pending (snd (remove_redaction "bbbbbbbb" (model app_shown))).
Proof.
  destruct (@right_click_removes_the_first_overlay toy_engine [2] app_shown)
    as [Hmiss Hhit].
  - intros i [<-|[]]. reflexivity.
  - split; [exact Hmiss|]. apply (Hhit 4 "bbbbbbbb" [3]). reflexivity.
Defined.

(** The second mark is removed from the list, and by a right click. *)
Lemma remove_selected_is_right_click_witness :
  _on_remove_selected (Some "bbbbbbbb") app_shown
  = _on_right_click _on_redaction_change [4; 3] app_shown.
Proof.
  apply (@remove_selected_is_right_click toy_engine 4 "bbbbbbbb" [3] app_shown).
  reflexivity.
Defined.

(** Page 0 of the example is cleared; the mark of page 2 stays. *)
Lemma clear_page_clears_the_current_page_only_witness :
  current_page
    (model (fst (@_on_clear_page toy_engine exact_arith 800 app_shown))) = 0
  /\ get_page_redactions 0
       (model (fst (@_on_clear_page toy_engine exact_arith 800 app_shown))) = []
  /\ forall p, p <> 0 ->
       get_page_redactions p
         (model (fst (@_on_clear_page toy_engine exact_arith 800 app_shown)))
       = get_page_redactions p (model app_shown).
Proof.
  apply (@clear_page_clears_the_current_page_only toy_engine exact_arith 800
           app_shown).
  unfold PyDict.wf. vm_compute. repeat constructor; simpl; intuition discriminate.
Defined.

(** The search for ["secret"] from the window of the second example. *)
Lemma search_marks_every_hit_witness :
  redaction_count (model book_searched) = redaction_count (model book_open) + 3
  /\ In (current_page (model book_searched)) [0; 2]
  /\ forall k, In k [0; 2] -> current_page (model book_searched) <= k.
Proof.
  destruct (@search_marks_every_hit book_engine exact_arith "secret" fresh_ids
              800 book_open (model book_open)
              [(0, [hit_a; hit_b]); (2, [hit_c])])
    as (Hcount & _ & _ & _ & Hfirst).
  - reflexivity.
  - discriminate.
  - reflexivity.
  - split; [exact Hcount|]. apply Hfirst. discriminate.
Defined.

(** The two marks of the example page are applied. *)
Lemma do_apply_renders_afresh_witness :
  let a' := fst (@_do_apply toy_engine exact_arith 800
                   (set_model model_open app_open)) in
  app_pending a' = [] /\ is_applied (model a') = true /\ cache_is_current a'.
Proof.
  apply (@do_apply_renders_afresh toy_engine exact_arith 800
           (set_model model_open app_open)
           (fst (apply_redactions model_open)) 2).
  vm_compute. reflexivity.
Defined.

(** ["good.pdf"] is opened again while a mark is pending. *)
Lemma open_starts_afresh_witness :
  let a' := fst (@_on_open toy_engine exact_arith "good.pdf" 800 app_marked) in
  file_path (model a') = Some "good.pdf" /\ current_page (model a') = 0
  /\ app_pending a' = [] /\ is_applied (model a') = false
  /\ cache_is_current a'.
Proof.
  apply (@open_starts_afresh toy_engine exact_arith "good.pdf" 800 app_marked
           (fst (open_document "good.pdf" (model app_marked)))).
  - discriminate.
  - reflexivity.
Defined.

(** The document of the second example is saved with its three marks
    pending. *)
Lemma save_alone_keeps_the_marks_witness :
  app_rest (fst (@_on_save book_engine exact_arith (Some false) "out.pdf" 800
                   book_searched))
  = app_rest book_searched.
Proof.
  apply (@save_alone_keeps_the_marks book_engine exact_arith (Some false)
           "out.pdf" 800 book_searched).
  discriminate.
Defined.

